(** * Random-number generation and the statistical test battery

    A shallow embedding of [random_generator.py] (class [RandomGenerator])
    and [statistical_tests.py] (class [StatisticalTester]), with their
    callers: the table writers of [main.py],
    [DistributionVisualizer.generate_all_distributions] and the script
    [generate_all_distributions_bin.py].

    Conventions of the embedding.
    - Python [int] is [Z].  Arithmetic the source performs on numpy [int64]
      scalars and arrays wraps modulo 2^64 ([wrap64]).
    - A function that may raise returns a [result]; code that also threads
      state (the random source, the objects a test can reach) lives in the
      state-and-exception monad [SE].
    - Raw samples handed out by the random source are finite doubles, that
      is rationals ([Q]); clipping and truncation are exact on them.
    - Statistics are doubles read as extended reals ([float]): the special
      values inf and nan are kept, rounding is not modelled.  Where a
      statement depends on it, a hypothesis keeps the values clear of the
      point where rounding decides; the comparison of the independence
      test is evaluated in IEEE binary64 as well ([Binary64]).
    - The files a function writes are a finite map from paths to the rows
      written ([files]). *)

From Stdlib Require Import ZArith QArith Qround Qabs Qminmax Reals Lra Lia.
From Stdlib Require PrimFloat Uint63.
From stdpp Require Import base list gmap strings pretty.

Open Scope Z_scope.

(** ** Exceptions and the state-and-exception monad *)

Inductive exn : Type := ValueError | IndexError.

Inductive result (A : Type) : Type :=
| OK (a : A)
| Raise (e : exn).
Arguments OK {A} a.
Arguments Raise {A} e.

Definition SE (S A : Type) : Type := S -> result A * S.

Definition ret {S A : Type} (a : A) : SE S A := fun s => (OK a, s).

Definition raise {S A : Type} (e : exn) : SE S A := fun s => (Raise e, s).

Definition bind {S A B : Type} (m : SE S A) (f : A -> SE S B) : SE S B :=
  fun s => match m s with
           | (OK a, s') => f a s'
           | (Raise e, s') => (Raise e, s')
           end.

Notation "x <~ m ;; k" := (bind m (fun x => k))
  (at level 100, m at next level, right associativity).

(** A library call that raises or returns, lifted into the monad. *)
Definition lift {S A : Type} (r : result A) : SE S A := fun s => (r, s).

Definition is_ok {A : Type} (r : result A) : bool :=
  match r with OK _ => true | Raise _ => false end.

(** [n] successive runs of [m], results in order: a comprehension
    [[m for _ in range(n)]] or a vectorised draw of [n] samples. *)
Fixpoint repeatM {S A : Type} (n : nat) (m : SE S A) : SE S (list A) :=
  match n with
  | O => ret []
  | Datatypes.S k => x <~ m ;; xs <~ repeatM k m ;; ret (x :: xs)
  end.

(** ** The random source *)

(** The entropy consumed by [random] and [numpy.random]: an unbounded tape
    of raw variates and a read position. *)
Record rng : Type := Rng { tape : nat -> Q; cursor : nat }.

Definition raw : SE rng Q :=
  fun g => (OK (tape g (cursor g)), Rng (tape g) (Datatypes.S (cursor g))).

(** [random._randbelow(n)] for [n > 0]: an integer in [[0, n)]. *)
Definition randbelow (n : Z) : SE rng Z :=
  r <~ raw ;; ret (Qfloor r mod n).

(** [random.randint(a, b)]: [randrange(a, b+1)], which rejects an empty
    range. *)
Definition randint (a b : Z) : SE rng Z :=
  if b <? a then raise ValueError
  else r <~ randbelow (b - a + 1) ;; ret (a + r).

(** A numpy sampler asked for [size] values: a negative size is rejected,
    otherwise each value is [f] of one raw variate. *)
Definition np_draws {A : Type} (size : Z) (f : Q -> A) : SE rng (list A) :=
  if size <? 0 then raise ValueError
  else repeatM (Z.to_nat size) (r <~ raw ;; ret (f r)).

(** [q < 0]. *)
Definition Qneg_bool (q : Q) : bool := negb (Qle_bool 0 q).

(** [np.random.randint(low, high, size)], of the default type [int64]: an
    empty request returns at once; otherwise the bounds must fit [int64]
    ([high] is exclusive, so [high <= 2^63]) and [low < high] is required. *)
Definition np_randint (low high size : Z) : SE rng (list Z) :=
  if size =? 0 then ret []
  else if (low <? - 9223372036854775808) || (9223372036854775808 <? high)
       then raise ValueError
  else if high <=? low then raise ValueError
  else np_draws size (fun r => low + Qfloor r mod (high - low)).

(** [np.random.normal(loc, scale, size)]: [scale >= 0] is required. *)
Definition np_normal (loc scale : Q) (size : Z) : SE rng (list Q) :=
  if Qneg_bool scale then raise ValueError
  else np_draws size (fun r => loc + scale * r)%Q.

(** [np.random.exponential(scale, size)]: [scale >= 0] is required; the
    variate is non-negative. *)
Definition np_exponential (scale : Q) (size : Z) : SE rng (list Q) :=
  if Qneg_bool scale then raise ValueError
  else np_draws size (fun r => scale * Qabs r)%Q.

(** [np.random.poisson(lam, size)]: [lam >= 0] is required; the variate is
    a non-negative integer, zero when [lam] is zero. *)
Definition np_poisson (lam : Q) (size : Z) : SE rng (list Z) :=
  if Qneg_bool lam then raise ValueError
  else np_draws size (fun r => if Qeq_bool lam 0 then 0 else Z.abs (Qfloor r)).

(** [np.random.chisquare(df, size)]: [df > 0] is required; the variate is
    non-negative. *)
Definition np_chisquare (df : Z) (size : Z) : SE rng (list Q) :=
  if df <=? 0 then raise ValueError
  else np_draws size Qabs.

(** A binomial count out of [n >= 0] trials: within [[0, n]], zero when the
    probability is zero. *)
Definition binomial (n : Z) (p : Q) : SE rng Z :=
  r <~ raw ;; ret (if Qeq_bool p 0 then 0 else Qfloor r mod (n + 1)).

(** The sequential split behind [multinomial]: a binomial count for every
    category but the last, which takes what remains. *)
Fixpoint multinomial_split (n : Z) (pvals : list Q) : SE rng (list Z) :=
  match pvals with
  | [] => ret []
  | p :: rest =>
      match rest with
      | [] => ret [n]
      | _ => c <~ binomial n p ;;
             cs <~ multinomial_split (n - c) rest ;;
             ret (c :: cs)
      end
  end.

(** Python's [sum] over a list of numbers. *)
Definition Qsum (l : list Q) : Q := foldl Qplus 0%Q l.

(** A probability vector as numpy sees it: [None] stands for an entry that
    is not finite (the quotient by a zero sum). *)
Definition pval_ok (p : option Q) : bool :=
  match p with
  | Some q => Qle_bool 0 q && Qle_bool q 1
  | None => false
  end.

Definition pval_get (p : option Q) : Q := default 0%Q p.

(** [np.random.multinomial(n, pvals)]: every entry must lie in [[0, 1]], the
    entries before the last must not sum above [1 + 1e-12], and [n] must not
    be negative; an empty vector gives an empty array of counts. *)
Definition np_multinomial (n : Z) (pvals : list (option Q)) : SE rng (list Z) :=
  if negb (forallb pval_ok pvals) then raise ValueError
  else if negb (Qle_bool (Qsum (removelast (map pval_get pvals)))
                         (1 + 1 / 1000000000000)) then raise ValueError
  else if n <? 0 then raise ValueError
  else multinomial_split n (map pval_get pvals).

(** ** Array helpers *)

(** [np.clip(x, lo, hi)] is [minimum(maximum(x, lo), hi)]. *)
Definition clipQ (x lo hi : Q) : Q := Qmin (Qmax x lo) hi.
Definition clipZ (x lo hi : Z) : Z := Z.min (Z.max x lo) hi.

(** [astype(int)] on a finite double within [int64]: truncation toward
    zero.  (The generators cast what [np.clip] leaves, values between [0]
    and [N - 1].) *)
Definition astype_int (q : Q) : Z := Z.quot (Qnum q) (Zpos (Qden q)).

(** [counts[i]]; a short array raises [IndexError]. *)
Definition index {S A : Type} (l : list A) (i : nat) : SE S A :=
  match l !! i with
  | Some x => ret x
  | None => raise IndexError
  end.

(** ** [RandomGenerator] *)

Definition simple_random (N count : Z) : SE rng (list Z) :=
  repeatM (Z.to_nat count) (randint 0 (N - 1)).

Definition uniform_random (N count : Z) : SE rng (list Z) :=
  np_randint 0 N count.

Definition normal_random (N count : Z) (mean std : option Q) : SE rng (list Z) :=
  let mean := default (inject_Z N / 2)%Q mean in
  let std := default (inject_Z N / 6)%Q std in
  numbers <~ np_normal mean std count ;;
  let numbers := map (fun x => clipQ x 0 (inject_Z (N - 1))) numbers in
  ret (map astype_int numbers).

Definition exponential_random (N count : Z) (scale : option Q) : SE rng (list Z) :=
  let scale := default (inject_Z N / 4)%Q scale in
  numbers <~ np_exponential scale count ;;
  let numbers := map (fun x => clipQ x 0 (inject_Z (N - 1))) numbers in
  ret (map astype_int numbers).

Definition poisson_random (N count : Z) (lambda_param : option Q) : SE rng (list Z) :=
  let lambda_param := default (inject_Z N / 2)%Q lambda_param in
  numbers <~ np_poisson lambda_param count ;;
  let numbers := map (fun x => clipZ x 0 (N - 1)) numbers in
  ret numbers.

Definition chi_square_random (N count : Z) (df : option Z) : SE rng (list Z) :=
  let df := default (astype_int (inject_Z N / 2)) df in
  numbers <~ np_chisquare df count ;;
  let numbers := map (fun x => clipQ x 0 (inject_Z (N - 1))) numbers in
  ret (map astype_int numbers).

(** [x[i], x[j] = x[j], x[i]]. *)
Definition swap (x : list Z) (i j : nat) : list Z :=
  match x !! i, x !! j with
  | Some xi, Some xj => <[j := xi]> (<[i := xj]> x)
  | _, _ => x
  end.

(** [random.shuffle]: for [i] from [len(x) - 1] down to [1], swap [x[i]]
    with [x[j]], [j] drawn below [i + 1]. *)
Fixpoint shuffle_loop (i : nat) (x : list Z) : SE rng (list Z) :=
  match i with
  | O => ret x
  | Datatypes.S k =>
      j <~ randbelow (Z.of_nat i + 1) ;;
      shuffle_loop k (swap x i (Z.to_nat j))
  end.

Definition shuffle (x : list Z) : SE rng (list Z) :=
  shuffle_loop (length x - 1) x.

(** [[0.2, 0.2, 0.2, 0.2, 0.2]]. *)
Definition default_weights : list Q := [2 # 10; 2 # 10; 2 # 10; 2 # 10; 2 # 10]%Q.

(** [np.array(weights) / sum(weights)]. *)
Definition normalize (weights : list Q) : list (option Q) :=
  let s := Qsum weights in
  map (fun w => if Qeq_bool s 0 then None else Some (w / s)%Q) weights.

Definition mixed_distribution (N count : Z) (weights : option (list Q))
  : SE rng (list Z) :=
  let weights := default default_weights weights in
  let weights := normalize weights in
  counts <~ np_multinomial count weights ;;
  c0 <~ index counts 0 ;; n0 <~ uniform_random N c0 ;;
  c1 <~ index counts 1 ;; n1 <~ normal_random N c1 None None ;;
  c2 <~ index counts 2 ;; n2 <~ exponential_random N c2 None ;;
  c3 <~ index counts 3 ;; n3 <~ poisson_random N c3 None ;;
  c4 <~ index counts 4 ;; n4 <~ chi_square_random N c4 None ;;
  shuffle (n0 ++ n1 ++ n2 ++ n3 ++ n4).

(** The seven distribution variants and the dispatch of [main.py], which
    calls the selected generator as [dist_func(N, count)]. *)
Inductive distribution : Type :=
| SimpleModulo | Uniform | Normal | Exponential | Poisson | ChiSquare | Mixed.

Definition generate (d : distribution) (N count : Z) : SE rng (list Z) :=
  match d with
  | SimpleModulo => simple_random N count
  | Uniform => uniform_random N count
  | Normal => normal_random N count None None
  | Exponential => exponential_random N count None
  | Poisson => poisson_random N count None
  | ChiSquare => chi_square_random N count None
  | Mixed => mixed_distribution N count None
  end.

(** A tape for concrete runs. *)
Definition tape0 : nat -> Q := fun i => (Z.of_nat i * 7 # 3)%Q.
Definition g0 : rng := Rng tape0 0.

(** ** numpy [int64] arithmetic *)

(** The value an [int64] operation leaves for the exact result [z]. *)
Definition wrap64 (z : Z) : Z := (z + 2 ^ 63) mod 2 ^ 64 - 2 ^ 63.

(** ** Doubles as extended reals *)

Inductive float : Type :=
| Fin (x : R)
| PInf
| NInf
| NaN.

Definition of_Z (z : Z) : float := Fin (IZR z).

(** The infinity that carries the sign of [x], a non-zero real. *)
Definition inf_of_sign (x : R) : float := if Rlt_dec 0 x then PInf else NInf.

Definition fneg (a : float) : float :=
  match a with
  | Fin x => Fin (- x)
  | PInf => NInf
  | NInf => PInf
  | NaN => NaN
  end.

Definition fabs (a : float) : float :=
  match a with
  | Fin x => Fin (Rabs x)
  | PInf | NInf => PInf
  | NaN => NaN
  end.

Definition fadd (a b : float) : float :=
  match a, b with
  | NaN, _ | _, NaN => NaN
  | Fin x, Fin y => Fin (x + y)
  | PInf, NInf | NInf, PInf => NaN
  | PInf, _ | _, PInf => PInf
  | NInf, _ | _, NInf => NInf
  end.

Definition fsub (a b : float) : float := fadd a (fneg b).

Definition fmul (a b : float) : float :=
  match a, b with
  | NaN, _ | _, NaN => NaN
  | Fin x, Fin y => Fin (x * y)
  | Fin x, PInf | PInf, Fin x =>
      if Req_dec_T x 0 then NaN else inf_of_sign x
  | Fin x, NInf | NInf, Fin x =>
      if Req_dec_T x 0 then NaN else inf_of_sign (- x)
  | PInf, PInf | NInf, NInf => PInf
  | PInf, NInf | NInf, PInf => NInf
  end.

(** True division as numpy performs it: a zero divisor gives nan or an
    infinity (with a warning), never an exception. *)
Definition fdiv (a b : float) : float :=
  match a, b with
  | NaN, _ | _, NaN => NaN
  | Fin x, Fin y =>
      if Req_dec_T y 0
      then (if Req_dec_T x 0 then NaN else inf_of_sign x)
      else Fin (x / y)
  | Fin _, (PInf | NInf) => Fin 0
  | PInf, Fin y => if Rlt_dec y 0 then NInf else PInf
  | NInf, Fin y => if Rlt_dec y 0 then PInf else NInf
  | (PInf | NInf), (PInf | NInf) => NaN
  end.

Definition fsqrt (a : float) : float :=
  match a with
  | Fin x => if Rlt_dec x 0 then NaN else Fin (sqrt x)
  | PInf => PInf
  | NInf | NaN => NaN
  end.

Definition flog2 (a : float) : float :=
  match a with
  | Fin x =>
      if Rlt_dec x 0 then NaN
      else if Req_dec_T x 0 then NInf
      else Fin (ln x / ln 2)
  | PInf => PInf
  | NInf | NaN => NaN
  end.

(** [a > b]; false as soon as one side is nan. *)
Definition fgtb (a b : float) : bool :=
  match a, b with
  | NaN, _ | _, NaN => false
  | Fin x, Fin y => if Rlt_dec y x then true else false
  | PInf, (Fin _ | NInf) => true
  | Fin _, NInf => true
  | _, _ => false
  end.

(** The maximum of two values inside [np.max]: nan wins. *)
Definition fmax (a b : float) : float :=
  match a, b with
  | NaN, _ | _, NaN => NaN
  | _, _ => if fgtb b a then b else a
  end.

(** [np.max]: no identity on an empty array. *)
Definition np_max (l : list float) : result float :=
  match l with
  | [] => Raise ValueError
  | x :: xs => OK (foldl fmax x xs)
  end.

Definition np_sum (l : list float) : float := foldl fadd (Fin 0) l.

(** [np.mean]: nan on an empty array. *)
Definition np_mean (l : list float) : float :=
  fdiv (np_sum l) (of_Z (Z.of_nat (length l))).

Definition np_std (l : list float) : float :=
  let m := np_mean l in
  fsqrt (np_mean (map (fun x => fmul (fabs (fsub x m)) (fabs (fsub x m))) l)).

(** [np.bincount(x, minlength=m)]: negative entries and a negative
    [minlength] are rejected; the result has [max(m, max(x) + 1)] bins. *)
Definition np_bincount (x : list Z) (minlength : Z) : result (list Z) :=
  if existsb (fun v => v <? 0) x || (minlength <? 0) then Raise ValueError
  else OK (map (fun v => Z.of_nat (count_occ Z.eq_dec x v))
               (seqZ 0 (Z.max minlength (foldr (fun v m => Z.max (v + 1) m) 0 x)))).

(** [np.ones(n)]. *)
Definition np_ones (n : Z) : result (list float) :=
  if n <? 0 then Raise ValueError else OK (replicate (Z.to_nat n) (Fin 1)).

(** Entry [k] of [np.correlate(x, x, mode='full')[len(x)-1:]] on an
    [int64] array: the sum of [x[i+k] * x[i]]. *)
Definition correlate_at (x : list Z) (k : nat) : Z :=
  wrap64 (foldr Z.add 0 (zip_with Z.mul (drop k x) x)).

(** [np.correlate(x, x, mode='full')[len(x)-1:]]; empty input is
    rejected. *)
Definition np_autocorrelate (x : list Z) : result (list Z) :=
  match x with
  | [] => Raise ValueError
  | _ => OK (map (correlate_at x) (seq 0 (length x)))
  end.

(** ** [scipy.stats] *)

(** The three entry points the battery calls.  Each returns
    [(statistic, pvalue)] or raises. *)
Class ScipyStats : Type := {
  (** [stats.chisquare(f_obs, f_exp)] *)
  chisquare : list Z -> list float -> result (float * float);
  (** [stats.kstest(x, 'expon', args=(loc, scale))] *)
  kstest_expon : list Z -> float -> float -> result (float * float);
  (** [stats.norm.cdf] *)
  norm_cdf : float -> float
}.

(** ** [StatisticalTester] *)

Record StatisticalTester : Type := Tester { self_N : Z; self_count : Z }.

(** What a test can reach: the tester object and the array it is given. *)
Record heap : Type := Heap { self : StatisticalTester; numbers : list Z }.

(** Reads of [self.N], [self.count] and the array. *)
Definition get_N : SE heap Z := fun h => (OK (self_N (self h)), h).
Definition get_count : SE heap Z := fun h => (OK (self_count (self h)), h).
Definition get_numbers : SE heap (list Z) := fun h => (OK (numbers h), h).

Inductive test_kind : Type :=
| uniformity | independence | gap | runs | entropy.

(** The dictionaries the tests return; the verdict is [true] for the
    favourable conclusion. *)
Inductive TestResult : Type :=
| UniformityResult (chi2 p_value : float) (uniform : bool)
| IndependenceResult (max_acf : float) (lags : list nat) (independent : bool)
| GapResult (mean_gap std_gap ks_stat p_value : float) (exponential : bool)
| RunsResult (n_runs : Z) (expected_runs z p_value : float) (random : bool)
| EntropyResult (H max_entropy entropy_ratio : float) (high : bool).

Definition kind (r : TestResult) : test_kind :=
  match r with
  | UniformityResult _ _ _ => uniformity
  | IndependenceResult _ _ _ => independence
  | GapResult _ _ _ _ _ => gap
  | RunsResult _ _ _ _ _ => runs
  | EntropyResult _ _ _ _ => entropy
  end.

(** The loop of the gap test over [enumerate(numbers)], from index [i]. *)
Fixpoint gap_loop (i : nat) (nums : list Z) (gaps : list Z) (last_pos : gmap Z nat)
  : list Z * gmap Z nat :=
  match nums with
  | [] => (gaps, last_pos)
  | num :: rest =>
      let gaps :=
        match last_pos !! num with
        | Some j => gaps ++ [Z.of_nat i - Z.of_nat j]
        | None => gaps
        end in
      gap_loop (Datatypes.S i) rest gaps (<[num := i]> last_pos)
  end.

Definition compute_gaps (nums : list Z) : list Z := fst (gap_loop 0 nums [] ∅).

(** The loop of the runs test: [runs] starts at 1 and grows at every [i] in
    [range(1, len(numbers))] with [numbers[i] != numbers[i-1]]. *)
Definition count_runs (nums : list Z) : Z :=
  foldl (fun n_runs i =>
           match nums !! i, nums !! (i - 1)%nat with
           | Some a, Some b => if bool_decide (a ≠ b) then n_runs + 1 else n_runs
           | _, _ => n_runs
           end)
        1 (seq 1 (length nums - 1)).

(** [np.sum(numbers == first)], an [int64]. *)
Definition count_eq (nums : list Z) (first : Z) : Z :=
  Z.of_nat (count_occ Z.eq_dec nums first).

Definition expected_runs_of (n1 n2 : Z) : float :=
  fadd (Fin 1) (fdiv (of_Z (wrap64 (wrap64 (2 * n1) * n2)))
                     (of_Z (wrap64 (n1 + n2)))).

(** The numerator and the denominator under the square root of
    [std_runs], both computed in [int64]. *)
Definition runs_var_num (n1 n2 : Z) : Z :=
  wrap64 (wrap64 (wrap64 (2 * n1) * n2)
          * wrap64 (wrap64 (wrap64 (wrap64 (2 * n1) * n2) - n1) - n2)).

Definition runs_var_den (n1 n2 : Z) : Z :=
  wrap64 (wrap64 (wrap64 (n1 + n2) ^ 2) * wrap64 (wrap64 (n1 + n2) - 1)).

Definition runs_variance (n1 n2 : Z) : float :=
  fdiv (of_Z (runs_var_num n1 n2)) (of_Z (runs_var_den n1 n2)).

Definition std_runs_of (n1 n2 : Z) : float := fsqrt (runs_variance n1 n2).

(** The significance threshold 0.05. *)
Definition alpha : float := Fin (5 / 100).

Section Battery.
Context {scipy : ScipyStats}.

Definition test_uniformity : SE heap TestResult :=
  nums <~ get_numbers ;;
  N <~ get_N ;;
  observed <~ lift (np_bincount nums N) ;;
  ones <~ lift (np_ones N) ;;
  count <~ get_count ;;
  let expected := map (fun o => fdiv (fmul o (of_Z count)) (of_Z N)) ones in
  r <~ lift (chisquare observed expected) ;;
  ret (UniformityResult r.1 r.2 (fgtb r.2 alpha)).

Definition test_independence : SE heap TestResult :=
  nums <~ get_numbers ;;
  autocorr <~ lift (np_autocorrelate nums) ;;
  a0 <~ index autocorr 0 ;;
  let autocorr := map (fun c => fdiv (of_Z c) (of_Z a0)) autocorr in
  let acf := take 10 (drop 1 autocorr) in
  let ci := fdiv (Fin (196 / 100)) (fsqrt (of_Z (Z.of_nat (length nums)))) in
  let significant := existsb (fun v => fgtb (fabs v) ci) acf in
  max_acf <~ lift (np_max (map fabs acf)) ;;
  let lags :=
    map fst (filter (fun iv => fgtb (fabs iv.2) ci = true)
                    (zip (seq 1 (length acf)) acf)) in
  ret (IndependenceResult max_acf lags (negb significant)).

Definition test_gap_distribution : SE heap TestResult :=
  nums <~ get_numbers ;;
  let gaps := compute_gaps nums in
  let mean_gap := np_mean (map of_Z gaps) in
  let std_gap := np_std (map of_Z gaps) in
  let lambda_est := fdiv (Fin 1) mean_gap in
  r <~ lift (kstest_expon gaps (Fin 0) (fdiv (Fin 1) lambda_est)) ;;
  ret (GapResult mean_gap std_gap r.1 r.2 (fgtb r.2 alpha)).

Definition test_runs : SE heap TestResult :=
  nums <~ get_numbers ;;
  let n_runs := count_runs nums in
  first <~ index nums 0 ;;
  let n1 := count_eq nums first in
  let n2 := wrap64 (Z.of_nat (length nums) - n1) in
  let expected_runs := expected_runs_of n1 n2 in
  let std_runs := std_runs_of n1 n2 in
  let z := fdiv (fsub (of_Z n_runs) expected_runs) std_runs in
  let p_value := fmul (Fin 2) (fsub (Fin 1) (norm_cdf (fabs z))) in
  ret (RunsResult n_runs expected_runs z p_value (fgtb p_value alpha)).

(** The smoothing constant [1e-10]. *)
Definition epsilon : float := Fin (1 / 10000000000).

Definition entropy_of (probs : list float) : float :=
  fneg (np_sum (map (fun p => fmul p (flog2 (fadd p epsilon))) probs)).

Definition test_entropy : SE heap TestResult :=
  nums <~ get_numbers ;;
  N <~ get_N ;;
  counts <~ lift (np_bincount nums N) ;;
  let probs := map (fun c => fdiv (of_Z c) (of_Z (Z.of_nat (length nums)))) counts in
  let H := entropy_of probs in
  let max_entropy := flog2 (of_Z N) in
  let entropy_ratio := fdiv H max_entropy in
  ret (EntropyResult H max_entropy entropy_ratio
                     (fgtb entropy_ratio (Fin (9 / 10)))).

(** [for test in tests: results.append(test(numbers))]. *)
Fixpoint run_tests (tests : list (SE heap TestResult)) (results : list TestResult)
  : SE heap (list TestResult) :=
  match tests with
  | [] => ret results
  | test :: rest => r <~ test ;; run_tests rest (results ++ [r])
  end.

Definition run_all_tests : SE heap (list TestResult) :=
  run_tests [test_uniformity; test_independence; test_gap_distribution;
             test_runs; test_entropy] [].
End Battery.

(** ** A model of [scipy.stats] for concrete runs *)

(** Pearson's statistic as [stats.chisquare] documents it: the sum of
    [(f_obs - f_exp)^2 / f_exp]. *)
Definition chisquare_statistic (f_obs : list Z) (f_exp : list float) : float :=
  np_sum (zip_with (fun o e => fdiv (fmul (fsub (of_Z o) e) (fsub (of_Z o) e)) e)
                   f_obs f_exp).

(** The library over given special functions: the chi-square survival
    function [chi2_sf x df], the Kolmogorov-Smirnov test of a non-empty
    sample against the exponential law, and the normal distribution
    function.  The p-value of [chisquare] has [k - 1] degrees of freedom
    for [k] bins; the check of recent versions that observed and expected
    frequencies have the same sum is left out.  On an empty sample
    [kstest] returns nan for the statistic and the p-value, as scipy 1.17
    does. *)
Definition scipy_model (chi2_sf : float -> Z -> float)
           (ks_expon : list Z -> float -> float -> float * float)
           (Phi : float -> float) : ScipyStats :=
  {| chisquare f_obs f_exp :=
       OK (chisquare_statistic f_obs f_exp,
           chi2_sf (chisquare_statistic f_obs f_exp) (Z.of_nat (length f_obs) - 1));
     kstest_expon x loc scale :=
       match x with
       | [] => OK (NaN, NaN)
       | _ => OK (ks_expon x loc scale)
       end;
     norm_cdf := Phi |}.

(** The model with every special function left undefined (nan). *)
Definition scipy_nan : ScipyStats :=
  scipy_model (fun _ _ => NaN) (fun _ _ _ => (NaN, NaN)) (fun _ => NaN).

(** ** Reference notions for the runs test *)

(** The maximal blocks of consecutive equal values, in order. *)
Fixpoint blocks (l : list Z) : list (list Z) :=
  match l with
  | [] => []
  | x :: rest =>
      match blocks rest with
      | (y :: b) :: bs =>
          if Z.eq_dec x y then (x :: y :: b) :: bs else [x] :: (y :: b) :: bs
      | _ => [[x]]
      end
  end.

(** The number of positions whose value differs from the one before. *)
Fixpoint boundaries (l : list Z) : Z :=
  match l with
  | a :: rest =>
      match rest with
      | b :: _ => (if Z.eq_dec a b then 0 else 1) + boundaries rest
      | [] => 0
      end
  | [] => 0
  end.

(** The Wald-Wolfowitz moments of the number of runs for [n1] and [n2]
    elements of the two kinds, over the reals. *)
Definition wald_wolfowitz_mean (n1 n2 : Z) : R :=
  (1 + 2 * IZR n1 * IZR n2 / (IZR n1 + IZR n2))%R.

Definition wald_wolfowitz_variance (n1 n2 : Z) : R :=
  (2 * IZR n1 * IZR n2 * (2 * IZR n1 * IZR n2 - IZR n1 - IZR n2)
   / ((IZR n1 + IZR n2) ^ 2 * (IZR n1 + IZR n2 - 1)))%R.

(** A balanced two-valued sequence of length 100000: 50000 zeros, then
    50000 ones. *)
Definition long_balanced : list Z :=
  replicate (Z.to_nat 50000) 0 ++ replicate (Z.to_nat 50000) 1.

(** ** The independence test, entry by entry *)

(** The autocorrelation coefficient at lag [k], normalised by lag 0, as
    the arrays of the test hold it; defined at every lag (beyond the
    sequence the sum is empty). *)
Definition acf_at (nums : list Z) (k : nat) : float :=
  fdiv (of_Z (correlate_at nums k)) (of_Z (correlate_at nums 0)).

(** The confidence band [1.96 / sqrt(n)]. *)
Definition ci_of (n : nat) : float :=
  fdiv (Fin (196 / 100)) (fsqrt (of_Z (Z.of_nat n))).

(** Lag [k] is significant: its coefficient exceeds the band in absolute
    value (the comparison of the test, over exact reals). *)
Definition exceeds (nums : list Z) (k : nat) : bool :=
  fgtb (fabs (acf_at nums k)) (ci_of (length nums)).

(** ** Reference notions for the independence test *)

(** The lag-[k] autocorrelation sum of a sequence read as a numeric time
    series: the sum of [x_i * x_(i+k)] over the positions [i] that have a
    partner [k] places on, taken over the integers. *)
Definition lag_product_sum (x : list Z) (k : nat) : Z :=
  foldr Z.add 0 (map (fun i => nth i x 0 * nth (i + k) x 0) (seq 0 (length x - k))).

(** The autocorrelation coefficient at lag [k], normalised by lag 0. *)
Definition autocorrelation (x : list Z) (k : nat) : R :=
  (IZR (lag_product_sum x k) / IZR (lag_product_sum x 0))%R.


#[global] Instance Rlt_decision (a b : R) : Decision (a < b)%R := Rlt_dec a b.

(** ** The comparison of the independence test in binary64 *)

Module Binary64.
Import PrimFloat.

(** An [int64] of absolute value below [2^63] converted to a double:
    exact up to [2^53], rounded to nearest beyond. *)
Definition of_int64 (z : Z) : float :=
  if z <? 0 then opp (of_uint63 (Uint63.of_Z (- z)))
  else of_uint63 (Uint63.of_Z z).

(** [abs(v) > ci] as the test evaluates it in doubles, for the entry
    [v = c / c0] of [autocorr / autocorr[0]] and
    [ci = 1.96 / np.sqrt(n)]. *)
Definition significant (c c0 : Z) (n : nat) : bool :=
  let v := div (of_int64 c) (of_int64 c0) in
  let ci := div 1.96%float (sqrt (of_int64 (Z.of_nat n))) in
  ltb ci (abs v).

End Binary64.


(** ** Vocabulary of the properties *)

(** [m] returns from every state, with a value satisfying [P]. *)
Definition returns {S A : Type} (m : SE S A) (P : A -> Prop) : Prop :=
  forall s, exists a s', m s = (OK a, s') /\ P a.

(** [count] integers, each in [[0, N-1]]. *)
Definition in_range (N count : Z) (l : list Z) : Prop :=
  Z.of_nat (length l) = count /\ Forall (fun x => 0 <= x <= N - 1) l.

(** The variants that draw chi-square samples. *)
Definition needs_chisquare (d : distribution) : bool :=
  match d with ChiSquare | Mixed => true | _ => false end.

(** One period, [[0, 1, ..., N-1]], and [k] periods in a row. *)
Definition period (N : nat) : list Z := map Z.of_nat (seq 0 N).
Definition periodic (N k : nat) : list Z := concat (replicate k (period N)).

(** [m] leaves the state as it found it, whether it returns or raises. *)
Definition readonly {S A : Type} (m : SE S A) : Prop := forall s, snd (m s) = s.

(** The sum of a list of reals. *)
Definition Rsum (l : list R) : R := foldr Rplus 0%R l.

(** [m] is a maximum of [l]: an element that no element exceeds. *)
Definition is_max (m : float) (l : list float) : Prop :=
  In m l /\ forall y, In y l -> fgtb y m = false.

(** ** [main.py]: the tables written beside the test results *)

(** A cell handed to [csv.writer]. *)
Inductive cell : Type :=
| IntCell (z : Z)
| FloatCell (x : float)
| StrCell (s : string).

(** The files written so far: the rows of the table at each path. *)
Abbreviation files := (gmap string (list (list cell))).

(** [open(path, 'w')]: the file is created, or emptied when it exists (the
    output directory is taken to exist, as [main] has created it). *)
Definition open_w (path : string) : SE files unit :=
  fun fs => (OK tt, <[path := []]> fs).

(** [writer.writerow(row)] on the file open at [path]. *)
Definition writerow (path : string) (row : list cell) : SE files unit :=
  fun fs => (OK tt, <[path := default [] (fs !! path) ++ [row]]> fs).

(** [for x in l: body(x)]. *)
Fixpoint for_each {S A : Type} (l : list A) (body : A -> SE S unit) : SE S unit :=
  match l with
  | [] => ret tt
  | x :: rest => u <~ body x ;; for_each rest body
  end.

Definition save_frequency_table (numbers : list Z) (N : Z) (save_path : string)
  : SE files unit :=
  counts <~ lift (np_bincount numbers N) ;;
  let total := Z.of_nat (length numbers) in
  u <~ open_w save_path ;;
  u <~ writerow save_path [StrCell "Value"; StrCell "Count"; StrCell "Frequency"] ;;
  for_each (seqZ 0 N) (fun i =>
    c <~ index counts (Z.to_nat i) ;;
    c' <~ index counts (Z.to_nat i) ;;
    writerow save_path [IntCell i; IntCell c; FloatCell (fdiv (of_Z c') (of_Z total))]).

(** How [save_gap_table] ends: it returns, or a subscript of [gaps_dict]
    raises [KeyError(key)]. *)
Inductive table_outcome : Type :=
| Written
| KeyError (key : Z).

(** The loop of [save_gap_table] over [enumerate(numbers)], from index
    [idx]; [inl key] stands for [KeyError(key)]. *)
Fixpoint gap_table_loop (idx : nat) (numbers : list Z) (last_pos : gmap Z nat)
         (gaps_dict : gmap Z (list Z)) : Z + gmap Z (list Z) :=
  match numbers with
  | [] => inr gaps_dict
  | num :: rest =>
      match last_pos !! num with
      | Some j =>
          let gap := Z.of_nat idx - Z.of_nat j in
          match gaps_dict !! num with
          | Some l =>
              gap_table_loop (Datatypes.S idx) rest (<[num := idx]> last_pos)
                             (<[num := l ++ [gap]]> gaps_dict)
          | None => inl num
          end
      | None =>
          gap_table_loop (Datatypes.S idx) rest (<[num := idx]> last_pos) gaps_dict
      end
  end.

(** The second loop of [save_gap_table]: one row per value of
    [range(N)], the gaps joined by commas. *)
Fixpoint gap_rows (values : list Z) (gaps_dict : gmap Z (list Z))
         (save_path : string) (fs : files) : table_outcome * files :=
  match values with
  | [] => (Written, fs)
  | i :: rest =>
      match gaps_dict !! i with
      | Some gaps =>
          let gap_str := String.concat "," (map pretty gaps) in
          gap_rows rest gaps_dict save_path
                   (snd (writerow save_path [IntCell i; StrCell gap_str] fs))
      | None => (KeyError i, fs)
      end
  end.

Definition save_gap_table (numbers : list Z) (N : Z) (save_path : string)
           (fs : files) : table_outcome * files :=
  let last_pos : gmap Z nat := ∅ in
  let gaps_dict : gmap Z (list Z) :=
    list_to_map (map (fun i => (i, [])) (seqZ 0 N)) in
  match gap_table_loop 0 numbers last_pos gaps_dict with
  | inl key => (KeyError key, fs)
  | inr gaps_dict =>
      let fs := snd (open_w save_path fs) in
      let fs := snd (writerow save_path [StrCell "Value"; StrCell "Gaps"] fs) in
      gap_rows (seqZ 0 N) gaps_dict save_path fs
  end.

(** ** [visualization.py] *)

Record DistributionVisualizer : Type := Visualizer { vis_N : Z; vis_count : Z }.

(** The dictionary of the seven samples, in the order of its keys. *)
Definition generate_all_distributions (self : DistributionVisualizer)
  : SE rng (list (distribution * list Z)) :=
  simple <~ simple_random (vis_N self) (vis_count self) ;;
  uniform <~ uniform_random (vis_N self) (vis_count self) ;;
  normal <~ normal_random (vis_N self) (vis_count self) None None ;;
  exponential <~ exponential_random (vis_N self) (vis_count self) None ;;
  poisson <~ poisson_random (vis_N self) (vis_count self) None ;;
  chi_square <~ chi_square_random (vis_N self) (vis_count self) None ;;
  mixed <~ mixed_distribution (vis_N self) (vis_count self) None ;;
  ret [(SimpleModulo, simple); (Uniform, uniform); (Normal, normal);
       (Exponential, exponential); (Poisson, poisson); (ChiSquare, chi_square);
       (Mixed, mixed)].

(** ** [generate_all_distributions_bin.py] *)

(** [FILE_SIZE = 128 * 1024] and [N = 256]. *)
Definition FILE_SIZE : Z := 128 * 1024.
Definition N_bin : Z := 256.

(** [astype(np.uint8)] on an integer array: reduction modulo 256. *)
Definition astype_uint8 (x : Z) : Z := x mod 256.

(** The bytes written for one entry of the dictionary of generators. *)
Definition bin_bytes (d : distribution) : SE rng (list Z) :=
  numbers <~ generate d N_bin FILE_SIZE ;;
  let numbers := map astype_uint8 (map (fun x => clipZ x 0 255) numbers) in
  ret numbers.

(** ** Further vocabulary *)

(** An integer a double holds exactly: [|N| <= 2^53].  (Where a bound
    [N - 1] is converted as well, it is asked of [N - 1] too: [-2^53 - 1]
    is not a double.) *)
Definition exact_double (N : Z) : Prop := Z.abs N <= 9007199254740992.

(** What the clamp leaves of [count] samples: values in [[0, N-1]] for a
    positive [N], and [N - 1] itself otherwise. *)
Definition clamped (N count : Z) (l : list Z) : Prop :=
  Z.of_nat (length l) = count /\
  (0 < N -> Forall (fun x => 0 <= x <= N - 1) l) /\
  (N <= 0 -> Forall (fun x => x = N - 1) l).

(** [m] raises [e] from every state. *)
Definition raises {S A : Type} (m : SE S A) (e : exn) : Prop :=
  forall s, fst (m s) = Raise e.

(** The number of distinct values of a sequence. *)
Definition distinct (nums : list Z) : nat := size (list_to_set nums : gset Z).

(** The sum of a list of integers. *)
Definition Zsum (l : list Z) : Z := foldr Z.add 0 l.

(** The number of bins [np.bincount] needs for the values themselves. *)
Definition bins_needed (x : list Z) : Z := foldr (fun v m => Z.max (v + 1) m) 0 x.

(** The gaps of one value [v]: the distances between its consecutive
    occurrences in [numbers], read from index [idx], the value having been
    seen last at [prev]. *)
Fixpoint gaps_from (prev : option nat) (idx : nat) (v : Z) (numbers : list Z)
  : list Z :=
  match numbers with
  | [] => []
  | x :: rest =>
      if Z.eq_dec x v
      then match prev with
           | Some j => [Z.of_nat idx - Z.of_nat j]
           | None => []
           end ++ gaps_from (Some idx) (Datatypes.S idx) v rest
      else gaps_from prev (Datatypes.S idx) v rest
  end.

Definition value_gaps (v : Z) (numbers : list Z) : list Z :=
  gaps_from None 0 v numbers.

(** The rows of the two tables. *)
Definition frequency_rows (numbers : list Z) (N : Z) : list (list cell) :=
  [StrCell "Value"; StrCell "Count"; StrCell "Frequency"]
  :: map (fun i => [IntCell i;
                    IntCell (Z.of_nat (count_occ Z.eq_dec numbers i));
                    FloatCell (fdiv (of_Z (Z.of_nat (count_occ Z.eq_dec numbers i)))
                                    (of_Z (Z.of_nat (length numbers))))])
         (seqZ 0 N).

Definition gap_table_rows (numbers : list Z) (N : Z) : list (list cell) :=
  [StrCell "Value"; StrCell "Gaps"]
  :: map (fun i => [IntCell i;
                    StrCell (String.concat "," (map pretty (value_gaps i numbers)))])
         (seqZ 0 N).

(** * Properties *)

(** ** The monad *)

Lemma returns_ret {S A : Type} (a : A) (P : A -> Prop) :
  P a -> returns (S := S) (ret a) P.
Proof. intros Ha s. exists a, s. auto. Qed.

Lemma returns_bind {S A B : Type} (m : SE S A) (f : A -> SE S B)
      (P : A -> Prop) (Q : B -> Prop) :
  returns m P -> (forall a, P a -> returns (f a) Q) -> returns (x <~ m ;; f x) Q.
Proof.
  intros Hm Hf s. destruct (Hm s) as (a & s1 & E & Pa).
  destruct (Hf a Pa s1) as (b & s2 & E2 & Qb).
  exists b, s2. unfold bind. rewrite E. auto.
Qed.

Lemma returns_weaken {S A : Type} (m : SE S A) (P Q : A -> Prop) :
  returns m P -> (forall a, P a -> Q a) -> returns m Q.
Proof.
  intros Hm HPQ s. destruct (Hm s) as (a & s1 & E & Pa). eauto.
Qed.

Lemma returns_repeatM {S A : Type} (m : SE S A) (P : A -> Prop) (n : nat) :
  returns m P -> returns (repeatM n m) (fun l => length l = n /\ Forall P l).
Proof.
  intros Hm. induction n as [|n IH]; simpl.
  - apply returns_ret. split; [reflexivity | constructor].
  - eapply returns_bind; [exact Hm|]. intros x Px.
    eapply returns_bind; [exact IH|]. intros xs [Hlen Hall].
    apply returns_ret. simpl. split; [congruence | constructor; assumption].
Qed.

Lemma returns_raw (P : Q -> Prop) : (forall q, P q) -> returns raw P.
Proof. intros HP g. unfold raw. eexists _, _. split; [reflexivity | apply HP]. Qed.

(** ** Range of the primitives *)

Lemma randbelow_range (n : Z) :
  0 < n -> returns (randbelow n) (fun x => 0 <= x < n).
Proof.
  intros Hn. unfold randbelow.
  eapply returns_bind; [apply (returns_raw (fun _ => True)); auto|].
  intros r _. apply returns_ret. apply Z.mod_pos_bound. exact Hn.
Qed.

Lemma randint_range (a b : Z) :
  a <= b -> returns (randint a b) (fun x => a <= x <= b).
Proof.
  intros Hab. unfold randint.
  destruct (Z.ltb_spec b a) as [H|H]; [lia|].
  eapply returns_bind; [apply (randbelow_range (b - a + 1)); lia|].
  intros r Hr. cbv beta in Hr. apply returns_ret. lia.
Qed.

Lemma np_draws_spec {A : Type} (size : Z) (f : Q -> A) (P : A -> Prop) :
  0 <= size -> (forall q, P (f q)) ->
  returns (np_draws size f)
          (fun l => Z.of_nat (length l) = size /\ Forall P l).
Proof.
  intros Hs HP. unfold np_draws.
  destruct (Z.ltb_spec size 0) as [H|H]; [lia|].
  eapply returns_weaken.
  - apply (returns_repeatM _ P).
    eapply returns_bind; [apply (returns_raw (fun _ => True)); auto|].
    intros r _. apply returns_ret. apply HP.
  - intros l [Hl Hall]. split; [lia | assumption].
Qed.

Lemma astype_int_range (q : Q) (m : Z) :
  (0 <= q)%Q -> (q <= inject_Z m)%Q -> 0 <= astype_int q <= m.
Proof.
  intros H0 Hm. unfold astype_int.
  destruct q as [n d]. unfold Qle in *. simpl in *.
  assert (Hn : 0 <= n) by lia.
  rewrite Z.quot_div_nonneg by lia.
  split.
  - apply Z.div_pos; lia.
  - apply Z.div_le_upper_bound; lia.
Qed.

Lemma clipQ_range (x : Q) (m : Z) :
  0 <= m -> (0 <= clipQ x 0 (inject_Z m))%Q /\ (clipQ x 0 (inject_Z m) <= inject_Z m)%Q.
Proof.
  intros Hm. unfold clipQ. split.
  - apply Q.min_glb.
    + apply Q.le_max_r.
    + unfold Qle. simpl. lia.
  - apply Q.le_min_r.
Qed.

Lemma clip_astype_range (x : Q) (N : Z) :
  0 < N -> 0 <= astype_int (clipQ x 0 (inject_Z (N - 1))) <= N - 1.
Proof.
  intros HN. destruct (clipQ_range x (N - 1)) as [H0 H1]; [lia|].
  apply astype_int_range; assumption.
Qed.

Lemma clipZ_range (x N : Z) : 0 < N -> 0 <= clipZ x 0 (N - 1) <= N - 1.
Proof. intros HN. unfold clipZ. lia. Qed.

Lemma Qneg_bool_scale (N : Z) (k : positive) :
  0 <= N -> Qneg_bool (inject_Z N / (Zpos k # 1))%Q = false.
Proof.
  intros HN. unfold Qneg_bool.
  assert (H : Qle_bool 0 (inject_Z N / (Z.pos k # 1)) = true).
  { apply Qle_bool_iff. unfold Qle, Qdiv, Qmult, Qinv, inject_Z. simpl. lia. }
  rewrite H. reflexivity.
Qed.

(** ** The generators on a valid request *)

Lemma simple_random_in_range (N count : Z) :
  0 < N -> 0 <= count -> returns (simple_random N count) (in_range N count).
Proof.
  intros HN Hc. unfold simple_random.
  eapply returns_weaken.
  - apply (returns_repeatM _ (fun x => 0 <= x <= N - 1)).
    apply randint_range. lia.
  - intros l [Hl Hall]. split; [lia | exact Hall].
Qed.

Lemma uniform_random_in_range (N count : Z) :
  0 < N -> N <= 9223372036854775808 -> 0 <= count ->
  returns (uniform_random N count) (in_range N count).
Proof.
  intros HN Hmax Hc. unfold uniform_random, np_randint.
  destruct (Z.eqb_spec count 0) as [-> | Hne].
  - apply returns_ret. split; [reflexivity | constructor].
  - destruct (Z.ltb_spec 9223372036854775808 N) as [H|_]; [lia|]. cbn [orb Z.ltb Z.compare Z.opp].
    destruct (Z.leb_spec N 0) as [H|H]; [lia|].
    apply np_draws_spec; [exact Hc|].
    intros q. pose proof (Z.mod_pos_bound (Qfloor q) (N - 0)). lia.
Qed.

Lemma map_in_range {A : Type} (f : A -> Z) (N count : Z) (l : list A) :
  Z.of_nat (length l) = count -> (forall a, 0 <= f a <= N - 1) ->
  in_range N count (map f l).
Proof.
  intros Hl Hf. split.
  - rewrite length_map. exact Hl.
  - apply Forall_forall. intros x Hx.
    apply list_elem_of_In, in_map_iff in Hx. destruct Hx as (a & <- & _). apply Hf.
Qed.

Lemma normal_random_in_range (N count : Z) :
  0 < N -> 0 <= count ->
  returns (normal_random N count None None) (in_range N count).
Proof.
  intros HN Hc. unfold normal_random, np_normal. cbn [default].
  rewrite (Qneg_bool_scale N 6) by lia.
  eapply returns_bind.
  - apply (np_draws_spec count _ (fun _ => True)); auto.
  - intros l [Hl _]. apply returns_ret. rewrite map_map.
    apply map_in_range; [exact Hl|]. intros a. apply clip_astype_range. exact HN.
Qed.

Lemma exponential_random_in_range (N count : Z) :
  0 < N -> 0 <= count ->
  returns (exponential_random N count None) (in_range N count).
Proof.
  intros HN Hc. unfold exponential_random, np_exponential. cbn [default].
  rewrite (Qneg_bool_scale N 4) by lia.
  eapply returns_bind.
  - apply (np_draws_spec count _ (fun _ => True)); auto.
  - intros l [Hl _]. apply returns_ret. rewrite map_map.
    apply map_in_range; [exact Hl|]. intros a. apply clip_astype_range. exact HN.
Qed.

Lemma poisson_random_in_range (N count : Z) :
  0 < N -> 0 <= count ->
  returns (poisson_random N count None) (in_range N count).
Proof.
  intros HN Hc. unfold poisson_random, np_poisson. cbn [default].
  rewrite (Qneg_bool_scale N 2) by lia.
  eapply returns_bind.
  - apply (np_draws_spec count _ (fun _ => True)); auto.
  - intros l [Hl _]. apply returns_ret.
    apply map_in_range; [exact Hl|]. intros a. apply clipZ_range. exact HN.
Qed.

(** The default degrees of freedom, [int(N / 2)]. *)
Lemma default_df (N : Z) : astype_int (inject_Z N / 2)%Q = N ÷ 2.
Proof.
  unfold astype_int, Qdiv, Qmult, Qinv, inject_Z. simpl.
  rewrite Z.mul_1_r. reflexivity.
Qed.

Lemma chi_square_random_in_range (N count : Z) :
  2 <= N -> 0 <= count ->
  returns (chi_square_random N count None) (in_range N count).
Proof.
  intros HN Hc. unfold chi_square_random, np_chisquare. cbn [default].
  rewrite default_df.
  assert (Hdf : 1 <= N ÷ 2).
  { rewrite Z.quot_div_nonneg by lia. apply Z.div_le_lower_bound; lia. }
  destruct (Z.leb_spec (N ÷ 2) 0) as [H|H]; [lia|].
  eapply returns_bind.
  - apply (np_draws_spec count _ (fun _ => True)); auto.
  - intros l [Hl _]. apply returns_ret. rewrite map_map.
    apply map_in_range; [exact Hl|]. intros a. apply clip_astype_range. lia.
Qed.

(** With [N = 1] the default degrees of freedom are [0], which
    [np.random.chisquare] rejects whatever the requested size. *)
Lemma chi_square_random_N1 (count : Z) (g : rng) :
  chi_square_random 1 count None g = (Raise ValueError, g).
Proof. reflexivity. Qed.

(** ** The mixed distribution *)

Lemma binomial_range (n : Z) (p : Q) :
  0 <= n -> returns (binomial n p) (fun c => 0 <= c <= n).
Proof.
  intros Hn. unfold binomial.
  eapply returns_bind; [apply (returns_raw (fun _ => True)); auto|].
  intros r _. apply returns_ret.
  destruct (Qeq_bool p 0); [lia|].
  pose proof (Z.mod_pos_bound (Qfloor r) (n + 1)). lia.
Qed.

(** The split has one count per category, none negative, and the counts
    add up to the number of trials. *)
Lemma multinomial_split_spec (pvals : list Q) :
  pvals <> [] -> forall n, 0 <= n ->
  returns (multinomial_split n pvals)
          (fun cs => length cs = length pvals /\ Forall (fun c => 0 <= c) cs
                     /\ foldr Z.add 0 cs = n).
Proof.
  induction pvals as [|p rest IH]; [congruence|].
  intros _ n Hn. destruct rest as [|q rest'].
  - simpl. apply returns_ret. repeat split; [repeat constructor; assumption | simpl; lia].
  - change (multinomial_split n (p :: q :: rest'))
      with (c <~ binomial n p ;; cs <~ multinomial_split (n - c) (q :: rest') ;;
            ret (c :: cs)).
    eapply returns_bind; [apply binomial_range; exact Hn|].
    intros c Hc. cbv beta in Hc.
    eapply returns_bind; [apply IH; [congruence | lia]|].
    intros cs (Hlen & Hpos & Hsum). apply returns_ret.
    repeat split.
    + simpl in *. congruence.
    + constructor; [lia | exact Hpos].
    + simpl. lia.
Qed.

Lemma np_multinomial_default (count : Z) :
  np_multinomial count (normalize default_weights)
  = if count <? 0 then raise ValueError
    else multinomial_split count (map pval_get (normalize default_weights)).
Proof.
  unfold np_multinomial.
  assert (H1 : forallb pval_ok (normalize default_weights) = true) by reflexivity.
  assert (H2 : Qle_bool (Qsum (removelast (map pval_get (normalize default_weights))))
                        (1 + 1 / 1000000000000) = true) by reflexivity.
  rewrite H1, H2. reflexivity.
Qed.

Lemma swap_length (x : list Z) (i j : nat) : length (swap x i j) = length x.
Proof.
  unfold swap. destruct (x !! i), (x !! j); try reflexivity.
  rewrite !length_insert. reflexivity.
Qed.

Lemma swap_Forall (P : Z -> Prop) (x : list Z) (i j : nat) :
  Forall P x -> Forall P (swap x i j).
Proof.
  intros H. unfold swap.
  destruct (x !! i) as [xi|] eqn:Ei; [|exact H].
  destruct (x !! j) as [xj|] eqn:Ej; [|exact H].
  apply Forall_insert; [apply Forall_insert|].
  - exact H.
  - eapply Forall_lookup_1; eauto.
  - eapply Forall_lookup_1; eauto.
Qed.

Lemma shuffle_loop_spec (P : Z -> Prop) (i : nat) :
  forall x, Forall P x ->
  returns (shuffle_loop i x) (fun y => length y = length x /\ Forall P y).
Proof.
  induction i as [|k IH]; intros x Hx.
  - simpl. apply returns_ret. auto.
  - change (shuffle_loop (Datatypes.S k) x)
      with (j <~ randbelow (Z.of_nat (Datatypes.S k) + 1) ;;
            shuffle_loop k (swap x (Datatypes.S k) (Z.to_nat j))).
    eapply returns_bind; [apply randbelow_range; lia|].
    intros j _.
    eapply returns_weaken; [apply IH, swap_Forall, Hx|].
    intros y [Hl Hy]. rewrite swap_length in Hl. auto.
Qed.

Lemma shuffle_spec (P : Z -> Prop) (x : list Z) :
  Forall P x ->
  returns (shuffle x) (fun y => length y = length x /\ Forall P y).
Proof. apply shuffle_loop_spec. Qed.

Lemma index_returns {S A : Type} (l : list A) (i : nat) (x : A) :
  l !! i = Some x -> returns (S := S) (index l i) (fun y => y = x).
Proof. intros H. unfold index. rewrite H. apply returns_ret. reflexivity. Qed.

(** Five counts, as the default weights produce. *)
Lemma five_counts (cs : list Z) :
  length cs = 5%nat ->
  exists c0 c1 c2 c3 c4, cs = [c0; c1; c2; c3; c4].
Proof.
  intros H. do 5 (destruct cs as [|? cs]; [discriminate|]).
  destruct cs; [|discriminate]. eauto 10.
Qed.

Lemma five_nonneg (c0 c1 c2 c3 c4 : Z) :
  Forall (fun c => 0 <= c) [c0; c1; c2; c3; c4] ->
  0 <= c0 /\ 0 <= c1 /\ 0 <= c2 /\ 0 <= c3 /\ 0 <= c4.
Proof.
  intros H. rewrite !Forall_cons in H. tauto.
Qed.

Lemma mixed_distribution_in_range (N count : Z) :
  2 <= N -> N <= 9223372036854775808 -> 0 <= count ->
  returns (mixed_distribution N count None) (in_range N count).
Proof.
  intros HN Hmax Hc. unfold mixed_distribution. cbn [default].
  rewrite np_multinomial_default.
  destruct (Z.ltb_spec count 0) as [H|_]; [lia|].
  eapply returns_bind.
  { apply multinomial_split_spec; [discriminate | exact Hc]. }
  intros cs (Hlen & Hpos & Hsum).
  destruct (five_counts cs Hlen) as (c0 & c1 & c2 & c3 & c4 & ->).
  destruct (five_nonneg _ _ _ _ _ Hpos) as (H0 & H1 & H2 & H3 & H4).
  eapply returns_bind; [apply (index_returns _ 0%nat c0); reflexivity|].
  intros ? ->.
  eapply returns_bind; [apply uniform_random_in_range; lia|]. intros n0 [L0 F0].
  eapply returns_bind; [apply (index_returns _ 1%nat c1); reflexivity|].
  intros ? ->.
  eapply returns_bind; [apply normal_random_in_range; lia|]. intros n1 [L1 F1].
  eapply returns_bind; [apply (index_returns _ 2%nat c2); reflexivity|].
  intros ? ->.
  eapply returns_bind; [apply exponential_random_in_range; lia|]. intros n2 [L2 F2].
  eapply returns_bind; [apply (index_returns _ 3%nat c3); reflexivity|].
  intros ? ->.
  eapply returns_bind; [apply poisson_random_in_range; lia|]. intros n3 [L3 F3].
  eapply returns_bind; [apply (index_returns _ 4%nat c4); reflexivity|].
  intros ? ->.
  eapply returns_bind; [apply chi_square_random_in_range; lia|]. intros n4 [L4 F4].
  eapply returns_weaken.
  - apply (shuffle_spec (fun x => 0 <= x <= N - 1)).
    repeat (apply Forall_app; split); assumption.
  - intros y [Hl Hy]. split; [|exact Hy].
    rewrite Hl, !length_app. simpl in Hsum. lia.
Qed.

(** With [N = 1] the mixture always fails: a negative count is rejected by
    the split, and otherwise the chi-square part is reached and raises. *)
Lemma mixed_distribution_N1 (count : Z) (g : rng) :
  fst (mixed_distribution 1 count None g) = Raise ValueError.
Proof.
  unfold mixed_distribution. cbn [default].
  rewrite np_multinomial_default.
  destruct (Z.ltb_spec count 0) as [H|Hc]; [reflexivity|].
  unfold bind at 1.
  destruct (multinomial_split_spec (map pval_get (normalize default_weights))
              ltac:(discriminate) count Hc g) as (cs & g1 & -> & Hlen & Hpos & Hsum).
  destruct (five_counts cs Hlen) as (c0 & c1 & c2 & c3 & c4 & ->).
  destruct (five_nonneg _ _ _ _ _ Hpos) as (H0 & H1 & H2 & H3 & H4).
  unfold bind at 1. cbn [index lookup list_lookup ret].
  unfold bind at 1.
  destruct (uniform_random_in_range 1 c0 ltac:(lia) ltac:(lia) H0 g1)
    as (n0 & g2 & -> & _).
  unfold bind at 1. cbn [index lookup list_lookup ret].
  unfold bind at 1.
  destruct (normal_random_in_range 1 c1 ltac:(lia) H1 g2) as (n1 & g3 & -> & _).
  unfold bind at 1. cbn [index lookup list_lookup ret].
  unfold bind at 1.
  destruct (exponential_random_in_range 1 c2 ltac:(lia) H2 g3) as (n2 & g4 & -> & _).
  unfold bind at 1. cbn [index lookup list_lookup ret].
  unfold bind at 1.
  destruct (poisson_random_in_range 1 c3 ltac:(lia) H3 g4) as (n3 & g5 & -> & _).
  unfold bind at 1. cbn [index lookup list_lookup ret].
  unfold bind at 1.
  rewrite chi_square_random_N1. reflexivity.
Qed.

(** ** The generator as a whole *)

(** On [N > 0] and [count >= 0] every variant returns [count] integers in
    [[0, N-1]]; the two variants that draw chi-square samples need
    [N >= 2] for that.  ([N] is taken up to [2^53], where the parameters
    and the clip bound computed from it are exact doubles and
    [np.random.randint] stays within [int64].) *)
Lemma generate_in_range (d : distribution) (N count : Z) :
  0 < N -> N <= 9007199254740992 ->
  (needs_chisquare d = true -> 2 <= N) -> 0 <= count ->
  returns (generate d N count) (in_range N count).
Proof.
  intros HN Hmax Hchi Hc. destruct d; cbn [generate needs_chisquare] in *.
  - apply simple_random_in_range; assumption.
  - apply uniform_random_in_range; first [assumption | lia].
  - apply normal_random_in_range; assumption.
  - apply exponential_random_in_range; assumption.
  - apply poisson_random_in_range; assumption.
  - apply chi_square_random_in_range; auto.
  - apply mixed_distribution_in_range; first [assumption | lia | auto].
Qed.

Lemma simple_random_raises (N count : Z) (g : rng) :
  N <= 0 -> 0 < count -> simple_random N count g = (Raise ValueError, g).
Proof.
  intros HN Hc. unfold simple_random.
  destruct (Z.to_nat count) as [|k] eqn:E; [lia|].
  simpl. unfold bind, randint.
  destruct (Z.ltb_spec (N - 1) 0) as [_|H]; [reflexivity | lia].
Qed.

Lemma simple_random_empty (N count : Z) (g : rng) :
  count <= 0 -> simple_random N count g = (OK [], g).
Proof.
  intros Hc. unfold simple_random.
  replace (Z.to_nat count) with 0%nat by lia. reflexivity.
Qed.

(** A weight vector with a negative sum is not rejected: five weights of
    [-1] normalise to the default weights. *)
Lemma mixed_negative_weights_accepted :
  is_ok (fst (mixed_distribution 10 3 (Some [-1; -1; -1; -1; -1]%Q) g0)) = true.
Proof. vm_compute. reflexivity. Qed.

(** C1 (the defect): with [N = 1], a valid range, the chi-square generator
    and the mixed generator raise [ValueError] for every [count] and every
    state of the random source, instead of returning [count] zeros: the
    default degrees of freedom [int(N / 2)] are [0]. *)
Theorem generate_N1_chisquare_raises :
  forall (count : Z) (g : rng),
    fst (generate ChiSquare 1 count g) = Raise ValueError /\
    fst (generate Mixed 1 count g) = Raise ValueError.
Proof.
  intros count g. split.
  - unfold generate. rewrite chi_square_random_N1. reflexivity.
  - apply mixed_distribution_N1.
Qed.

(** C2 (as stated, refuted): it is not the case that [generate] raises
    exactly on [N <= 0] or [count < 0]; the simple generator asked for
    [-1] values of range [5] returns the empty sequence. *)
Lemma generate_invalid_input_accepted :
  ~ (forall (d : distribution) (N count : Z) (g : rng),
        is_ok (fst (generate d N count g)) = false <-> (N <= 0 \/ count < 0)).
Proof.
  intros H.
  destruct (H SimpleModulo 5 (-1) g0) as [_ H2].
  specialize (H2 ltac:(lia)). discriminate H2.
Qed.

(** C2 (amended): the generator validates nothing itself and fails exactly
    where a sampling primitive rejects its arguments.  No variant fails
    when [2 <= N <= 2^53] and [count >= 0].  A valid range can be rejected:
    the uniform generator raises [ValueError] for every [N > 2^63] (unless
    [count = 0]), where [np.random.randint] leaves [int64].  The simple
    generator fails if and only if [N <= 0] and [count > 0] (a negative
    count, like a zero count, yields the empty sequence), and it then fails
    at its first draw, the random source untouched. *)
Theorem generate_failure_modes :
  forall (d : distribution) (N count : Z) (g : rng),
    (exact_double N -> 2 <= N -> 0 <= count ->
     is_ok (fst (generate d N count g)) = true) /\
    (9223372036854775808 < N -> count <> 0 ->
     generate Uniform N count g = (Raise ValueError, g)) /\
    (is_ok (fst (generate SimpleModulo N count g)) = false <-> N <= 0 /\ 0 < count) /\
    (is_ok (fst (generate SimpleModulo N count g)) = false ->
     snd (generate SimpleModulo N count g) = g).
Proof.
  intros d N count g. split; [|split; [|split]].
  - intros HD HN Hc. unfold exact_double in HD.
    destruct (generate_in_range d N count ltac:(lia) ltac:(lia)
                ltac:(intros; lia) Hc g)
      as (l & g' & -> & _).
    reflexivity.
  - intros HN Hc. cbn [generate]. unfold uniform_random, np_randint.
    destruct (Z.eqb_spec count 0) as [E|_]; [contradiction|].
    destruct (Z.ltb_spec 9223372036854775808 N) as [_|H]; [|lia].
    rewrite orb_true_r. reflexivity.
  - cbn [generate]. split.
    + intros Hfail.
      destruct (Z.le_gt_cases count 0) as [Hc|Hc].
      { rewrite simple_random_empty in Hfail by exact Hc. discriminate. }
      destruct (Z.le_gt_cases N 0) as [HN|HN]; [lia|].
      destruct (simple_random_in_range N count ltac:(lia) ltac:(lia) g)
        as (l & g' & E & _).
      rewrite E in Hfail. discriminate.
    + intros [HN Hc]. rewrite simple_random_raises by assumption. reflexivity.
  - cbn [generate]. intros Hfail.
    destruct (Z.le_gt_cases count 0) as [Hc|Hc].
    { rewrite simple_random_empty in Hfail by exact Hc. discriminate. }
    destruct (Z.le_gt_cases N 0) as [HN|HN].
    + rewrite simple_random_raises by assumption. reflexivity.
    + destruct (simple_random_in_range N count ltac:(lia) ltac:(lia) g)
        as (l & g' & E & _).
      rewrite E in Hfail. discriminate.
Qed.

(** ** The gap loop on a periodic sequence *)

Lemma gap_loop_app (l1 l2 : list Z) :
  forall i gaps last_pos,
    gap_loop i (l1 ++ l2) gaps last_pos
    = gap_loop (i + length l1) l2 (gap_loop i l1 gaps last_pos).1
               (gap_loop i l1 gaps last_pos).2.
Proof.
  induction l1 as [|x l1 IH]; intros i gaps last_pos; simpl.
  - rewrite Nat.add_0_r. reflexivity.
  - rewrite IH. replace (Datatypes.S i + length l1)%nat
      with (i + Datatypes.S (length l1))%nat by lia. reflexivity.
Qed.

(** The first period: nothing has been seen, no gap is recorded, and every
    value is left with its own position. *)
Lemma gap_loop_first_period (N : nat) :
  forall n a gaps (last_pos : gmap Z nat),
    (a + n = N)%nat ->
    (forall v, (v < a)%nat -> last_pos !! Z.of_nat v = Some v) ->
    (forall v, (a <= v < N)%nat -> last_pos !! Z.of_nat v = None) ->
    (gap_loop a (map Z.of_nat (seq a n)) gaps last_pos).1 = gaps /\
    (forall v, (v < N)%nat ->
       (gap_loop a (map Z.of_nat (seq a n)) gaps last_pos).2 !! Z.of_nat v = Some v).
Proof.
  induction n as [|n IH]; intros a gaps last_pos Han Hlo Hhi.
  - simpl. split; [reflexivity|]. intros v Hv. apply Hlo. lia.
  - simpl. rewrite (Hhi a) by lia.
    apply IH.
    + lia.
    + intros v Hv. destruct (decide (v = a)) as [->|Hne].
      * apply lookup_insert_eq.
      * rewrite lookup_insert_ne by lia. apply Hlo. lia.
    + intros v Hv. rewrite lookup_insert_ne by lia. apply Hhi. lia.
Qed.

(** A later period, starting at position [off]: every value was last seen
    [N] positions earlier, so each of the [N] steps records the gap [N]. *)
Lemma gap_loop_next_period (N off : nat) :
  (N <= off)%nat ->
  forall n a gaps (last_pos : gmap Z nat),
    (a + n = N)%nat ->
    (forall v, (v < a)%nat -> last_pos !! Z.of_nat v = Some (off + v)%nat) ->
    (forall v, (a <= v < N)%nat -> last_pos !! Z.of_nat v = Some (off + v - N)%nat) ->
    (gap_loop (off + a) (map Z.of_nat (seq a n)) gaps last_pos).1
      = gaps ++ replicate n (Z.of_nat N) /\
    (forall v, (v < N)%nat ->
       (gap_loop (off + a) (map Z.of_nat (seq a n)) gaps last_pos).2 !! Z.of_nat v
       = Some (off + v)%nat).
Proof.
  intros Hoff. induction n as [|n IH]; intros a gaps last_pos Han Hlo Hhi.
  - simpl. split; [rewrite app_nil_r; reflexivity|]. intros v Hv. apply Hlo. lia.
  - simpl. rewrite (Hhi a) by lia.
    replace (Z.of_nat (off + a) - Z.of_nat (off + a - N)) with (Z.of_nat N) by lia.
    replace (Datatypes.S (off + a)) with (off + Datatypes.S a)%nat by lia.
    destruct (IH (Datatypes.S a) (gaps ++ [Z.of_nat N])
                 (<[Z.of_nat a := (off + a)%nat]> last_pos)) as [Hg Hl].
    + lia.
    + intros v Hv. destruct (decide (v = a)) as [->|Hne].
      * apply lookup_insert_eq.
      * rewrite lookup_insert_ne by lia. apply Hlo. lia.
    + intros v Hv. rewrite lookup_insert_ne by lia. apply Hhi. lia.
    + split; [|exact Hl]. rewrite Hg, <- app_assoc. reflexivity.
Qed.

Lemma period_length (N : nat) : length (period N) = N.
Proof. unfold period. rewrite length_map, length_seq. reflexivity. Qed.

(** [m] further periods from position [off]. *)
Lemma gap_loop_periods (N : nat) :
  forall m off gaps (last_pos : gmap Z nat),
    (N <= off)%nat ->
    (forall v, (v < N)%nat -> last_pos !! Z.of_nat v = Some (off + v - N)%nat) ->
    (gap_loop off (concat (replicate m (period N))) gaps last_pos).1
    = gaps ++ replicate (m * N) (Z.of_nat N).
Proof.
  induction m as [|m IH]; intros off gaps last_pos Hoff Hlp.
  - simpl. rewrite app_nil_r. reflexivity.
  - simpl. rewrite gap_loop_app, period_length.
    destruct (gap_loop_next_period N off Hoff N 0%nat gaps last_pos) as [Hg Hl].
    + lia.
    + intros v Hv. lia.
    + intros v Hv. apply Hlp. lia.
    + rewrite Nat.add_0_r in Hg, Hl. unfold period. rewrite IH.
      * rewrite Hg, <- app_assoc, <- replicate_add. reflexivity.
      * lia.
      * intros v Hv. rewrite Hl by exact Hv. f_equal. lia.
Qed.

(** C8: on [[0, 1, ..., N-1]] repeated [k >= 2] times ([N >= 1]) the gap
    test records one gap for each of the [(k-1) * N] positions after the
    first period, that is for every occurrence of every value after its
    first, and every recorded gap is exactly [N]. *)
Theorem gap_periodic :
  forall N k : nat,
    (1 <= N)%nat -> (2 <= k)%nat ->
    compute_gaps (periodic N k) = replicate ((k - 1) * N) (Z.of_nat N).
Proof.
  intros N k HN Hk. destruct k as [|m]; [lia|].
  unfold compute_gaps, periodic. simpl.
  rewrite gap_loop_app, period_length.
  destruct (gap_loop_first_period N N 0%nat [] ∅) as [Hg Hl].
  - lia.
  - intros v Hv. lia.
  - intros v Hv. apply lookup_empty.
  - change (map Z.of_nat (seq 0 N)) with (period N) in Hg, Hl.
    rewrite gap_loop_periods.
    + rewrite Hg. simpl. rewrite Nat.sub_0_r. reflexivity.
    + lia.
    + intros v Hv. rewrite Hl by exact Hv. f_equal. lia.
Qed.

Lemma gap_periodic_witness :
  compute_gaps (periodic 3 2) = replicate ((2 - 1) * 3) (Z.of_nat 3).
Proof. apply (gap_periodic 3 2); lia. Defined.

(** ** Frame: the battery writes nothing *)

Lemma readonly_ret {S A : Type} (a : A) : readonly (S := S) (ret a).
Proof. intros s. reflexivity. Qed.

Lemma readonly_lift {S A : Type} (r : result A) : readonly (S := S) (lift r).
Proof. intros s. reflexivity. Qed.

Lemma readonly_index {S A : Type} (l : list A) (i : nat) :
  readonly (S := S) (index l i).
Proof. intros s. unfold index. destruct (l !! i); reflexivity. Qed.

Lemma readonly_bind {S A B : Type} (m : SE S A) (f : A -> SE S B) :
  readonly m -> (forall a, readonly (f a)) -> readonly (x <~ m ;; f x).
Proof.
  intros Hm Hf s. unfold bind. specialize (Hm s).
  destruct (m s) as [[a|e] s1]; simpl in Hm; subst s1.
  - apply Hf.
  - reflexivity.
Qed.

Lemma readonly_get_N : readonly get_N.
Proof. intros s. reflexivity. Qed.

Lemma readonly_get_count : readonly get_count.
Proof. intros s. reflexivity. Qed.

Lemma readonly_get_numbers : readonly get_numbers.
Proof. intros s. reflexivity. Qed.

Create HintDb frame.
#[export] Hint Resolve readonly_ret readonly_lift readonly_index readonly_get_N
  readonly_get_count readonly_get_numbers : frame.

Ltac frame :=
  repeat first
    [ apply readonly_bind; [|intros ?]
    | solve [auto with frame] ].

Section BatteryFrame.
Context {scipy : ScipyStats}.

Lemma readonly_test_uniformity : readonly test_uniformity.
Proof. unfold test_uniformity. frame. Qed.

Lemma readonly_test_independence : readonly test_independence.
Proof. unfold test_independence. frame. Qed.

Lemma readonly_test_gap_distribution : readonly test_gap_distribution.
Proof. unfold test_gap_distribution. frame. Qed.

Lemma readonly_test_runs : readonly test_runs.
Proof. unfold test_runs. frame. Qed.

Lemma readonly_test_entropy : readonly test_entropy.
Proof. unfold test_entropy. frame. Qed.

Lemma readonly_run_tests (tests : list (SE heap TestResult)) :
  Forall readonly tests -> forall results, readonly (run_tests tests results).
Proof.
  induction 1 as [|t ts Ht _ IH]; intros results; simpl.
  - apply readonly_ret.
  - apply readonly_bind; [exact Ht | intros r; apply IH].
Qed.

Lemma readonly_run_all_tests : readonly run_all_tests.
Proof.
  apply readonly_run_tests.
  repeat constructor;
    auto using readonly_test_uniformity, readonly_test_independence,
      readonly_test_gap_distribution, readonly_test_runs, readonly_test_entropy.
Qed.

(** C9: a second run of the battery, on the tester and the sequence as
    the first run left them, gives the same outcome as the first: the same
    five records, or the same exception.  The first run leaves the tester
    and the sequence as they were. *)
Theorem run_all_tests_idempotent :
  forall h : heap,
    snd (run_all_tests h) = h /\
    fst (run_all_tests (snd (run_all_tests h))) = fst (run_all_tests h).
Proof.
  intros h. pose proof (readonly_run_all_tests h) as H.
  split; [exact H | rewrite H; reflexivity].
Qed.

(** C10: the sequence handed to the battery has the same elements in the
    same order after [run_all_tests] and after each single test, whether
    the call returns or raises. *)
Theorem battery_preserves_sequence :
  forall h : heap,
    numbers (snd (run_all_tests h)) = numbers h /\
    numbers (snd (test_uniformity h)) = numbers h /\
    numbers (snd (test_independence h)) = numbers h /\
    numbers (snd (test_gap_distribution h)) = numbers h /\
    numbers (snd (test_runs h)) = numbers h /\
    numbers (snd (test_entropy h)) = numbers h.
Proof.
  intros h.
  rewrite readonly_run_all_tests, readonly_test_uniformity,
    readonly_test_independence, readonly_test_gap_distribution,
    readonly_test_runs, readonly_test_entropy.
  repeat split.
Qed.
End BatteryFrame.

(** ** Arithmetic on doubles *)

Lemma fdiv_Fin (x y : R) : y <> 0%R -> fdiv (Fin x) (Fin y) = Fin (x / y).
Proof. intros Hy. unfold fdiv. destruct (Req_dec_T y 0); [contradiction | reflexivity]. Qed.

Lemma fdiv_zero_zero : fdiv (Fin 0) (Fin 0) = NaN.
Proof.
  unfold fdiv. destruct (Req_dec_T 0 0) as [_|H]; [reflexivity | contradiction].
Qed.

Lemma flog2_Fin (x : R) : (0 < x)%R -> flog2 (Fin x) = Fin (ln x / ln 2).
Proof.
  intros Hx. unfold flog2.
  destruct (Rlt_dec x 0); [lra|]. destruct (Req_dec_T x 0); [lra | reflexivity].
Qed.

Lemma fsqrt_Fin (x : R) : (0 <= x)%R -> fsqrt (Fin x) = Fin (sqrt x).
Proof. intros Hx. unfold fsqrt. destruct (Rlt_dec x 0); [lra | reflexivity]. Qed.

Lemma fgtb_Fin (x y : R) : fgtb (Fin x) (Fin y) = true <-> (y < x)%R.
Proof.
  unfold fgtb. destruct (Rlt_dec y x); split; intros; auto; discriminate.
Qed.

Lemma foldl_fadd_Fin (xs : list R) :
  forall a, foldl fadd (Fin a) (map Fin xs) = Fin (a + Rsum xs).
Proof.
  induction xs as [|x xs IH]; intros a; simpl.
  - f_equal. lra.
  - rewrite IH. f_equal. lra.
Qed.

Lemma np_sum_Fin (xs : list R) : np_sum (map Fin xs) = Fin (Rsum xs).
Proof. unfold np_sum. rewrite foldl_fadd_Fin. f_equal. lra. Qed.

(** A sum with a single non-zero term. *)
Lemma Rsum_single (L : R) (v : Z) (k : nat) :
  forall a,
    Rsum (map (fun i => if Z.eq_dec i v then L else 0%R) (seqZ a (Z.of_nat k)))
    = if bool_decide (a <= v < a + Z.of_nat k) then L else 0%R.
Proof.
  induction k as [|k IH]; intros a.
  - simpl. rewrite bool_decide_eq_false_2 by lia. reflexivity.
  - rewrite seqZ_cons by lia. simpl map. simpl Rsum. fold (Rsum).
    replace (Z.pred (Z.of_nat (Datatypes.S k))) with (Z.of_nat k) by lia.
    rewrite IH. destruct (Z.eq_dec a v) as [->|Hne].
    + rewrite bool_decide_eq_false_2 by lia.
      rewrite bool_decide_eq_true_2 by lia. lra.
    + destruct (decide (Z.succ a <= v < Z.succ a + Z.of_nat k)) as [H|H].
      * rewrite !bool_decide_eq_true_2 by lia. lra.
      * rewrite !bool_decide_eq_false_2 by lia. lra.
Qed.

(** The smoothing constant leaves a positive logarithm at probability 1:
    [0 < log2(1 + 1e-10) < 2e-10]. *)
Lemma log2_smoothing_bounds :
  (0 < ln (1 + 1 / 10000000000) / ln 2 < 2 / 10000000000)%R.
Proof.
  pose proof ln_lt_2 as H2.
  assert (Hpos : (0 < ln (1 + 1 / 10000000000))%R).
  { rewrite <- ln_1. apply ln_increasing; lra. }
  assert (Hup : (ln (1 + 1 / 10000000000) < 1 / 10000000000)%R).
  { rewrite <- (ln_exp (1 / 10000000000)) at 2.
    apply ln_increasing; [lra|]. apply exp_ineq1. lra. }
  split.
  - apply Rdiv_lt_0_compat; lra.
  - apply (Rmult_lt_reg_r (ln 2)); [lra|].
    unfold Rdiv at 1. rewrite Rmult_assoc, Rinv_l by lra. nra.
Qed.

(** ** Constant sequences *)

Lemma count_occ_replicate (n : nat) (v i : Z) :
  count_occ Z.eq_dec (replicate n v) i = if Z.eq_dec i v then n else 0%nat.
Proof.
  induction n as [|n IH]; simpl.
  - destruct (Z.eq_dec i v); reflexivity.
  - rewrite IH. destruct (Z.eq_dec v i), (Z.eq_dec i v); congruence.
Qed.

Lemma bincount_constant (n : nat) (v N : Z) :
  (1 <= n)%nat -> 0 <= v < N ->
  np_bincount (replicate n v) N
  = OK (map (fun i => if Z.eq_dec i v then Z.of_nat n else 0) (seqZ 0 N)).
Proof.
  intros Hn Hv. unfold np_bincount.
  assert (Hneg : existsb (fun x => x <? 0) (replicate n v) = false).
  { clear Hn. induction n as [|k IH]; simpl; [reflexivity|].
    rewrite IH. destruct (Z.ltb_spec v 0); [lia | reflexivity]. }
  assert (Hmax : foldr (fun x m => Z.max (x + 1) m) 0 (replicate n v) = v + 1).
  { destruct n as [|k]; [lia|]. clear Hn Hneg.
    induction k as [|k IH]; cbn [replicate fold_right] in *; lia. }
  rewrite Hneg, Hmax. destruct (Z.ltb_spec N 0); [lia|]. simpl.
  replace (Z.max N (v + 1)) with N by lia.
  f_equal. apply map_ext. intros i.
  rewrite count_occ_replicate. destruct (Z.eq_dec i v); reflexivity.
Qed.

Lemma count_runs_constant (n : nat) (v : Z) : count_runs (replicate n v) = 1.
Proof.
  unfold count_runs. rewrite length_replicate.
  generalize (seq 1 (n - 1)). intros l.
  set (f := fun (n_runs : Z) (i : nat) => _).
  assert (Hf : forall r i, f r i = r).
  { intros r i. unfold f.
    destruct (replicate n v !! i) as [a|] eqn:Ea; [|reflexivity].
    destruct (replicate n v !! (i - 1)%nat) as [b|] eqn:Eb; [|reflexivity].
    apply lookup_replicate in Ea, Eb. destruct Ea as [-> _], Eb as [-> _].
    rewrite bool_decide_eq_false_2 by auto. reflexivity. }
  generalize 1. induction l as [|i l IH]; intros r; simpl.
  - reflexivity.
  - rewrite Hf. apply IH.
Qed.

(** The entropy sum of a constant sequence: the term of the one occupied
    bin is [log2(1 + 1e-10)], every other term is [0 * log2(1e-10)]. *)
Lemma entropy_constant (n : nat) (v N : Z) :
  (1 <= n)%nat -> 0 <= v < N ->
  entropy_of (map (fun c => fdiv (of_Z c) (of_Z (Z.of_nat n)))
                  (map (fun i => if Z.eq_dec i v then Z.of_nat n else 0) (seqZ 0 N)))
  = Fin (- (ln (1 + 1 / 10000000000) / ln 2)).
Proof.
  intros Hn Hv. unfold entropy_of. rewrite !map_map.
  assert (Hnz : IZR (Z.of_nat n) <> 0%R) by (apply not_0_IZR; lia).
  rewrite (map_ext _ (fun i => Fin (if Z.eq_dec i v
                                    then ln (1 + 1 / 10000000000) / ln 2 else 0%R))).
  - rewrite <- (map_map _ Fin), np_sum_Fin.
    replace N with (0 + Z.of_nat (Z.to_nat N)) at 1 by lia.
    rewrite Z.add_0_l, Rsum_single.
    rewrite bool_decide_eq_true_2 by lia. reflexivity.
  - intros i. unfold of_Z, epsilon. destruct (Z.eq_dec i v) as [_|_].
    + rewrite fdiv_Fin by exact Hnz.
      replace (IZR (Z.of_nat n) / IZR (Z.of_nat n))%R with 1%R by (field; exact Hnz).
      cbn [fadd]. rewrite flog2_Fin by lra. cbn [fmul]. f_equal. lra.
    + rewrite fdiv_Fin by exact Hnz.
      replace (0 / IZR (Z.of_nat n))%R with 0%R by (field; exact Hnz).
      cbn [fadd]. rewrite flog2_Fin by lra. cbn [fmul]. f_equal. lra.
Qed.

(** ** The single tests, evaluated *)

Lemma test_entropy_eval (h : heap) (counts : list Z) :
  np_bincount (numbers h) (self_N (self h)) = OK counts ->
  test_entropy h
  = (OK (EntropyResult
           (entropy_of (map (fun c => fdiv (of_Z c) (of_Z (Z.of_nat (length (numbers h)))))
                            counts))
           (flog2 (of_Z (self_N (self h))))
           (fdiv (entropy_of (map (fun c => fdiv (of_Z c)
                                                 (of_Z (Z.of_nat (length (numbers h)))))
                                  counts))
                 (flog2 (of_Z (self_N (self h)))))
           (fgtb (fdiv (entropy_of (map (fun c => fdiv (of_Z c)
                                                       (of_Z (Z.of_nat (length (numbers h)))))
                                        counts))
                       (flog2 (of_Z (self_N (self h)))))
                 (Fin (9 / 10)))), h).
Proof.
  intros Hb. unfold test_entropy, bind, get_numbers, get_N, lift.
  rewrite Hb. reflexivity.
Qed.

Lemma ln_ge_ln2 (N : Z) : 2 <= N -> (ln 2 <= ln (IZR N))%R.
Proof.
  intros HN. destruct (Z.eq_dec N 2) as [->|Hne]; [lra|].
  left. apply ln_increasing; [lra|]. apply IZR_lt. lia.
Qed.

Section BatteryConstant.
Context {scipy : ScipyStats}.

Lemma test_runs_eval (h : heap) (x : Z) :
  numbers h !! 0%nat = Some x ->
  exists e z p b,
    test_runs h = (OK (RunsResult (count_runs (numbers h)) e z p b), h) /\
    e = expected_runs_of (count_eq (numbers h) x)
          (wrap64 (Z.of_nat (length (numbers h)) - count_eq (numbers h) x)) /\
    z = fdiv (fsub (of_Z (count_runs (numbers h))) e)
             (std_runs_of (count_eq (numbers h) x)
                (wrap64 (Z.of_nat (length (numbers h)) - count_eq (numbers h) x))) /\
    p = fmul (Fin 2) (fsub (Fin 1) (norm_cdf (fabs z))) /\
    b = fgtb p alpha.
Proof.
  intros Hn. eexists _, _, _, _. split; [|repeat split; reflexivity].
  unfold test_runs, bind, get_numbers, index. cbn [fst snd]. rewrite Hn. reflexivity.
Qed.

(** C7 (amended): on a constant sequence ([n >= 1] copies of a value [v] in
    [[0, N)]) the runs test reports exactly 1 run; the entropy test reports
    the entropy [-log2(1 + 1e-10)], which is negative and within [2e-10] of
    zero, not zero; and for [N >= 2] the entropy ratio is likewise negative
    and within [2e-10] of zero, with the verdict "low". *)
Theorem constant_sequence_runs_entropy :
  forall (N count v : Z) (n : nat),
    0 <= v < N -> (1 <= n)%nat ->
    (exists e z p b,
        fst (test_runs (Heap (Tester N count) (replicate n v)))
        = OK (RunsResult 1 e z p b)) /\
    (exists H m r b,
        fst (test_entropy (Heap (Tester N count) (replicate n v)))
        = OK (EntropyResult (Fin H) m r b) /\
        H = (- (ln (1 + 1 / 10000000000) / ln 2))%R /\
        (- (2 / 10000000000) < H < 0)%R /\
        (2 <= N ->
         exists q, r = Fin q /\ (- (2 / 10000000000) < q < 0)%R /\ b = false)).
Proof.
  intros N count v n Hv Hn. split.
  - destruct n as [|k]; [lia|].
    destruct (test_runs_eval (Heap (Tester N count) (replicate (Datatypes.S k) v))
                v eq_refl) as (e & z & p & b & E & _).
    rewrite E. cbn [fst numbers]. rewrite count_runs_constant. eauto.
  - pose proof log2_smoothing_bounds as HL.
    rewrite (test_entropy_eval (Heap (Tester N count) (replicate n v)) _
               (bincount_constant n v N Hn Hv)).
    cbn [fst numbers self self_N]. rewrite length_replicate.
    rewrite (entropy_constant n v N Hn Hv).
    eexists _, _, _, _. split; [reflexivity|].
    split; [reflexivity|]. split; [lra|].
    intros HN. pose proof (ln_ge_ln2 N HN) as HlnN. pose proof ln_lt_2 as H2.
    assert (HM : (1 <= ln (IZR N) / ln 2)%R).
    { apply (Rmult_le_reg_r (ln 2)); [lra|].
      unfold Rdiv. rewrite Rmult_assoc, Rinv_l by lra. lra. }
    unfold of_Z. rewrite flog2_Fin by (apply IZR_lt; lia).
    rewrite fdiv_Fin by lra.
    set (H := (- (ln (1 + 1 / 10000000000) / ln 2))%R) in *.
    set (M := (ln (IZR N) / ln 2)%R) in *.
    assert (HH : (- (2 / 10000000000) < H < 0)%R) by (unfold H; lra).
    assert (Hq : (- (2 / 10000000000) < H / M < 0)%R).
    { assert (Hinv : (0 < / M <= 1)%R).
      { split; [apply Rinv_0_lt_compat; lra|].
        rewrite <- Rinv_1. apply Rinv_le_contravar; lra. }
      unfold Rdiv. nra. }
    exists (H / M)%R. split; [reflexivity|]. split; [exact Hq|].
    unfold fgtb. destruct (Rlt_dec (9 / 10) (H / M)); [lra | reflexivity].
Qed.

(** C7 (as stated, refuted): for the constant sequence [[0]] in range
    [N = 2] the entropy test does not report entropy 0 with ratio 0. *)
Lemma constant_entropy_not_zero :
  ~ (exists m b,
        fst (test_entropy (Heap (Tester 2 1) [0]))
        = OK (EntropyResult (Fin 0) m (Fin 0) b)).
Proof.
  intros (m & b & E).
  pose proof log2_smoothing_bounds as HL.
  rewrite (test_entropy_eval (Heap (Tester 2 1) [0]) _
             (bincount_constant 1 0 2 ltac:(lia) ltac:(lia))) in E.
  cbn [fst numbers self self_N length] in E.
  rewrite (entropy_constant 1 0 2 ltac:(lia) ltac:(lia)) in E.
  injection E as HE _ _ _. lra.
Qed.
End BatteryConstant.

Lemma constant_sequence_runs_entropy_witness :
  (exists e z p b,
      fst (test_runs (scipy := scipy_nan) (Heap (Tester 2 3) (replicate 3 1)))
      = OK (RunsResult 1 e z p b)) /\
  (exists H m r b,
      fst (test_entropy (Heap (Tester 2 3) (replicate 3 1)))
      = OK (EntropyResult (Fin H) m r b) /\
      H = (- (ln (1 + 1 / 10000000000) / ln 2))%R /\
      (- (2 / 10000000000) < H < 0)%R /\
      (2 <= 2 ->
       exists q, r = Fin q /\ (- (2 / 10000000000) < q < 0)%R /\ b = false)).
Proof.
  apply (constant_sequence_runs_entropy (scipy := scipy_nan) 2 3 1 3); lia.
Defined.

(** ** The runs test *)

Lemma count_runs_loop (nums : list Z) :
  forall (l pre : list Z) (a r : Z),
    nums = pre ++ a :: l ->
    foldl (fun n_runs i =>
             match nums !! i, nums !! (i - 1)%nat with
             | Some a, Some b => if bool_decide (a <> b) then n_runs + 1 else n_runs
             | _, _ => n_runs
             end)
          r (seq (Datatypes.S (length pre)) (length l))
    = r + boundaries (a :: l).
Proof.
  induction l as [|b l IH]; intros pre a r Hn.
  - simpl. lia.
  - cbn [length seq foldl].
    assert (Hb : nums !! Datatypes.S (length pre) = Some b).
    { rewrite Hn, lookup_app_r by lia.
      replace (Datatypes.S (length pre) - length pre)%nat with 1%nat by lia.
      reflexivity. }
    assert (Ha : nums !! (Datatypes.S (length pre) - 1)%nat = Some a).
    { rewrite Hn, lookup_app_r by lia.
      replace (Datatypes.S (length pre) - 1 - length pre)%nat with 0%nat by lia.
      reflexivity. }
    rewrite Hb, Ha.
    specialize (IH (pre ++ [a]) b).
    rewrite length_app in IH. simpl length in IH.
    replace (length pre + 1)%nat with (Datatypes.S (length pre)) in IH by lia.
    rewrite IH by (rewrite Hn, <- app_assoc; reflexivity).
    change (boundaries (a :: b :: l))
      with ((if Z.eq_dec a b then 0 else 1) + boundaries (b :: l)).
    destruct (Z.eq_dec a b) as [->|Hne].
    + rewrite bool_decide_eq_false_2 by auto. lia.
    + rewrite bool_decide_eq_true_2 by auto. lia.
Qed.

Lemma count_runs_boundaries (a : Z) (l : list Z) :
  count_runs (a :: l) = 1 + boundaries (a :: l).
Proof.
  unfold count_runs.
  replace (length (a :: l) - 1)%nat with (length l) by (simpl; lia).
  apply (count_runs_loop (a :: l) l [] a 1). reflexivity.
Qed.

Lemma blocks_cons_nonempty (a : Z) (l : list Z) :
  exists b bs, blocks (a :: l) = (a :: b) :: bs.
Proof.
  revert a. induction l as [|x l IH]; intros a.
  - simpl. eauto.
  - destruct (IH x) as (b & bs & E).
    change (blocks (a :: x :: l))
      with (match blocks (x :: l) with
            | (y :: b) :: bs =>
                if Z.eq_dec a y then (a :: y :: b) :: bs else [a] :: (y :: b) :: bs
            | _ => [[a]]
            end).
    rewrite E. destruct (Z.eq_dec a x); eauto.
Qed.

Lemma blocks_length (a : Z) (l : list Z) :
  Z.of_nat (length (blocks (a :: l))) = 1 + boundaries (a :: l).
Proof.
  revert a. induction l as [|x l IH]; intros a.
  - reflexivity.
  - destruct (blocks_cons_nonempty x l) as (b & bs & E).
    change (blocks (a :: x :: l))
      with (match blocks (x :: l) with
            | (y :: b) :: bs =>
                if Z.eq_dec a y then (a :: y :: b) :: bs else [a] :: (y :: b) :: bs
            | _ => [[a]]
            end).
    change (boundaries (a :: x :: l))
      with ((if Z.eq_dec a x then 0 else 1) + boundaries (x :: l)).
    specialize (IH x). rewrite E in *.
    destruct (Z.eq_dec a x); simpl length in *; lia.
Qed.

(** The blocks partition the sequence. *)
Lemma blocks_concat (l : list Z) : concat (blocks l) = l.
Proof.
  induction l as [|a l IH]; [reflexivity|].
  destruct l as [|x l']; [reflexivity|].
  destruct (blocks_cons_nonempty x l') as (b & bs & E).
  change (blocks (a :: x :: l'))
    with (match blocks (x :: l') with
          | (y :: b) :: bs =>
              if Z.eq_dec a y then (a :: y :: b) :: bs else [a] :: (y :: b) :: bs
          | _ => [[a]]
          end).
  rewrite E in *. destruct (Z.eq_dec a x); simpl in *; rewrite IH; reflexivity.
Qed.

(** The run count of the loop is the number of maximal blocks. *)
Lemma count_runs_blocks (nums : list Z) :
  nums <> [] -> count_runs nums = Z.of_nat (length (blocks nums)).
Proof.
  destruct nums as [|a l]; [congruence|]. intros _.
  rewrite count_runs_boundaries, blocks_length. reflexivity.
Qed.

Lemma wrap64_small (z : Z) :
  - 9223372036854775808 <= z < 9223372036854775808 -> wrap64 z = z.
Proof.
  intros H. unfold wrap64.
  change (2 ^ 64) with 18446744073709551616.
  change (2 ^ 63) with 9223372036854775808.
  rewrite Z.mod_small; lia.
Qed.

(** Within [int64] the source's expressions are the Wald-Wolfowitz
    moments: this holds for every split of at most 65536 elements. *)
Lemma runs_moments_exact (n1 n2 : Z) :
  0 <= n1 -> 0 <= n2 -> 2 <= n1 + n2 <= 65536 ->
  expected_runs_of n1 n2 = Fin (wald_wolfowitz_mean n1 n2) /\
  runs_variance n1 n2 = Fin (wald_wolfowitz_variance n1 n2).
Proof.
  intros H1 H2 Hs.
  assert (Hsq : (n1 + n2) * (n1 + n2) <= 65536 * 65536)
    by (apply Z.mul_le_mono_nonneg; lia).
  pose proof (Z.square_nonneg (n1 - n2)) as Hdiff.
  assert (Hp : 0 <= n1 * n2 <= 1073741824) by nia.
  assert (Hq : - 2147483648 <= 2 * n1 * n2 - n1 - n2 <= 2147483648) by nia.
  assert (Hd : (IZR (n1 + n2) <> 0)%R) by (apply not_0_IZR; lia).
  split.
  - unfold expected_runs_of, wald_wolfowitz_mean, of_Z.
    rewrite (wrap64_small (2 * n1)) by nia.
    rewrite (wrap64_small (2 * n1 * n2)) by nia.
    rewrite (wrap64_small (n1 + n2)) by nia.
    rewrite fdiv_Fin by exact Hd. cbn [fadd]. f_equal.
    rewrite !mult_IZR, plus_IZR. reflexivity.
  - unfold runs_variance, runs_var_num, runs_var_den, wald_wolfowitz_variance, of_Z.
    rewrite (wrap64_small (2 * n1)) by nia.
    rewrite (wrap64_small (2 * n1 * n2)) by nia.
    rewrite (wrap64_small (2 * n1 * n2 - n1)) by nia.
    rewrite (wrap64_small (2 * n1 * n2 - n1 - n2)) by nia.
    rewrite (wrap64_small (2 * n1 * n2 * _)) by nia.
    rewrite (wrap64_small (n1 + n2)) by nia.
    rewrite (wrap64_small ((n1 + n2) ^ 2)) by nia.
    rewrite (wrap64_small (n1 + n2 - 1)) by nia.
    rewrite (wrap64_small ((n1 + n2) ^ 2 * _)) by nia.
    rewrite fdiv_Fin.
    + f_equal. rewrite !mult_IZR, !minus_IZR, !mult_IZR.
      change ((n1 + n2) ^ 2) with ((n1 + n2) ^ Z.of_nat 2).
      rewrite <- pow_IZR, plus_IZR. reflexivity.
    + apply not_0_IZR. nia.
Qed.

Lemma long_balanced_facts :
  long_balanced !! 0%nat = Some 0 /\
  Z.of_nat (length (blocks long_balanced)) = 2 /\
  count_eq long_balanced 0 = 50000 /\
  Z.of_nat (length long_balanced) = 100000.
Proof. vm_compute. repeat split; reflexivity. Qed.

Lemma variance_values :
  (IZR 6552755926290448384 / IZR 999990000000000
   < wald_wolfowitz_variance 50000 50000)%R /\
  (0 < IZR 6552755926290448384 / IZR 999990000000000)%R /\
  wald_wolfowitz_mean 50000 50000 = 50001%R.
Proof.
  unfold wald_wolfowitz_variance, wald_wolfowitz_mean. repeat split; lra.
Qed.

Section BatteryRuns.
Context {scipy : ScipyStats}.

(** C6 (the defect): on 50000 zeros followed by 50000 ones the runs test
    counts 2 runs and expects [1 + 2*n1*n2/(n1+n2) = 50001], but the
    numerator of the variance, [2*n1*n2*(2*n1*n2 - n1 - n2) = 24999500000000000000],
    does not fit [int64] and wraps to [6552755926290448384]; the variance
    under the square root is about 6552.8 instead of the Wald-Wolfowitz
    value 24999.75, and the reported Z statistic is not the one the
    formula gives. *)
Theorem test_runs_variance_overflows :
  exists e z p b,
    fst (test_runs (Heap (Tester 2 100000) long_balanced))
    = OK (RunsResult 2 e z p b) /\
    e = Fin (wald_wolfowitz_mean 50000 50000) /\
    runs_variance 50000 50000
    = Fin (IZR 6552755926290448384 / IZR 999990000000000) /\
    (IZR 6552755926290448384 / IZR 999990000000000
     < wald_wolfowitz_variance 50000 50000)%R /\
    z = Fin ((2 - 50001) / sqrt (IZR 6552755926290448384 / IZR 999990000000000)) /\
    z <> Fin ((2 - wald_wolfowitz_mean 50000 50000)
              / sqrt (wald_wolfowitz_variance 50000 50000)).
Proof.
  destruct long_balanced_facts as (H0 & Hb & Hn1 & Hlen).
  destruct variance_values as (Hlt & Hpos & Hmean).
  destruct (test_runs_eval (Heap (Tester 2 100000) long_balanced) 0 H0)
    as (e & z & p & b & E & He & Hz & _).
  cbn [numbers] in *.
  rewrite count_runs_blocks, Hb in E, Hz by discriminate.
  rewrite Hn1, Hlen in He, Hz.
  assert (Hvar : runs_variance 50000 50000
                 = Fin (IZR 6552755926290448384 / IZR 999990000000000)).
  { unfold runs_variance, of_Z.
    replace (runs_var_num 50000 50000) with 6552755926290448384
      by (vm_compute; reflexivity).
    replace (runs_var_den 50000 50000) with 999990000000000
      by (vm_compute; reflexivity).
    apply fdiv_Fin. lra. }
  assert (Hexp : e = Fin 50001).
  { rewrite He. unfold expected_runs_of, of_Z.
    replace (wrap64 (100000 - 50000)) with 50000 by (vm_compute; reflexivity).
    replace (wrap64 (wrap64 (2 * 50000) * 50000)) with 5000000000
      by (vm_compute; reflexivity).
    replace (wrap64 (50000 + 50000)) with 100000 by (vm_compute; reflexivity).
    rewrite fdiv_Fin by lra. cbn [fadd]. f_equal. lra. }
  assert (Hzv : z = Fin ((2 - 50001)
                         / sqrt (IZR 6552755926290448384 / IZR 999990000000000))).
  { rewrite Hz, Hexp.
    replace (wrap64 (100000 - 50000)) with 50000 by (vm_compute; reflexivity).
    unfold std_runs_of. rewrite Hvar, fsqrt_Fin by lra.
    unfold of_Z, fsub. cbn [fneg fadd].
    rewrite fdiv_Fin.
    - f_equal.
    - apply Rgt_not_eq, sqrt_lt_R0. exact Hpos. }
  exists e, z, p, b. rewrite E. cbn [fst].
  split; [reflexivity|]. split; [rewrite Hmean; exact Hexp|].
  split; [exact Hvar|]. split; [exact Hlt|]. split; [exact Hzv|].
  rewrite Hzv, Hmean. intros Heq. injection Heq as Heq.
  assert (Hs1 : (0 < sqrt (IZR 6552755926290448384 / IZR 999990000000000))%R)
    by (apply sqrt_lt_R0; exact Hpos).
  assert (Hs2 : (sqrt (IZR 6552755926290448384 / IZR 999990000000000)
                 < sqrt (wald_wolfowitz_variance 50000 50000))%R)
    by (apply sqrt_lt_1; lra).
  set (s1 := sqrt (IZR 6552755926290448384 / IZR 999990000000000)) in *.
  set (s2 := sqrt (wald_wolfowitz_variance 50000 50000)) in *.
  assert (Hi : (/ s2 < / s1)%R) by (apply Rinv_lt_contravar; nra).
  unfold Rdiv in Heq. nra.
Qed.
End BatteryRuns.

(** ** The independence test *)

Lemma ci_of_pos (n : nat) :
  (1 <= n)%nat ->
  exists c, ci_of n = Fin c /\ (0 < c)%R /\ c = (196 / 100 / sqrt (INR n))%R.
Proof.
  intros Hn. unfold ci_of, of_Z. rewrite <- INR_IZR_INZ.
  assert (Hpos : (0 < INR n)%R) by (apply lt_0_INR; lia).
  pose proof (sqrt_lt_R0 _ Hpos) as Hs.
  rewrite fsqrt_Fin by lra. rewrite fdiv_Fin by lra.
  eexists. split; [reflexivity|]. split; [|reflexivity].
  apply Rdiv_lt_0_compat; lra.
Qed.

Lemma correlate_at_beyond (nums : list Z) (k : nat) :
  (length nums <= k)%nat -> correlate_at nums k = 0.
Proof.
  intros Hk. unfold correlate_at. rewrite drop_ge by exact Hk. reflexivity.
Qed.

(** A lag beyond the end of the sequence is never significant. *)
Lemma exceeds_beyond (nums : list Z) (k : nat) :
  (1 <= length nums)%nat -> (length nums <= k)%nat -> exceeds nums k = false.
Proof.
  intros Hn Hk. unfold exceeds, acf_at.
  rewrite (correlate_at_beyond nums k Hk).
  destruct (ci_of_pos (length nums) Hn) as (c & -> & Hc & _).
  unfold of_Z, fdiv.
  destruct (Req_dec_T (IZR (correlate_at nums 0)) 0) as [E|E].
  - destruct (Req_dec_T 0 0) as [_|H0]; [reflexivity | contradiction].
  - cbn [fabs fgtb]. unfold Rdiv. rewrite Rmult_0_l, Rabs_R0.
    destruct (Rlt_dec c 0); [lra | reflexivity].
Qed.

(** The slice [autocorr[1:11]] after normalisation. *)
Lemma acf_slice (nums : list Z) :
  take 10 (drop 1
    (map (fun c => fdiv (of_Z c) (of_Z (correlate_at nums 0)))
         (map (correlate_at nums) (seq 0 (length nums)))))
  = map (acf_at nums) (seq 1 (10 `min` (length nums - 1))).
Proof.
  rewrite map_map, skipn_map, firstn_map, drop_seq, take_seq. reflexivity.
Qed.

Lemma lags_filter {A : Type} (f : nat -> A) (g : A -> bool) (l : list nat) :
  map fst (filter (fun iv => g iv.2 = true) (zip l (map f l)))
  = filter (fun k => g (f k) = true) l.
Proof.
  induction l as [|k l IH]; [reflexivity|].
  simpl. rewrite !filter_cons. simpl.
  destruct (decide (g (f k) = true)); simpl; rewrite IH; reflexivity.
Qed.

Lemma existsb_map_seq {A : Type} (g : A -> bool) (f : nat -> A) (l : list nat) :
  existsb g (map f l) = false <-> (forall k, In k l -> g (f k) = false).
Proof.
  induction l as [|k l IH]; simpl.
  - split; [intros _ k [] | reflexivity].
  - rewrite orb_false_iff, IH. split.
    + intros [Hk Hl] j [<-|Hj]; auto.
    + intros Hall. split; [apply Hall; auto | intros j Hj; apply Hall; auto].
Qed.

Lemma fgtb_irrefl (a : float) : fgtb a a = false.
Proof.
  destruct a; simpl; try reflexivity. destruct (Rlt_dec x x); [lra | reflexivity].
Qed.

Lemma fgtb_step (y a b : float) :
  fgtb y a = false -> fgtb b a = true -> fgtb y b = false.
Proof.
  destruct y as [y| | |], a as [a| | |], b as [b| | |]; simpl;
    try reflexivity; try discriminate;
    repeat match goal with
           | |- context [Rlt_dec ?u ?v] => destruct (Rlt_dec u v)
           end;
    try reflexivity; try discriminate; intros; lra.
Qed.

Lemma fgtb_nan_r (y : float) : fgtb y NaN = false.
Proof. destruct y; reflexivity. Qed.

Lemma fmax_cases (a b : float) :
  ((a = NaN \/ b = NaN) /\ fmax a b = NaN) \/
  (fmax a b = if fgtb b a then b else a).
Proof. destruct a, b; simpl; auto. Qed.

Lemma is_max_step (a b : float) (seen : list float) :
  is_max a seen -> is_max (fmax a b) (seen ++ [b]).
Proof.
  intros [Hin Hmax]. destruct (fmax_cases a b) as [[Hnan ->] | ->].
  - split.
    + apply in_or_app. destruct Hnan as [<-| <-]; [left; exact Hin | right; left; reflexivity].
    + intros y _. apply fgtb_nan_r.
  - destruct (fgtb b a) eqn:Eba.
    + split; [apply in_or_app; right; left; reflexivity|].
      intros y Hy. apply in_app_or in Hy. destruct Hy as [Hy|[<-|[]]].
      * apply (fgtb_step y a b); auto.
      * apply fgtb_irrefl.
    + split; [apply in_or_app; left; exact Hin|].
      intros y Hy. apply in_app_or in Hy. destruct Hy as [Hy|[<-|[]]]; auto.
Qed.

Lemma foldl_fmax_is_max (xs : list float) :
  forall acc seen, is_max acc seen -> is_max (foldl fmax acc xs) (seen ++ xs).
Proof.
  induction xs as [|b xs IH]; intros acc seen Hacc.
  - rewrite app_nil_r. exact Hacc.
  - cbn [foldl]. replace (seen ++ b :: xs) with ((seen ++ [b]) ++ xs)
      by (rewrite <- app_assoc; reflexivity).
    apply IH, is_max_step, Hacc.
Qed.

(** [np.max] returns an element of the array that no element exceeds. *)
Lemma np_max_spec (l : list float) (m : float) :
  np_max l = OK m -> is_max m l.
Proof.
  destruct l as [|x xs]; [discriminate|]. intros [= <-].
  apply (foldl_fmax_is_max xs x [x]). split; [left; reflexivity|].
  intros y [<-|[]]. apply fgtb_irrefl.
Qed.

Lemma test_independence_eval (h : heap) :
  numbers h <> [] ->
  test_independence h
  = (match np_max (map fabs (map (acf_at (numbers h))
                                 (seq 1 (10 `min` (length (numbers h) - 1))))) with
     | OK mx =>
         OK (IndependenceResult mx
               (filter (fun k => exceeds (numbers h) k = true)
                       (seq 1 (10 `min` (length (numbers h) - 1))))
               (negb (existsb (fun v => fgtb (fabs v) (ci_of (length (numbers h))))
                              (map (acf_at (numbers h))
                                   (seq 1 (10 `min` (length (numbers h) - 1)))))))
     | Raise e => Raise e
     end, h).
Proof.
  intros Hne. destruct h as [t nums]. cbn [numbers] in *.
  unfold test_independence, bind, get_numbers, lift. cbn [numbers fst snd].
  assert (Ha : np_autocorrelate nums
               = OK (map (correlate_at nums) (seq 0 (length nums))))
    by (destruct nums; [contradiction | reflexivity]).
  rewrite Ha.
  assert (Hi : index (S := heap) (map (correlate_at nums) (seq 0 (length nums))) 0
               = ret (correlate_at nums 0))
    by (destruct nums; [contradiction | reflexivity]).
  rewrite Hi. unfold ret at 1.
  rewrite acf_slice, length_map, length_seq.
  change (fdiv (Fin (196 / 100)) (fsqrt (of_Z (Z.of_nat (length nums)))))
    with (ci_of (length nums)).
  rewrite (lags_filter (acf_at nums)
             (fun v => fgtb (fabs v) (ci_of (length nums)))).
  destruct (np_max _); reflexivity.
Qed.

Lemma filter_none {A : Type} (g : A -> bool) (l : list A) :
  (forall x, In x l -> g x = false) -> filter (fun x => g x = true) l = [].
Proof.
  induction l as [|x l IH]; intros Hall; [reflexivity|].
  rewrite filter_cons. destruct (decide (g x = true)) as [E|_].
  - rewrite (Hall x) in E by (left; reflexivity). discriminate.
  - apply IH. intros y Hy. apply Hall. right. exact Hy.
Qed.

(** Beyond the sequence the coefficient is [0] or nan in absolute value. *)
Lemma fabs_acf_beyond (nums : list Z) (k : nat) :
  (length nums <= k)%nat ->
  fabs (acf_at nums k) = NaN \/ fabs (acf_at nums k) = Fin 0.
Proof.
  intros Hk. unfold acf_at. rewrite (correlate_at_beyond nums k Hk).
  unfold of_Z, fdiv.
  destruct (Req_dec_T (IZR (correlate_at nums 0)) 0) as [E|E].
  - destruct (Req_dec_T 0 0) as [_|H0]; [left; reflexivity | contradiction].
  - right. cbn [fabs]. unfold Rdiv. rewrite Rmult_0_l, Rabs_R0. reflexivity.
Qed.

Lemma fgtb_zero_fabs (a : float) : fgtb (Fin 0) (fabs a) = false.
Proof.
  destruct a as [x| | |]; simpl; try reflexivity.
  pose proof (Rabs_pos x). destruct (Rlt_dec (Rabs x) 0); [lra | reflexivity].
Qed.

(** The independence test on at least two values: what it returns, in
    terms of the coefficients [acf_at], the band [ci_of] and the
    significance test [exceeds]. *)
Lemma test_independence_char :
  forall (t : StatisticalTester) (nums : list Z),
    (2 <= length nums)%nat ->
    exists mx lags verdict,
      fst (test_independence (Heap t nums))
      = OK (IndependenceResult mx lags verdict) /\
      ci_of (length nums) = Fin (196 / 100 / sqrt (INR (length nums))) /\
      is_max mx (map (fun k => fabs (acf_at nums k))
                     (seq 1 (10 `min` (length nums - 1)))) /\
      (forall k, (1 <= k <= 10)%nat -> fgtb (fabs (acf_at nums k)) mx = false) /\
      lags = filter (fun k => exceeds nums k = true) (seq 1 10) /\
      (verdict = true <-> forall k, (1 <= k <= 10)%nat -> exceeds nums k = false).
Proof.
  intros t nums Hlen.
  assert (Hne : numbers (Heap t nums) <> []) by (destruct nums; [simpl in Hlen; lia | discriminate]).
  rewrite (test_independence_eval _ Hne). cbn [numbers fst].
  set (m := (10 `min` (length nums - 1))%nat).
  assert (Hm : (1 <= m <= 10)%nat) by (unfold m; lia).
  assert (Hbeyond : forall k, (m < k <= 10)%nat -> (length nums <= k)%nat)
    by (unfold m; intros; lia).
  destruct (np_max (map fabs (map (acf_at nums) (seq 1 m)))) as [mx|e] eqn:Emax.
  2:{ destruct m as [|m']; [lia | discriminate Emax]. }
  apply np_max_spec in Emax. rewrite map_map in Emax.
  eexists _, _, _. split; [reflexivity|].
  split.
  { destruct (ci_of_pos (length nums) ltac:(lia)) as (c & -> & _ & ->). reflexivity. }
  split; [exact Emax|].
  split.
  { intros k Hk. destruct (le_lt_dec k m) as [Hkm|Hkm].
    - apply Emax. apply in_map_iff. exists k. split; [reflexivity|].
      apply in_seq. lia.
    - destruct Emax as [Hin _]. apply in_map_iff in Hin. destruct Hin as (j & <- & _).
      destruct (fabs_acf_beyond nums k (Hbeyond k ltac:(lia))) as [-> | ->].
      + reflexivity.
      + apply fgtb_zero_fabs. }
  split.
  { replace 10%nat with (m + (10 - m))%nat at 1 by lia.
    rewrite seq_app, filter_app.
    rewrite (filter_none (exceeds nums) (seq (1 + m) (10 - m))).
    - rewrite app_nil_r. reflexivity.
    - intros k Hk. apply in_seq in Hk.
      apply exceeds_beyond; [lia | apply Hbeyond; lia]. }
  rewrite negb_true_iff.
  rewrite (existsb_map_seq (fun v => fgtb (fabs v) (ci_of (length nums)))
             (acf_at nums) (seq 1 m)).
  split.
  - intros Hall k Hk. destruct (le_lt_dec k m) as [Hkm|Hkm].
    + apply Hall. apply in_seq. lia.
    + apply exceeds_beyond; [lia | apply Hbeyond; lia].
  - intros Hall k Hk. apply in_seq in Hk. apply Hall. lia.
Qed.

(** ** The coefficients of the independence test and the autocorrelation *)













(** Beyond the end of the sequence the lag sum is empty. *)
Lemma autocorrelation_beyond (x : list Z) (k : nat) :
  (length x <= k)%nat -> autocorrelation x k = 0%R.
Proof.
  intros Hk. unfold autocorrelation, lag_product_sum at 1.
  replace (length x - k)%nat with 0%nat by lia.
  cbn [seq map foldr]. unfold Rdiv. apply Rmult_0_l.
Qed.








(** ** The battery *)

(** [np.bincount] accepts every array of non-negative integers. *)
Lemma bincount_ok (nums : list Z) (N : Z) :
  Forall (fun x => 0 <= x) nums -> 0 <= N ->
  exists counts, np_bincount nums N = OK counts.
Proof.
  intros Hpos HN. unfold np_bincount.
  assert (Hneg : existsb (fun v => v <? 0) nums = false).
  { induction Hpos as [|x l Hx _ IH]; simpl; [reflexivity|].
    rewrite IH. destruct (Z.ltb_spec x 0); [lia | reflexivity]. }
  rewrite Hneg. destruct (Z.ltb_spec N 0); [lia|]. simpl. eauto.
Qed.

(** In range, the bins are exactly the [N] values [0 .. N-1]. *)
Lemma bincount_in_range (nums : list Z) (N : Z) :
  Forall (fun x => 0 <= x < N) nums -> 0 <= N ->
  np_bincount nums N
  = OK (map (fun v => Z.of_nat (count_occ Z.eq_dec nums v)) (seqZ 0 N)).
Proof.
  intros Hin HN. unfold np_bincount.
  assert (Hneg : existsb (fun v => v <? 0) nums = false).
  { induction Hin as [|x l Hx _ IH]; simpl; [reflexivity|].
    rewrite IH. destruct (Z.ltb_spec x 0); [lia | reflexivity]. }
  assert (Hmax : foldr (fun v m => Z.max (v + 1) m) 0 nums <= N).
  { clear Hneg. induction Hin as [|x l Hx _ IH]; cbn [fold_right]; cbv beta in *; lia. }
  rewrite Hneg. destruct (Z.ltb_spec N 0); [lia|]. simpl.
  replace (Z.max N _) with N by lia. reflexivity.
Qed.

Section BatteryRun.
Context {scipy : ScipyStats}.

(** The frequencies handed to [stats.chisquare]. *)
Lemma test_uniformity_eval (h : heap) (observed : list Z) :
  np_bincount (numbers h) (self_N (self h)) = OK observed ->
  0 <= self_N (self h) ->
  test_uniformity h
  = (match chisquare observed
             (replicate (Z.to_nat (self_N (self h)))
                (fdiv (fmul (Fin 1) (of_Z (self_count (self h))))
                      (of_Z (self_N (self h))))) with
     | OK r => OK (UniformityResult r.1 r.2 (fgtb r.2 alpha))
     | Raise e => Raise e
     end, h).
Proof.
  intros Hb HN. unfold test_uniformity, bind, get_numbers, get_N, get_count, lift.
  cbn [fst snd]. rewrite Hb. unfold np_ones.
  destruct (Z.ltb_spec (self_N (self h)) 0); [lia|].
  set (e := fdiv _ _).
  assert (Hm : map (fun o => fdiv (fmul o (of_Z (self_count (self h))))
                               (of_Z (self_N (self h))))
                   (replicate (Z.to_nat (self_N (self h))) (Fin 1))
               = replicate (Z.to_nat (self_N (self h))) e).
  { generalize (Z.to_nat (self_N (self h))). intros n.
    induction n as [|n IH]; [reflexivity|]. simpl. rewrite IH. reflexivity. }
  rewrite Hm. destruct (chisquare _ _); reflexivity.
Qed.

Lemma test_gap_distribution_eval (h : heap) :
  test_gap_distribution h
  = (match kstest_expon (compute_gaps (numbers h)) (Fin 0)
             (fdiv (Fin 1) (fdiv (Fin 1) (np_mean (map of_Z (compute_gaps (numbers h)))))) with
     | OK r => OK (GapResult (np_mean (map of_Z (compute_gaps (numbers h))))
                             (np_std (map of_Z (compute_gaps (numbers h))))
                             r.1 r.2 (fgtb r.2 alpha))
     | Raise e => Raise e
     end, h).
Proof.
  unfold test_gap_distribution, bind, get_numbers, lift. cbn [fst snd].
  destruct (kstest_expon _ _ _); reflexivity.
Qed.

(** A sequence of length 1 aborts the battery: the slice of lags is empty
    and [np.max] raises in the independence test, unless the uniformity
    test has raised before. *)
Lemma run_all_tests_singleton (t : StatisticalTester) (x : Z) :
  exists e, fst (run_all_tests (Heap t [x])) = Raise e.
Proof.
  unfold run_all_tests. cbn [run_tests]. unfold bind at 1.
  pose proof (readonly_test_uniformity (Heap t [x])) as Hro.
  destruct (test_uniformity (Heap t [x])) as [[r|e] h1]; [|eauto].
  simpl in Hro. subst h1. unfold bind at 1.
  rewrite test_independence_eval by discriminate. simpl. eauto.
Qed.
End BatteryRun.

Lemma wrap64_0 : wrap64 0 = 0.
Proof. reflexivity. Qed.

Lemma fdiv_zero_num (d : R) :
  fdiv (Fin 0) (Fin d) = NaN \/ fdiv (Fin 0) (Fin d) = Fin 0.
Proof.
  unfold fdiv. destruct (Req_dec_T d 0) as [_|_].
  - destruct (Req_dec_T 0 0) as [_|H0]; [left; reflexivity | contradiction].
  - right. f_equal. unfold Rdiv. apply Rmult_0_l.
Qed.

(** With no element of the second kind the Z statistic of the runs test is
    [0 / 0]. *)
Lemma runs_z_single_kind (n : Z) :
  fdiv (fsub (of_Z 1) (expected_runs_of n 0)) (std_runs_of n 0) = NaN.
Proof.
  unfold expected_runs_of, std_runs_of, runs_variance, runs_var_num, of_Z.
  rewrite Z.mul_0_r, wrap64_0, Z.mul_0_l, wrap64_0.
  destruct (fdiv_zero_num (IZR (wrap64 (n + 0)))) as [-> | ->].
  { reflexivity. }
  destruct (fdiv_zero_num (IZR (runs_var_den n 0))) as [-> | ->].
  { reflexivity. }
  rewrite fsqrt_Fin, sqrt_0 by lra. cbn [fadd fsub fneg].
  replace (1 + - (1 + 0))%R with 0%R by lra.
  apply fdiv_zero_zero.
Qed.

Lemma count_eq_constant (n : nat) (v : Z) :
  count_eq (replicate n v) v = Z.of_nat n.
Proof.
  unfold count_eq. rewrite count_occ_replicate.
  destruct (Z.eq_dec v v); [reflexivity | contradiction].
Qed.

(** What the gap loop keeps: a gap or a new key for every element, and the
    keys are the values met. *)
Lemma gap_loop_count (nums : list Z) :
  forall i gaps (last_pos : gmap Z nat),
    (length (gap_loop i nums gaps last_pos).1
     + size (gap_loop i nums gaps last_pos).2
     = length gaps + size last_pos + length nums)%nat.
Proof.
  induction nums as [|num rest IH]; intros i gaps last_pos.
  - simpl. lia.
  - cbn [gap_loop]. rewrite IH.
    destruct (last_pos !! num) as [j|] eqn:E.
    + rewrite map_size_insert_Some by (rewrite E; eauto).
      rewrite length_app. simpl. lia.
    + rewrite map_size_insert_None by exact E. simpl. lia.
Qed.

Lemma gap_loop_dom (nums : list Z) :
  forall i gaps (last_pos : gmap Z nat),
    dom (gap_loop i nums gaps last_pos).2 = dom last_pos ∪ list_to_set nums.
Proof.
  induction nums as [|num rest IH]; intros i gaps last_pos.
  - simpl. set_solver.
  - cbn [gap_loop]. rewrite IH, dom_insert_L, list_to_set_cons. set_solver.
Qed.

(** Without a repeated value the gap loop records nothing. *)
Lemma compute_gaps_no_repeat (nums : list Z) :
  NoDup nums -> compute_gaps nums = [].
Proof.
  intros Hnd.
  pose proof (size_list_to_set (C := gset Z) nums Hnd) as Hs.
  pose proof (gap_loop_count nums 0 [] ∅) as Hc.
  pose proof (gap_loop_dom nums 0 [] ∅) as Hd.
  rewrite <- (size_dom (D := gset Z)) in Hc. rewrite Hd in Hc.
  rewrite dom_empty_L, union_empty_l_L, map_size_empty in Hc.
  unfold compute_gaps. destruct (gap_loop 0 nums [] ∅).1; [reflexivity|].
  simpl in Hc. lia.
Qed.

Section BatteryFive.
Context {scipy : ScipyStats}.

(** Where the library answers nan on an empty sample, the gap test on a
    sequence without a repeated value returns a record of nan. *)
Lemma test_gap_distribution_nan (t : StatisticalTester) (nums : list Z) :
  NoDup nums ->
  kstest_expon [] (Fin 0) NaN = OK (NaN, NaN) ->
  test_gap_distribution (Heap t nums)
  = (OK (GapResult NaN NaN NaN NaN false), Heap t nums).
Proof.
  intros Hnd Hks.
  rewrite test_gap_distribution_eval. cbn [numbers].
  rewrite (compute_gaps_no_repeat nums Hnd).
  cbn [map]. unfold np_std, np_mean, np_sum. cbn [foldl length map].
  change (of_Z (Z.of_nat 0)) with (Fin 0). rewrite fdiv_zero_zero.
  cbn [fdiv]. rewrite Hks. reflexivity.
Qed.

Lemma test_uniformity_ok_bincount (h : heap) :
  is_ok (fst (test_uniformity h)) = true ->
  exists counts, np_bincount (numbers h) (self_N (self h)) = OK counts.
Proof.
  unfold test_uniformity, bind, get_numbers, get_N, lift. cbn [fst snd].
  destruct (np_bincount (numbers h) (self_N (self h))) as [counts|e]; [eauto|].
  discriminate.
Qed.

(** C3 (amended): the battery has no isolation between its tests; it
    returns when every test returns.  Take a sequence of at least two
    values on which the uniformity test returns and, if a value repeats,
    the gap test returns, and a library whose [kstest] answers nan on an
    empty sample.  The battery returns exactly five records, those of the
    single tests, in the order uniformity, independence, gap, runs,
    entropy.  The two degenerate inputs of the claim do not abort it: with
    no repeated value the gap record is nan throughout (mean, deviation,
    statistic, p-value) with the verdict not exponential; on a constant
    sequence the runs record carries one run and a nan Z statistic. *)
Theorem run_all_tests_five :
  forall (t : StatisticalTester) (nums : list Z),
    (2 <= length nums)%nat ->
    is_ok (fst (test_uniformity (Heap t nums))) = true ->
    (~ NoDup nums -> is_ok (fst (test_gap_distribution (Heap t nums))) = true) ->
    kstest_expon [] (Fin 0) NaN = OK (NaN, NaN) ->
    exists r1 r2 r3 r4 r5,
      fst (run_all_tests (Heap t nums)) = OK [r1; r2; r3; r4; r5] /\
      fst (test_uniformity (Heap t nums)) = OK r1 /\
      fst (test_independence (Heap t nums)) = OK r2 /\
      fst (test_gap_distribution (Heap t nums)) = OK r3 /\
      fst (test_runs (Heap t nums)) = OK r4 /\
      fst (test_entropy (Heap t nums)) = OK r5 /\
      map kind [r1; r2; r3; r4; r5]
      = [uniformity; independence; gap; runs; entropy] /\
      (NoDup nums -> r3 = GapResult NaN NaN NaN NaN false) /\
      (forall v, nums = replicate (length nums) v ->
                 exists e p b, r4 = RunsResult 1 e NaN p b).
Proof.
  intros t nums Hlen Hu Hrep Hks.
  assert (Hg : is_ok (fst (test_gap_distribution (Heap t nums))) = true).
  { destruct (decide (NoDup nums)) as [Hnd|Hnd]; [|exact (Hrep Hnd)].
    rewrite (test_gap_distribution_nan t nums Hnd Hks). reflexivity. }
  set (h := Heap t nums) in *.
  destruct (test_uniformity_ok_bincount h Hu) as (counts & Hb).
  pose proof (readonly_test_uniformity h) as Ru.
  pose proof (readonly_test_gap_distribution h) as Rg.
  destruct (test_uniformity h) as [[r1|e1] hu] eqn:Eu; [|discriminate Hu].
  destruct (test_gap_distribution h) as [[r3|e3] hg] eqn:Eg; [|discriminate Hg].
  cbn [snd] in Ru, Rg. subst hu hg.
  destruct (test_independence_char t nums Hlen)
    as (mx & lags & verdict & Ei & _).
  change (Heap t nums) with h in Ei.
  pose proof (readonly_test_independence h) as Ri.
  destruct (test_independence h) as [r2' hi] eqn:Ei'.
  cbn [fst snd] in Ei, Ri. subst hi r2'.
  assert (H0 : exists x, numbers h !! 0%nat = Some x).
  { unfold h. cbn [numbers]. destruct nums as [|x l]; [simpl in Hlen; lia | eauto]. }
  destruct H0 as (x & H0).
  destruct (test_runs_eval h x H0) as (e & z & p & b & Er & He & Hz & Hp & Hbv).
  pose proof (test_entropy_eval h counts Hb) as Ee.
  exists r1, (IndependenceResult mx lags verdict), r3,
    (RunsResult (count_runs (numbers h)) e z p b).
  eexists.
  split.
  { unfold run_all_tests. cbn [run_tests]. unfold bind.
    rewrite Eu, Ei', Eg, Er, Ee. reflexivity. }
  rewrite Er, Ee. cbn [fst].
  repeat (split; [reflexivity|]).
  split.
  { cbn [map kind].
    assert (K1 : kind r1 = uniformity).
    { unfold test_uniformity, bind, get_numbers, get_N, get_count, lift in Eu.
      cbn [fst snd] in Eu. rewrite Hb in Eu.
      destruct (np_ones (self_N (self h))); [|discriminate].
      destruct (chisquare _ _); [|discriminate].
      injection Eu as <-. reflexivity. }
    assert (K3 : kind r3 = gap).
    { rewrite test_gap_distribution_eval in Eg.
      destruct (kstest_expon _ _ _); [|discriminate].
      injection Eg as <-. reflexivity. }
    rewrite K1, K3. reflexivity. }
  split.
  { intros Hnd. unfold h in Eg.
    rewrite (test_gap_distribution_nan t nums Hnd Hks) in Eg.
    injection Eg as <-. reflexivity. }
  intros v Hv. unfold h in *. cbn [numbers] in *.
  assert (Hx : x = v).
  { rewrite Hv in H0. apply lookup_replicate in H0. tauto. }
  subst x.
  assert (Hcr : count_runs nums = 1) by (rewrite Hv; apply count_runs_constant).
  assert (Hce : count_eq nums v = Z.of_nat (length nums)).
  { rewrite Hv at 1. apply count_eq_constant. }
  exists e, p, b. f_equal.
  - exact Hcr.
  - rewrite Hz, He, Hcr, Hce, Z.sub_diag, wrap64_0.
    apply runs_z_single_kind.
Qed.
End BatteryFive.

Lemma run_all_tests_five_witness :
  exists r1 r2 r3 r4 r5,
    fst (run_all_tests (scipy := scipy_nan) (Heap (Tester 2 2) [0; 1]))
    = OK [r1; r2; r3; r4; r5] /\
    fst (test_uniformity (scipy := scipy_nan) (Heap (Tester 2 2) [0; 1])) = OK r1 /\
    fst (test_independence (Heap (Tester 2 2) [0; 1])) = OK r2 /\
    fst (test_gap_distribution (scipy := scipy_nan) (Heap (Tester 2 2) [0; 1])) = OK r3 /\
    fst (test_runs (scipy := scipy_nan) (Heap (Tester 2 2) [0; 1])) = OK r4 /\
    fst (test_entropy (Heap (Tester 2 2) [0; 1])) = OK r5 /\
    map kind [r1; r2; r3; r4; r5]
    = [uniformity; independence; gap; runs; entropy] /\
    (NoDup [0; 1] -> r3 = GapResult NaN NaN NaN NaN false) /\
    (forall v, [0; 1] = replicate (length [0; 1]) v ->
               exists e p b, r4 = RunsResult 1 e NaN p b).
Proof.
  apply (run_all_tests_five (scipy := scipy_nan) (Tester 2 2) [0; 1]).
  - simpl. lia.
  - reflexivity.
  - intros Hrep. exfalso. apply Hrep.
    apply (bool_decide_unpack _). vm_compute. exact I.
  - reflexivity.
Defined.

(** C3 (as stated, refuted): it is not the case that the battery returns
    five records on every non-empty sequence; on the one-element sequence
    [[5]] it raises. *)
Lemma run_all_tests_singleton_aborts :
  ~ (forall (scipy : ScipyStats) (t : StatisticalTester) (nums : list Z),
        nums <> [] ->
        exists rs, fst (run_all_tests (Heap t nums)) = OK rs /\ length rs = 5%nat).
Proof.
  intros H.
  destruct (H scipy_nan (Tester 10 1) [5] ltac:(discriminate)) as (rs & E & _).
  destruct (run_all_tests_singleton (scipy := scipy_nan) (Tester 10 1) 5) as (e & E').
  rewrite E' in E. discriminate.
Qed.

(** ** The uniformity test *)

(** Under the model of the library and a declared [N >= 1], a sequence in
    [[0, N)] is binned into exactly [N] bins by value, every expected
    frequency is the declared count over [N], the statistic is Pearson's
    sum, the p-value has [N - 1] degrees of freedom and the verdict is
    "uniform" exactly when the p-value exceeds 0.05. *)
Lemma test_uniformity_model (chi2_sf : float -> Z -> float)
      (ks_expon : list Z -> float -> float -> float * float)
      (Phi : float -> float) (t : StatisticalTester) (nums : list Z) :
  1 <= self_N t ->
  Forall (fun x => 0 <= x < self_N t) nums ->
  exists observed stat,
    fst (test_uniformity (scipy := scipy_model chi2_sf ks_expon Phi) (Heap t nums))
    = OK (UniformityResult stat (chi2_sf stat (self_N t - 1))
                           (fgtb (chi2_sf stat (self_N t - 1)) (Fin (5 / 100)))) /\
    observed = map (fun v => Z.of_nat (count_occ Z.eq_dec nums v)) (seqZ 0 (self_N t)) /\
    Z.of_nat (length observed) = self_N t /\
    stat = chisquare_statistic observed
             (replicate (Z.to_nat (self_N t))
                        (Fin (1 * IZR (self_count t) / IZR (self_N t)))).
Proof.
  intros HN Hin.
  pose proof (bincount_in_range nums (self_N t) Hin ltac:(lia)) as Hb.
  assert (Hlen : Z.of_nat (length (map (fun v => Z.of_nat (count_occ Z.eq_dec nums v))
                                       (seqZ 0 (self_N t)))) = self_N t).
  { rewrite length_map, length_seqZ. lia. }
  eexists _, _. split; [|split; [reflexivity|split; [exact Hlen|reflexivity]]].
  rewrite (test_uniformity_eval (scipy := scipy_model chi2_sf ks_expon Phi)
             (Heap t nums) _ Hb) by (cbn; lia).
  cbn [fst self self_N self_count chisquare scipy_model fmul]. unfold of_Z.
  cbn [fmul]. rewrite fdiv_Fin by (apply not_0_IZR; lia).
  cbn [fst snd]. rewrite Hlen. reflexivity.
Qed.

Section BatteryUniformity.
Context {scipy : ScipyStats}.

(** C4 (the defect): a tester declared with [N = 2] and [count = 4], given
    the sequence [[0, 1]] of length 2, hands [stats.chisquare] the observed
    frequencies [[1, 1]] and the expected frequencies [[2, 2]], the declared
    count over [N], not [[1, 1]], the length of the sequence over [N];
    Pearson's statistic on these is 1 where the frequencies of the claim
    give 0. *)
Theorem test_uniformity_expected_declared_count :
  fst (test_uniformity (Heap (Tester 2 4) [0; 1]))
  = match chisquare [1; 1] [Fin 2; Fin 2] with
    | OK r => OK (UniformityResult r.1 r.2 (fgtb r.2 alpha))
    | Raise e => Raise e
    end /\
  fdiv (of_Z (Z.of_nat (length [0; 1]))) (of_Z 2) = Fin 1 /\
  chisquare_statistic [1; 1] [Fin 2; Fin 2] = Fin 1 /\
  chisquare_statistic [1; 1] [Fin 1; Fin 1] = Fin 0.
Proof.
  split; [|split; [|split]].
  - rewrite (test_uniformity_eval (Heap (Tester 2 4) [0; 1]) [1; 1])
      by (reflexivity || (cbn; lia)).
    cbn [fst self self_N self_count]. unfold of_Z. cbn [fmul].
    rewrite fdiv_Fin by lra.
    replace (1 * 4 / 2)%R with 2%R by lra. reflexivity.
  - change (fdiv (Fin 2) (Fin 2) = Fin 1).
    rewrite fdiv_Fin by lra. f_equal. lra.
  - unfold chisquare_statistic, np_sum, of_Z.
    cbn [zip_with fsub fneg fadd fmul foldl].
    rewrite !fdiv_Fin by lra. cbn [fadd foldl]. f_equal. lra.
  - unfold chisquare_statistic, np_sum, of_Z.
    cbn [zip_with fsub fneg fadd fmul foldl].
    rewrite !fdiv_Fin by lra. cbn [fadd foldl]. f_equal. lra.
Qed.
End BatteryUniformity.

Section BatteryRunsExact.
Context {scipy : ScipyStats}.

(** Within [int64], that is for every sequence of 2 to 65536 values, the
    runs test reports the number of maximal blocks, the Wald-Wolfowitz mean
    for [n1] occurrences of the first value and [n2] other elements, the Z
    statistic over the square root of the Wald-Wolfowitz variance, the
    two-sided normal p-value, and the verdict "random" exactly when that
    p-value exceeds 0.05. *)
Lemma test_runs_exact (t : StatisticalTester) (x : Z) (xs : list Z) :
  2 <= Z.of_nat (length (x :: xs)) <= 65536 ->
  exists n1 n2 z p,
    fst (test_runs (Heap t (x :: xs)))
    = OK (RunsResult (Z.of_nat (length (blocks (x :: xs))))
                     (Fin (wald_wolfowitz_mean n1 n2)) z p (fgtb p (Fin (5 / 100)))) /\
    n1 = Z.of_nat (count_occ Z.eq_dec (x :: xs) x) /\
    n2 = Z.of_nat (length (x :: xs)) - n1 /\
    z = fdiv (Fin (IZR (Z.of_nat (length (blocks (x :: xs))))
                   - wald_wolfowitz_mean n1 n2))
             (fsqrt (Fin (wald_wolfowitz_variance n1 n2))) /\
    p = fmul (Fin 2) (fsub (Fin 1) (norm_cdf (fabs z))).
Proof.
  intros Hlen.
  destruct (test_runs_eval (Heap t (x :: xs)) x eq_refl)
    as (e & z & p & b & E & He & Hz & Hp & Hb).
  cbn [numbers] in *.
  pose proof (count_occ_bound Z.eq_dec x (x :: xs)) as Hbound.
  set (n1 := count_eq (x :: xs) x) in *.
  assert (Hn1 : 0 <= n1 <= Z.of_nat (length (x :: xs)))
    by (subst n1; unfold count_eq; lia).
  rewrite (wrap64_small (Z.of_nat (length (x :: xs)) - n1)) in He, Hz by lia.
  set (n2 := Z.of_nat (length (x :: xs)) - n1) in *.
  destruct (runs_moments_exact n1 n2) as [Hmean Hvar]; [lia | lia | lia |].
  rewrite count_runs_blocks in E, Hz by discriminate.
  exists n1, n2, z, p. rewrite E. cbn [fst].
  split; [|split; [reflexivity|split; [reflexivity|split; [|exact Hp]]]].
  - rewrite He, Hmean, Hb. reflexivity.
  - rewrite Hz, He, Hmean. unfold std_runs_of. rewrite Hvar. reflexivity.
Qed.
End BatteryRunsExact.

(** * Further properties of the code *)

Lemma Qneg_bool_false (q : Q) : Qneg_bool q = false <-> (0 <= q)%Q.
Proof.
  unfold Qneg_bool. rewrite negb_false_iff. apply Qle_bool_iff.
Qed.

Lemma Qneg_bool_true (q : Q) : Qneg_bool q = true <-> (q < 0)%Q.
Proof.
  unfold Qneg_bool. rewrite negb_true_iff. split.
  - intros H. apply Qnot_le_lt. intros Hle. apply Qle_bool_iff in Hle. congruence.
  - intros H. destruct (Qle_bool 0 q) eqn:E; [|reflexivity].
    apply Qle_bool_iff in E. exfalso. exact (Qlt_not_le _ _ H E).
Qed.

(** With an upper bound below the lower one, [np.clip] returns the upper
    bound. *)
Lemma clipQ_collapse (x : Q) (m : Z) :
  m < 0 -> astype_int (clipQ x 0 (inject_Z m)) = m.
Proof.
  intros Hm. unfold clipQ.
  assert (Hle : (inject_Z m <= Qmax x 0)%Q).
  { apply Qle_trans with 0%Q; [unfold Qle; simpl; lia | apply Q.le_max_r]. }
  destruct (Q.min_spec (Qmax x 0) (inject_Z m)) as [[Hlt _]|[_ Heq]].
  - exfalso. exact (Qlt_not_le _ _ Hlt Hle).
  - unfold Qmin, GenericMinMax.gmin in *.
    destruct (Qmax x 0 ?= inject_Z m)%Q eqn:E.
    + apply Qeq_alt in E.
      assert (Hneg : (Qmax x 0 < 0)%Q).
      { rewrite E. unfold Qlt. simpl. lia. }
      exfalso. apply (Qlt_not_le _ _ Hneg). apply Q.le_max_r.
    + apply Qlt_alt in E. exfalso. exact (Qlt_not_le _ _ E Hle).
    + unfold astype_int, inject_Z. simpl. apply Z.quot_1_r.
Qed.

Lemma clipZ_collapse (x m : Z) : m < 0 -> clipZ x 0 m = m.
Proof. intros Hm. unfold clipZ. lia. Qed.

Lemma clamped_map {A : Type} (f : A -> Z) (N count : Z) (l : list A) :
  Z.of_nat (length l) = count ->
  (0 < N -> forall a, 0 <= f a <= N - 1) ->
  (N <= 0 -> forall a, f a = N - 1) ->
  clamped N count (map f l).
Proof.
  intros Hl Hpos Hneg. split; [|split].
  - rewrite length_map. exact Hl.
  - intros HN. apply Forall_forall. intros x Hx.
    apply list_elem_of_In, in_map_iff in Hx. destruct Hx as (a & <- & _). auto.
  - intros HN. apply Forall_forall. intros x Hx.
    apply list_elem_of_In, in_map_iff in Hx. destruct Hx as (a & <- & _). auto.
Qed.

Lemma clamped_clip_cast (N count : Z) (l : list Q) :
  Z.of_nat (length l) = count ->
  clamped N count (map astype_int (map (fun x => clipQ x 0 (inject_Z (N - 1))) l)).
Proof.
  intros Hl. rewrite map_map. apply clamped_map; [exact Hl | |].
  - intros HN a. apply clip_astype_range. exact HN.
  - intros HN a. apply clipQ_collapse. lia.
Qed.

Lemma np_draws_negative {A : Type} (size : Z) (f : Q -> A) (g : rng) :
  size < 0 -> np_draws size f g = (Raise ValueError, g).
Proof.
  intros Hs. unfold np_draws. destruct (Z.ltb_spec size 0); [reflexivity | lia].
Qed.

Lemma np_draws_length {A : Type} (size : Z) (f : Q -> A) (g : rng) :
  0 <= size ->
  exists l g', np_draws size f g = (OK l, g') /\ Z.of_nat (length l) = size.
Proof.
  intros Hs.
  destruct (np_draws_spec size f (fun _ => True) Hs (fun _ => I) g)
    as (l & g' & E & Hl & _).
  eauto.
Qed.

(** ** The samplers with a parameter: what they return or raise *)

Ltac params := cbn [default from_option Datatypes.id].

(** [normal_random]: a negative standard deviation (by default [N / 6]) or a
    negative [count] raises [ValueError]; otherwise the call returns [count]
    integers, each in [[0, N-1]] for a positive [N] and each equal to [N - 1]
    for [N <= 0], where [np.clip] gets an upper bound below its lower one.
    [N] and the bound [N - 1] are taken among the integers a double holds
    exactly. *)
Theorem normal_random_parameters :
  forall (N count : Z) (mean std : option Q) (g : rng),
    exact_double N -> exact_double (N - 1) ->
    ((default (inject_Z N / 6) std < 0)%Q \/ count < 0 ->
     normal_random N count mean std g = (Raise ValueError, g)) /\
    ((0 <= default (inject_Z N / 6) std)%Q -> 0 <= count ->
     exists l g', normal_random N count mean std g = (OK l, g') /\
                  clamped N count l).
Proof.
  intros N count mean std g _ _. unfold normal_random, np_normal.
  set (m := default (inject_Z N / 2)%Q mean).
  set (s := default (inject_Z N / 6)%Q std).
  split.
  - intros [Hs|Hc].
    + apply Qneg_bool_true in Hs. unfold bind. rewrite Hs. reflexivity.
    + unfold bind. destruct (Qneg_bool s); [reflexivity|].
      rewrite np_draws_negative by exact Hc. reflexivity.
  - intros Hs Hc. apply Qneg_bool_false in Hs. unfold bind. rewrite Hs.
    destruct (np_draws_length count (fun r => (m + s * r)%Q) g Hc)
      as (l & g' & -> & Hl).
    eexists _, _. split; [reflexivity|]. apply clamped_clip_cast. exact Hl.
Qed.

Lemma normal_random_parameters_witness :
  exact_double 0 /\ exact_double (0 - 1) /\
  (((default (inject_Z 0 / 6) None < 0)%Q \/ 3 < 0 ->
    normal_random 0 3 None None g0 = (Raise ValueError, g0)) /\
   ((0 <= default (inject_Z 0 / 6) None)%Q -> 0 <= 3 ->
    exists l g', normal_random 0 3 None None g0 = (OK l, g') /\ clamped 0 3 l)).
Proof.
  assert (H : exact_double 0) by (unfold exact_double; simpl; lia).
  assert (H' : exact_double (0 - 1)) by (unfold exact_double; simpl; lia).
  split; [exact H | split; [exact H'|]].
  apply (normal_random_parameters 0 3 None None g0 H H').
Defined.

(** [exponential_random]: a negative scale (by default [N / 4]) or a negative
    [count] raises [ValueError]; otherwise the call returns [count] integers,
    in [[0, N-1]] for a positive [N] and all equal to [N - 1] for [N <= 0].
    [N] and the bound [N - 1] are taken among the integers a double holds
    exactly. *)
Theorem exponential_random_parameters :
  forall (N count : Z) (scale : option Q) (g : rng),
    exact_double N -> exact_double (N - 1) ->
    ((default (inject_Z N / 4) scale < 0)%Q \/ count < 0 ->
     exponential_random N count scale g = (Raise ValueError, g)) /\
    ((0 <= default (inject_Z N / 4) scale)%Q -> 0 <= count ->
     exists l g', exponential_random N count scale g = (OK l, g') /\
                  clamped N count l).
Proof.
  intros N count scale g _ _. unfold exponential_random, np_exponential.
  set (s := default (inject_Z N / 4)%Q scale).
  split.
  - intros [Hs|Hc].
    + apply Qneg_bool_true in Hs. unfold bind. rewrite Hs. reflexivity.
    + unfold bind. destruct (Qneg_bool s); [reflexivity|].
      rewrite np_draws_negative by exact Hc. reflexivity.
  - intros Hs Hc. apply Qneg_bool_false in Hs. unfold bind. rewrite Hs.
    destruct (np_draws_length count (fun r => (s * Qabs r)%Q) g Hc)
      as (l & g' & -> & Hl).
    eexists _, _. split; [reflexivity|]. apply clamped_clip_cast. exact Hl.
Qed.

(** [poisson_random], for a rate (by default [N / 2]) the sampler can take: a
    negative rate or a negative [count] raises [ValueError]; otherwise the
    call returns [count] integers, in [[0, N-1]] for a positive [N] and all
    equal to [N - 1] for [N <= 0]. *)
Theorem poisson_random_parameters :
  forall (N count : Z) (lambda_param : option Q) (g : rng),
    exact_double N ->
    (default (inject_Z N / 2) lambda_param <= 9007199254740992)%Q ->
    ((default (inject_Z N / 2) lambda_param < 0)%Q \/ count < 0 ->
     poisson_random N count lambda_param g = (Raise ValueError, g)) /\
    ((0 <= default (inject_Z N / 2) lambda_param)%Q -> 0 <= count ->
     exists l g', poisson_random N count lambda_param g = (OK l, g') /\
                  clamped N count l).
Proof.
  intros N count lambda_param g _ _. unfold poisson_random, np_poisson.
  set (s := default (inject_Z N / 2)%Q lambda_param).
  split.
  - intros [Hs|Hc].
    + apply Qneg_bool_true in Hs. unfold bind. rewrite Hs. reflexivity.
    + unfold bind. destruct (Qneg_bool s); [reflexivity|].
      rewrite np_draws_negative by exact Hc. reflexivity.
  - intros Hs Hc. apply Qneg_bool_false in Hs. unfold bind. rewrite Hs.
    destruct (np_draws_length count
                (fun r => if Qeq_bool s 0 then 0 else Z.abs (Qfloor r)) g Hc)
      as (l & g' & -> & Hl).
    eexists _, _. split; [reflexivity|]. apply clamped_map; [exact Hl | |].
    + intros HN a. apply clipZ_range. exact HN.
    + intros HN a. apply clipZ_collapse. lia.
Qed.

(** [chi_square_random]: degrees of freedom [df <= 0] (by default
    [int(N / 2)]) or a negative [count] raise [ValueError]; otherwise the
    call returns [count] integers, in [[0, N-1]] for a positive [N] and all
    equal to [N - 1] for [N <= 0].  [N] and the bound [N - 1] are taken
    among the integers a double holds exactly. *)
Theorem chi_square_random_parameters :
  forall (N count : Z) (df : option Z) (g : rng),
    exact_double N -> exact_double (N - 1) ->
    (default (N ÷ 2) df <= 0 \/ count < 0 ->
     chi_square_random N count df g = (Raise ValueError, g)) /\
    (0 < default (N ÷ 2) df -> 0 <= count ->
     exists l g', chi_square_random N count df g = (OK l, g') /\
                  clamped N count l).
Proof.
  intros N count df g _ _. unfold chi_square_random, np_chisquare.
  rewrite default_df.
  set (d := default (N ÷ 2) df).
  split.
  - intros [Hd|Hc].
    + unfold bind. destruct (Z.leb_spec d 0); [reflexivity | lia].
    + unfold bind. destruct (d <=? 0); [reflexivity|].
      rewrite np_draws_negative by exact Hc. reflexivity.
  - intros Hd Hc. unfold bind. destruct (Z.leb_spec d 0); [lia|].
    destruct (np_draws_length count Qabs g Hc) as (l & g' & -> & Hl).
    eexists _, _. split; [reflexivity|]. apply clamped_clip_cast. exact Hl.
Qed.

(** [uniform_random]: a [count] of zero gives the empty array whatever [N]
    is; otherwise [N <= 0] or a negative [count] raises [ValueError], and a
    positive [N] with a positive [count] gives [count] integers in
    [[0, N-1]]. *)
Theorem uniform_random_outcome :
  forall (N count : Z) (g : rng),
    exact_double N ->
    (count = 0 -> uniform_random N count g = (OK [], g)) /\
    (count <> 0 -> N <= 0 \/ count < 0 ->
     uniform_random N count g = (Raise ValueError, g)) /\
    (0 < N -> 0 < count ->
     exists l g', uniform_random N count g = (OK l, g') /\ in_range N count l).
Proof.
  intros N count g HD. unfold exact_double in HD.
  unfold uniform_random, np_randint. split; [|split].
  - intros ->. reflexivity.
  - intros Hc Hbad. destruct (Z.eqb_spec count 0); [contradiction|].
    destruct (Z.ltb_spec 9223372036854775808 N) as [H|_]; [lia|].
    cbn [orb Z.ltb Z.compare Z.opp].
    destruct (Z.leb_spec N 0); [reflexivity|].
    apply np_draws_negative. lia.
  - intros HN Hc.
    destruct (uniform_random_in_range N count HN ltac:(lia) ltac:(lia) g)
      as (l & g' & E & Hr).
    unfold uniform_random, np_randint in E. eauto.
Qed.

(** ** Weights *)

Lemma raises_bind {S A B : Type} (m : SE S A) (f : A -> SE S B)
      (P : A -> Prop) (e : exn) :
  returns m P -> (forall a, P a -> raises (f a) e) -> raises (x <~ m ;; f x) e.
Proof.
  intros Hm Hf s. destruct (Hm s) as (a & s1 & E & Pa).
  unfold bind. rewrite E. apply Hf. exact Pa.
Qed.

Lemma raises_index {S A : Type} (l : list A) (i : nat) :
  l !! i = None -> raises (S := S) (index l i) IndexError.
Proof. intros H s. unfold index. rewrite H. reflexivity. Qed.

Lemma raises_bind_index {S A B : Type} (l : list A) (i : nat) (f : A -> SE S B) :
  l !! i = None -> raises (x <~ index l i ;; f x) IndexError.
Proof. intros H s. unfold bind, index. rewrite H. reflexivity. Qed.

Lemma foldl_Qplus_shift (l : list Q) :
  forall a, (foldl Qplus a l == a + foldl Qplus 0 l)%Q.
Proof.
  induction l as [|x l IH]; intros a; simpl.
  - ring.
  - rewrite (IH (a + x)%Q), (IH (0 + x)%Q). ring.
Qed.

Lemma Qsum_cons (x : Q) (l : list Q) : (Qsum (x :: l) == x + Qsum l)%Q.
Proof.
  unfold Qsum. simpl. rewrite foldl_Qplus_shift. ring.
Qed.

Lemma Qsum_nonneg (l : list Q) :
  Forall (fun w => (0 <= w)%Q) l -> (0 <= Qsum l)%Q.
Proof.
  induction 1 as [|x l Hx _ IH].
  - unfold Qsum. simpl. apply Qle_refl.
  - rewrite Qsum_cons. replace 0%Q with (0 + 0)%Q by reflexivity.
    apply Qplus_le_compat; assumption.
Qed.

Lemma Qsum_elem_le (l : list Q) (w : Q) :
  Forall (fun w => (0 <= w)%Q) l -> In w l -> (w <= Qsum l)%Q.
Proof.
  induction 1 as [|x l Hx Hl IH]; intros Hin; [destruct Hin|].
  rewrite Qsum_cons. destruct Hin as [->|Hin].
  - rewrite <- (Qplus_0_r w) at 1. apply Qplus_le_compat; [apply Qle_refl|].
    apply Qsum_nonneg. exact Hl.
  - rewrite <- (Qplus_0_l w). apply Qplus_le_compat; [exact Hx | apply IH, Hin].
Qed.

Lemma Qsum_removelast_le (l : list Q) :
  Forall (fun w => (0 <= w)%Q) l -> (Qsum (removelast l) <= Qsum l)%Q.
Proof.
  induction 1 as [|x l Hx Hl IH]; [apply Qle_refl|].
  destruct l as [|y l'].
  - simpl. rewrite Qsum_cons. unfold Qsum at 1 2. simpl.
    rewrite Qplus_0_r. exact Hx.
  - change (removelast (x :: y :: l')) with (x :: removelast (y :: l')).
    rewrite (Qsum_cons x (removelast (y :: l'))), (Qsum_cons x (y :: l')).
    apply Qplus_le_compat; [apply Qle_refl | exact IH].
Qed.

Lemma Qsum_scale (s : Q) (l : list Q) :
  ~ (s == 0)%Q -> (Qsum (map (fun w => w / s) l) == Qsum l / s)%Q.
Proof.
  intros Hs. induction l as [|x l IH].
  - unfold Qsum. simpl. field. exact Hs.
  - cbn [map]. rewrite !Qsum_cons, IH. field. exact Hs.
Qed.

Lemma removelast_map {A B : Type} (f : A -> B) (l : list A) :
  removelast (map f l) = map f (removelast l).
Proof.
  induction l as [|x l IH]; [reflexivity|].
  destruct l as [|y l']; [reflexivity|].
  change (removelast (map f (x :: y :: l')))
    with (f x :: removelast (map f (y :: l'))).
  rewrite IH. reflexivity.
Qed.

(** Non-negative weights with a positive sum normalise to a probability
    vector that [multinomial] accepts. *)
Lemma normalize_valid (ws : list Q) :
  Forall (fun w => (0 <= w)%Q) ws -> (0 < Qsum ws)%Q ->
  map pval_get (normalize ws) = map (fun w => w / Qsum ws)%Q ws /\
  forallb pval_ok (normalize ws) = true /\
  Qle_bool (Qsum (removelast (map pval_get (normalize ws))))
           (1 + 1 / 1000000000000) = true.
Proof.
  intros Hpos Hsum.
  assert (Hnz : ~ (Qsum ws == 0)%Q).
  { intros E. rewrite E in Hsum. exact (Qlt_irrefl _ Hsum). }
  assert (Hb : Qeq_bool (Qsum ws) 0 = false).
  { destruct (Qeq_bool (Qsum ws) 0) eqn:E; [|reflexivity].
    apply Qeq_bool_iff in E. contradiction. }
  assert (Hmap : map pval_get (normalize ws) = map (fun w => w / Qsum ws)%Q ws).
  { unfold normalize. rewrite map_map. apply map_ext. intros w.
    rewrite Hb. reflexivity. }
  split; [exact Hmap|]. split.
  - unfold normalize. rewrite forallb_forall. intros p Hp.
    apply in_map_iff in Hp. destruct Hp as (w & <- & Hw). rewrite Hb.
    cbn [pval_ok]. apply andb_true_iff. split; apply Qle_bool_iff.
    + apply Qle_shift_div_l; [exact Hsum|]. rewrite Qmult_0_l.
      rewrite Forall_forall in Hpos. apply Hpos, list_elem_of_In, Hw.
    + apply Qle_shift_div_r; [exact Hsum|]. rewrite Qmult_1_l.
      apply Qsum_elem_le; assumption.
  - apply Qle_bool_iff. rewrite Hmap, removelast_map, Qsum_scale by exact Hnz.
    apply Qle_trans with 1%Q; [|unfold Qle; simpl; lia].
    apply Qle_shift_div_r; [exact Hsum|]. rewrite Qmult_1_l.
    apply Qsum_removelast_le. exact Hpos.
Qed.

Lemma np_multinomial_valid (count : Z) (ws : list Q) :
  Forall (fun w => (0 <= w)%Q) ws -> (0 < Qsum ws)%Q -> 0 <= count ->
  returns (np_multinomial count (normalize ws))
          (fun cs => length cs = length ws /\ Forall (fun c => 0 <= c) cs
                     /\ foldr Z.add 0 cs = count).
Proof.
  intros Hpos Hsum Hc.
  destruct (normalize_valid ws Hpos Hsum) as (Hmap & Hok & Hle).
  assert (Hne : ws <> []).
  { intros ->. exact (Qlt_irrefl _ Hsum). }
  unfold np_multinomial. rewrite Hok, Hle. cbn [negb].
  destruct (Z.ltb_spec count 0); [lia|].
  destruct (normalize ws) as [|p ps] eqn:En.
  { destruct ws; [contradiction | discriminate En]. }
  rewrite Hmap. eapply returns_weaken.
  - apply multinomial_split_spec; [|exact Hc].
    destruct ws; [contradiction | discriminate].
  - intros cs (Hlen & Hp & Hs). rewrite length_map in Hlen. auto.
Qed.

Lemma Forall_nonneg_sum (cs : list Z) :
  Forall (fun c => 0 <= c) cs -> 0 <= foldr Z.add 0 cs.
Proof. induction 1 as [|c cs Hc _ IH]; simpl; lia. Qed.

(** [mixed_distribution] with weights that sum to zero: the normalised
    weights are not probabilities and the call raises [ValueError], before
    any number is drawn. *)
Theorem mixed_distribution_zero_weights :
  forall (N count : Z) (ws : list Q) (g : rng),
    ws <> [] -> (Qsum ws == 0)%Q ->
    mixed_distribution N count (Some ws) g = (Raise ValueError, g).
Proof.
  intros N count ws g Hne Hsum.
  unfold mixed_distribution. params.
  assert (Hbad : forallb pval_ok (normalize ws) = false).
  { destruct ws as [|w ws']; [contradiction|].
    unfold normalize. apply Qeq_bool_iff in Hsum. rewrite Hsum. reflexivity. }
  unfold bind, np_multinomial. rewrite Hbad. reflexivity.
Qed.

Ltac mix_ok :=
  first
    [ eapply raises_bind; [eapply index_returns; reflexivity | intros ? ->]
    | eapply raises_bind;
      [ first [ apply uniform_random_in_range
              | apply normal_random_in_range
              | apply exponential_random_in_range
              | apply poisson_random_in_range ]; lia
      | intros ? _ ] ].

(** [mixed_distribution] with fewer than five non-negative weights of
    positive sum: the subscript of [counts] for the first component without
    a weight raises [IndexError]. *)
Theorem mixed_distribution_short_weights :
  forall (N count : Z) (ws : list Q) (g : rng),
    exact_double N -> 1 <= N -> 0 <= count ->
    Forall (fun w => (0 <= w)%Q) ws -> (0 < Qsum ws)%Q ->
    (length ws < 5)%nat ->
    fst (mixed_distribution N count (Some ws) g) = Raise IndexError.
Proof.
  intros N count ws g HD HN Hc Hpos Hsum Hlen. unfold exact_double in HD.
  revert g. change (raises (mixed_distribution N count (Some ws)) IndexError).
  unfold mixed_distribution. params.
  eapply raises_bind; [apply np_multinomial_valid; assumption|].
  intros cs (Hl & Hnn & _). cbv beta in *.
  destruct ws as [|w0 [|w1 [|w2 [|w3 [|w4 ws']]]]]; simpl in Hl, Hlen; try lia.
  - exfalso. exact (Qlt_irrefl _ Hsum).
  - destruct cs as [|c0 [|? ?]]; try discriminate Hl.
    rewrite !Forall_cons in Hnn.
    do 2 mix_ok. apply raises_bind_index. reflexivity.
  - destruct cs as [|c0 [|c1 [|? ?]]]; try discriminate Hl.
    rewrite !Forall_cons in Hnn.
    do 4 mix_ok. apply raises_bind_index. reflexivity.
  - destruct cs as [|c0 [|c1 [|c2 [|? ?]]]]; try discriminate Hl.
    rewrite !Forall_cons in Hnn.
    do 6 mix_ok. apply raises_bind_index. reflexivity.
  - destruct cs as [|c0 [|c1 [|c2 [|c3 [|? ?]]]]]; try discriminate Hl.
    rewrite !Forall_cons in Hnn.
    do 8 mix_ok. apply raises_bind_index. reflexivity.
Qed.

(** [mixed_distribution] with at least five non-negative weights of positive
    sum, for [N >= 2]: the call returns integers in [[0, N-1]], at most
    [count] of them (the share of a sixth and later weight is never
    generated) and exactly [count] for five weights. *)
Theorem mixed_distribution_weights :
  forall (N count : Z) (ws : list Q),
    exact_double N -> 2 <= N -> 0 <= count ->
    Forall (fun w => (0 <= w)%Q) ws -> (0 < Qsum ws)%Q ->
    (5 <= length ws)%nat ->
    returns (mixed_distribution N count (Some ws))
            (fun l => Forall (fun x => 0 <= x <= N - 1) l /\
                      Z.of_nat (length l) <= count /\
                      (length ws = 5%nat -> Z.of_nat (length l) = count)).
Proof.
  intros N count ws HD HN Hc Hpos Hsum Hlen. unfold exact_double in HD.
  unfold mixed_distribution. params.
  eapply returns_bind; [apply np_multinomial_valid; assumption|].
  intros cs (Hl & Hnn & Hs). cbv beta in *.
  destruct cs as [|c0 [|c1 [|c2 [|c3 [|c4 rest]]]]]; simpl in Hl; try lia.
  rewrite !Forall_cons in Hnn.
  destruct Hnn as (H0 & H1 & H2 & H3 & H4 & Hrest).
  apply Forall_nonneg_sum in Hrest. simpl in Hs.
  eapply returns_bind; [apply (index_returns _ 0%nat c0); reflexivity|].
  intros ? ->.
  eapply returns_bind; [apply uniform_random_in_range; lia|]. intros n0 [L0 F0].
  eapply returns_bind; [apply (index_returns _ 1%nat c1); reflexivity|].
  intros ? ->.
  eapply returns_bind; [apply normal_random_in_range; lia|]. intros n1 [L1 F1].
  eapply returns_bind; [apply (index_returns _ 2%nat c2); reflexivity|].
  intros ? ->.
  eapply returns_bind; [apply exponential_random_in_range; lia|]. intros n2 [L2 F2].
  eapply returns_bind; [apply (index_returns _ 3%nat c3); reflexivity|].
  intros ? ->.
  eapply returns_bind; [apply poisson_random_in_range; lia|]. intros n3 [L3 F3].
  eapply returns_bind; [apply (index_returns _ 4%nat c4); reflexivity|].
  intros ? ->.
  eapply returns_bind; [apply chi_square_random_in_range; lia|]. intros n4 [L4 F4].
  eapply returns_weaken.
  - apply (shuffle_spec (fun x => 0 <= x <= N - 1)).
    repeat (apply Forall_app; split); assumption.
  - intros y [Hly Hy]. split; [exact Hy|].
    rewrite Hly, !length_app. split; [lia|].
    intros H5. destruct rest; [simpl in *; lia | simpl in Hl; lia].
Qed.

Lemma exponential_random_parameters_witness :
  exact_double 8 /\ exact_double (8 - 1) /\
  (((default (inject_Z 8 / 4) None < 0)%Q \/ 2 < 0 ->
    exponential_random 8 2 None g0 = (Raise ValueError, g0)) /\
   ((0 <= default (inject_Z 8 / 4) None)%Q -> 0 <= 2 ->
    exists l g', exponential_random 8 2 None g0 = (OK l, g') /\ clamped 8 2 l)).
Proof.
  assert (H : exact_double 8) by (unfold exact_double; simpl; lia).
  assert (H' : exact_double (8 - 1)) by (unfold exact_double; simpl; lia).
  split; [exact H | split; [exact H'|]].
  apply (exponential_random_parameters 8 2 None g0 H H').
Defined.

Lemma poisson_random_parameters_witness :
  exact_double 8 /\
  (default (inject_Z 8 / 2) (Some (-1)%Q) <= 9007199254740992)%Q /\
  (((default (inject_Z 8 / 2) (Some (-1)%Q) < 0)%Q \/ 2 < 0 ->
    poisson_random 8 2 (Some (-1)%Q) g0 = (Raise ValueError, g0)) /\
   ((0 <= default (inject_Z 8 / 2) (Some (-1)%Q))%Q -> 0 <= 2 ->
    exists l g', poisson_random 8 2 (Some (-1)%Q) g0 = (OK l, g') /\ clamped 8 2 l)).
Proof.
  assert (H : exact_double 8) by (unfold exact_double; simpl; lia).
  assert (Hl : (default (inject_Z 8 / 2) (Some (-1)%Q) <= 9007199254740992)%Q)
    by (unfold Qle; simpl; lia).
  split; [exact H | split; [exact Hl|]].
  apply (poisson_random_parameters 8 2 (Some (-1)%Q) g0 H Hl).
Defined.

Lemma chi_square_random_parameters_witness :
  exact_double 1 /\ exact_double (1 - 1) /\
  ((default (1 ÷ 2) None <= 0 \/ 2 < 0 ->
    chi_square_random 1 2 None g0 = (Raise ValueError, g0)) /\
   (0 < default (1 ÷ 2) None -> 0 <= 2 ->
    exists l g', chi_square_random 1 2 None g0 = (OK l, g') /\ clamped 1 2 l)).
Proof.
  assert (H : exact_double 1) by (unfold exact_double; simpl; lia).
  assert (H' : exact_double (1 - 1)) by (unfold exact_double; simpl; lia).
  split; [exact H | split; [exact H'|]].
  apply (chi_square_random_parameters 1 2 None g0 H H').
Defined.

Lemma uniform_random_outcome_witness :
  exact_double 6 /\
  ((4 = 0 -> uniform_random 6 4 g0 = (OK [], g0)) /\
   (4 <> 0 -> 6 <= 0 \/ 4 < 0 -> uniform_random 6 4 g0 = (Raise ValueError, g0)) /\
   (0 < 6 -> 0 < 4 ->
    exists l g', uniform_random 6 4 g0 = (OK l, g') /\ in_range 6 4 l)).
Proof.
  assert (H : exact_double 6) by (unfold exact_double; simpl; lia).
  split; [exact H | apply (uniform_random_outcome 6 4 g0 H)].
Defined.

Lemma mixed_distribution_zero_weights_witness :
  [0; 0; 0; 0; 0]%Q <> [] /\ (Qsum [0; 0; 0; 0; 0] == 0)%Q /\
  mixed_distribution 10 5 (Some [0; 0; 0; 0; 0]%Q) g0 = (Raise ValueError, g0).
Proof.
  assert (H1 : [0; 0; 0; 0; 0]%Q <> []) by discriminate.
  assert (H2 : (Qsum [0; 0; 0; 0; 0] == 0)%Q) by (vm_compute; reflexivity).
  split; [exact H1 | split; [exact H2|]].
  apply (mixed_distribution_zero_weights 10 5 [0; 0; 0; 0; 0]%Q g0 H1 H2).
Defined.

Lemma mixed_distribution_short_weights_witness :
  exact_double 10 /\ 1 <= 10 /\ 0 <= 5 /\
  Forall (fun w => (0 <= w)%Q) [1; 1; 2]%Q /\ (0 < Qsum [1; 1; 2])%Q /\
  (length [1; 1; 2]%Q < 5)%nat /\
  fst (mixed_distribution 10 5 (Some [1; 1; 2]%Q) g0) = Raise IndexError.
Proof.
  assert (H1 : exact_double 10) by (unfold exact_double; simpl; lia).
  assert (H2 : 1 <= 10) by lia.
  assert (H3 : 0 <= 5) by lia.
  assert (H4 : Forall (fun w => (0 <= w)%Q) [1; 1; 2]%Q)
    by (repeat (apply Forall_cons_2; [unfold Qle; simpl; lia|]); apply Forall_nil_2).
  assert (H5 : (0 < Qsum [1; 1; 2])%Q) by (vm_compute; reflexivity).
  assert (H6 : (length [1; 1; 2]%Q < 5)%nat) by (simpl; lia).
  split; [exact H1 | split; [exact H2 | split; [exact H3 | split; [exact H4 |
    split; [exact H5 | split; [exact H6|]]]]]].
  apply (mixed_distribution_short_weights 10 5 [1; 1; 2]%Q g0 H1 H2 H3 H4 H5 H6).
Defined.

Lemma mixed_distribution_weights_witness :
  exact_double 10 /\ 2 <= 10 /\ 0 <= 5 /\
  Forall (fun w => (0 <= w)%Q) [1; 1; 2; 0; 3; 4]%Q /\
  (0 < Qsum [1; 1; 2; 0; 3; 4])%Q /\
  (5 <= length [1; 1; 2; 0; 3; 4]%Q)%nat /\
  returns (mixed_distribution 10 5 (Some [1; 1; 2; 0; 3; 4]%Q))
          (fun l => Forall (fun x => 0 <= x <= 10 - 1) l /\
                    Z.of_nat (length l) <= 5 /\
                    (length [1; 1; 2; 0; 3; 4]%Q = 5%nat -> Z.of_nat (length l) = 5)).
Proof.
  assert (H1 : exact_double 10) by (unfold exact_double; simpl; lia).
  assert (H2 : 2 <= 10) by lia.
  assert (H3 : 0 <= 5) by lia.
  assert (H4 : Forall (fun w => (0 <= w)%Q) [1; 1; 2; 0; 3; 4]%Q)
    by (repeat (apply Forall_cons_2; [unfold Qle; simpl; lia|]); apply Forall_nil_2).
  assert (H5 : (0 < Qsum [1; 1; 2; 0; 3; 4])%Q) by (vm_compute; reflexivity).
  assert (H6 : (5 <= length [1; 1; 2; 0; 3; 4]%Q)%nat) by (simpl; lia).
  split; [exact H1 | split; [exact H2 | split; [exact H3 | split; [exact H4 |
    split; [exact H5 | split; [exact H6|]]]]]].
  apply (mixed_distribution_weights 10 5 [1; 1; 2; 0; 3; 4]%Q H1 H2 H3 H4 H5 H6).
Defined.

(** ** The gap loop *)

Lemma distinct_le_length (l : list Z) : (distinct l <= length l)%nat.
Proof.
  unfold distinct. induction l as [|x l IH]; [reflexivity|].
  rewrite list_to_set_cons, size_union_alt, size_singleton.
  pose proof (subseteq_size (list_to_set l ∖ {[x]}) (list_to_set l : gset Z)
                ltac:(set_solver)).
  simpl. lia.
Qed.

Lemma distinct_NoDup (l : list Z) : distinct l = length l <-> NoDup l.
Proof.
  split; [|apply size_list_to_set].
  unfold distinct. induction l as [|x l IH]; intros H; [constructor|].
  rewrite list_to_set_cons, size_union_alt, size_singleton in H.
  pose proof (subseteq_size (list_to_set l ∖ {[x]}) (list_to_set l : gset Z)
                ltac:(set_solver)) as Hsub.
  pose proof (distinct_le_length l) as Hle. unfold distinct in Hle.
  simpl in H.
  assert (Hx : x ∉ l).
  { intros Hx.
    assert (Hlt : (size (list_to_set l ∖ {[x]} : gset Z) < size (list_to_set l : gset Z))%nat).
    { apply subset_size. set_solver. }
    lia. }
  constructor; [exact Hx|]. apply IH. lia.
Qed.

(** The gap loop records one gap for every element but the first occurrence
    of each value: the number of gaps plus the number of distinct values is
    the length of the sequence, and there is no gap exactly when no value
    repeats. *)
Theorem compute_gaps_count :
  forall nums : list Z,
    (length (compute_gaps nums) + distinct nums = length nums)%nat /\
    (compute_gaps nums = [] <-> NoDup nums).
Proof.
  intros nums.
  assert (H : (length (compute_gaps nums) + distinct nums = length nums)%nat).
  { unfold compute_gaps, distinct.
    pose proof (gap_loop_count nums 0 [] ∅) as Hc.
    pose proof (gap_loop_dom nums 0 [] ∅) as Hd.
    rewrite <- (size_dom (D := gset Z)) in Hc. rewrite Hd in Hc.
    rewrite dom_empty_L, union_empty_l_L, map_size_empty in Hc.
    simpl in Hc. lia. }
  split; [exact H|].
  rewrite <- distinct_NoDup. split.
  - intros E. rewrite E in H. simpl in H. lia.
  - intros E. destruct (compute_gaps nums); [reflexivity | simpl in H; lia].
Qed.

(** Every recorded gap is at least 1 and at most the index of the last
    element. *)
Lemma gap_loop_bounds (M : Z) (nums : list Z) :
  forall i gaps (last_pos : gmap Z nat),
    Z.of_nat i + Z.of_nat (length nums) - 1 <= M ->
    (forall v j, last_pos !! v = Some j -> (j < i)%nat) ->
    Forall (fun g => 1 <= g <= M) gaps ->
    Forall (fun g => 1 <= g <= M) (gap_loop i nums gaps last_pos).1.
Proof.
  induction nums as [|num rest IH]; intros i gaps last_pos HM Hlp Hg.
  - exact Hg.
  - cbn [gap_loop]. cbn [length] in HM. apply IH.
    + lia.
    + intros v j Hv. destruct (decide (v = num)) as [->|Hne].
      * rewrite lookup_insert_eq in Hv. injection Hv as <-. lia.
      * rewrite lookup_insert_ne in Hv by congruence.
        specialize (Hlp v j Hv). lia.
    + destruct (last_pos !! num) as [j|] eqn:E; [|exact Hg].
      apply Forall_app. split; [exact Hg|].
      constructor; [|constructor]. specialize (Hlp num j E). lia.
Qed.

Lemma compute_gaps_bounds (nums : list Z) :
  Forall (fun g => 1 <= g <= Z.of_nat (length nums) - 1) (compute_gaps nums).
Proof.
  unfold compute_gaps. apply gap_loop_bounds.
  - lia.
  - intros v j Hv. rewrite lookup_empty in Hv. discriminate.
  - constructor.
Qed.

(** ** Means of finite values *)

Lemma Rsum_bounds (lo hi : R) (l : list R) :
  Forall (fun x => (lo <= x <= hi)%R) l ->
  (INR (length l) * lo <= Rsum l <= INR (length l) * hi)%R.
Proof.
  induction 1 as [|x l Hx _ IH].
  - simpl. lra.
  - cbn [length]. rewrite S_INR. cbn [Rsum foldr]. fold (Rsum l). lra.
Qed.

Lemma np_mean_Fin (xs : list R) :
  xs <> [] -> np_mean (map Fin xs) = Fin (Rsum xs / INR (length xs)).
Proof.
  intros Hne. unfold np_mean. rewrite np_sum_Fin, length_map.
  unfold of_Z. rewrite <- INR_IZR_INZ.
  apply fdiv_Fin. apply not_0_INR. destruct xs; [contradiction | discriminate].
Qed.

Lemma mean_bounds (lo hi : R) (xs : list R) :
  xs <> [] -> Forall (fun x => (lo <= x <= hi)%R) xs ->
  (lo <= Rsum xs / INR (length xs) <= hi)%R.
Proof.
  intros Hne Hall. pose proof (Rsum_bounds lo hi xs Hall) as [H1 H2].
  assert (Hn : (0 < INR (length xs))%R).
  { apply lt_0_INR. destruct xs; [contradiction | simpl; lia]. }
  assert (Hi : (0 < / INR (length xs))%R) by (apply Rinv_0_lt_compat; exact Hn).
  assert (E : (INR (length xs) * / INR (length xs) = 1)%R) by (apply Rinv_r; lra).
  unfold Rdiv. split.
  - replace lo with (INR (length xs) * lo * / INR (length xs))%R
      by (rewrite (Rmult_comm (INR (length xs)) lo), Rmult_assoc, E; ring).
    apply Rmult_le_compat_r; lra.
  - replace hi with (INR (length xs) * hi * / INR (length xs))%R
      by (rewrite (Rmult_comm (INR (length xs)) hi), Rmult_assoc, E; ring).
    apply Rmult_le_compat_r; lra.
Qed.

Lemma Rsum_nonneg (l : list R) :
  Forall (fun x => (0 <= x)%R) l -> (0 <= Rsum l)%R.
Proof.
  induction 1 as [|x l Hx _ IH]; simpl; [lra|]. fold (Rsum l). lra.
Qed.

Lemma np_std_Fin (xs : list R) :
  xs <> [] -> exists s, np_std (map Fin xs) = Fin s /\ (0 <= s)%R.
Proof.
  intros Hne. unfold np_std. rewrite np_mean_Fin by exact Hne.
  set (m := (Rsum xs / INR (length xs))%R).
  set (sq := fun x : R => (Rabs (x + - m) * Rabs (x + - m))%R).
  rewrite map_map.
  rewrite (map_ext _ (fun x => Fin (sq x))) by reflexivity.
  rewrite <- (map_map sq Fin).
  rewrite np_mean_Fin by (destruct xs; [contradiction | discriminate]).
  rewrite length_map.
  assert (Hsq : Forall (fun x => (0 <= x)%R) (map sq xs)).
  { apply Forall_forall. intros y Hy.
    apply list_elem_of_In, in_map_iff in Hy. destruct Hy as (x & <- & _).
    unfold sq. apply Rmult_le_pos; apply Rabs_pos. }
  assert (Hpos : (0 <= Rsum (map sq xs) / INR (length xs))%R).
  { apply Rsum_nonneg in Hsq.
    assert (Hn : (0 < INR (length xs))%R).
    { apply lt_0_INR. destruct xs; [contradiction | simpl; lia]. }
    apply Rmult_le_pos; [exact Hsq|]. left. apply Rinv_0_lt_compat. exact Hn. }
  rewrite fsqrt_Fin by exact Hpos.
  eexists. split; [reflexivity | apply sqrt_pos].
Qed.

Section BatteryGap.
Context {scipy : ScipyStats}.

(** The gap test on a sequence without a repeated value (the empty one
    included): the gap list is empty, the mean and the standard deviation
    are nan, and [stats.kstest] is called on the empty list with the scale
    nan; the tester and the array are left as they were. *)
Theorem test_gap_distribution_no_repeat :
  forall (t : StatisticalTester) (nums : list Z),
    NoDup nums ->
    test_gap_distribution (Heap t nums)
    = (match kstest_expon [] (Fin 0) NaN with
       | OK r => OK (GapResult NaN NaN r.1 r.2 (fgtb r.2 alpha))
       | Raise e => Raise e
       end, Heap t nums).
Proof.
  intros t nums Hnd.
  assert (Hg : compute_gaps nums = []).
  { pose proof (size_list_to_set (C := gset Z) nums Hnd) as Hs.
    pose proof (gap_loop_count nums 0 [] ∅) as Hc.
    pose proof (gap_loop_dom nums 0 [] ∅) as Hd.
    rewrite <- (size_dom (D := gset Z)) in Hc. rewrite Hd in Hc.
    rewrite dom_empty_L, union_empty_l_L, map_size_empty in Hc.
    unfold compute_gaps. destruct (gap_loop 0 nums [] ∅).1; [reflexivity|].
    simpl in Hc. lia. }
  rewrite test_gap_distribution_eval. cbn [numbers]. rewrite Hg.
  cbn [map]. unfold np_std, np_mean, np_sum. cbn [foldl length map].
  change (of_Z (Z.of_nat 0)) with (Fin 0). rewrite fdiv_zero_zero.
  reflexivity.
Qed.

(** The gap test on a sequence with a repeated value: the reported mean gap
    is the arithmetic mean of the gaps and lies between 1 and [len - 1], the
    reported deviation is a non-negative number, and [stats.kstest] is
    called with that mean as the scale of the exponential law. *)
Theorem test_gap_distribution_mean :
  forall (t : StatisticalTester) (nums : list Z),
    ~ NoDup nums ->
    exists m s : R,
      m = (Rsum (map IZR (compute_gaps nums))
           / INR (length (compute_gaps nums)))%R /\
      (1 <= m <= INR (length nums) - 1)%R /\ (0 <= s)%R /\
      test_gap_distribution (Heap t nums)
      = (match kstest_expon (compute_gaps nums) (Fin 0) (Fin m) with
         | OK r => OK (GapResult (Fin m) (Fin s) r.1 r.2 (fgtb r.2 alpha))
         | Raise e => Raise e
         end, Heap t nums).
Proof.
  intros t nums Hdup.
  assert (Hne : map IZR (compute_gaps nums) <> []).
  { intros E. apply map_eq_nil in E. apply Hdup.
    pose proof (gap_loop_count nums 0 [] ∅) as Hc.
    pose proof (gap_loop_dom nums 0 [] ∅) as Hd.
    rewrite <- (size_dom (D := gset Z)) in Hc. rewrite Hd in Hc.
    rewrite dom_empty_L, union_empty_l_L, map_size_empty in Hc.
    unfold compute_gaps in E. rewrite E in Hc. simpl in Hc.
    apply distinct_NoDup. unfold distinct. lia. }
  assert (Hb : Forall (fun x => (1 <= x <= INR (length nums) - 1)%R)
                      (map IZR (compute_gaps nums))).
  { pose proof (compute_gaps_bounds nums) as Hb.
    apply Forall_forall. intros y Hy.
    apply list_elem_of_In, in_map_iff in Hy. destruct Hy as (g & <- & Hg).
    rewrite Forall_forall in Hb. specialize (Hb g (proj2 (list_elem_of_In _ _) Hg)).
    cbv beta in Hb. rewrite INR_IZR_INZ. rewrite <- minus_IZR.
    split; apply IZR_le; lia. }
  pose proof (mean_bounds _ _ _ Hne Hb) as Hm.
  destruct (np_std_Fin _ Hne) as (s & Hs & Hs0).
  rewrite length_map in Hm.
  exists (Rsum (map IZR (compute_gaps nums)) / INR (length (compute_gaps nums)))%R, s.
  split; [reflexivity|]. split; [exact Hm|]. split; [exact Hs0|].
  rewrite test_gap_distribution_eval. cbn [numbers].
  assert (Hmap : map of_Z (compute_gaps nums) = map Fin (map IZR (compute_gaps nums))).
  { rewrite map_map. reflexivity. }
  rewrite Hmap, Hs, np_mean_Fin by exact Hne. rewrite length_map.
  set (m := (Rsum (map IZR (compute_gaps nums)) / INR (length (compute_gaps nums)))%R) in *.
  assert (Hinv : fdiv (Fin 1) (fdiv (Fin 1) (Fin m)) = Fin m).
  { rewrite (fdiv_Fin 1 m) by lra.
    assert (Hpos : (0 < 1 / m)%R) by (apply Rdiv_lt_0_compat; lra).
    rewrite fdiv_Fin by lra. f_equal. field. lra. }
  rewrite Hinv. reflexivity.
Qed.
End BatteryGap.

Lemma test_gap_distribution_no_repeat_witness :
  NoDup [3; 1; 2] /\
  test_gap_distribution (scipy := scipy_nan) (Heap (Tester 4 3) [3; 1; 2])
  = (match kstest_expon (ScipyStats := scipy_nan) [] (Fin 0) NaN with
     | OK r => OK (GapResult NaN NaN r.1 r.2 (fgtb r.2 alpha))
     | Raise e => Raise e
     end, Heap (Tester 4 3) [3; 1; 2]).
Proof.
  assert (H : NoDup [3; 1; 2]) by (apply (bool_decide_unpack _); vm_compute; exact I).
  split; [exact H|].
  apply (test_gap_distribution_no_repeat (scipy := scipy_nan) (Tester 4 3) [3; 1; 2] H).
Defined.

Lemma test_gap_distribution_mean_witness :
  ~ NoDup [4; 7; 4] /\
  exists m s : R,
    m = (Rsum (map IZR (compute_gaps [4; 7; 4]%Z))
         / INR (length (compute_gaps [4; 7; 4]%Z)))%R /\
    (1 <= m <= INR (length [4; 7; 4]%Z) - 1)%R /\ (0 <= s)%R /\
    test_gap_distribution (scipy := scipy_nan) (Heap (Tester 8 3) [4; 7; 4])
    = (match kstest_expon (ScipyStats := scipy_nan) (compute_gaps [4; 7; 4])
               (Fin 0) (Fin m) with
       | OK r => OK (GapResult (Fin m) (Fin s) r.1 r.2 (fgtb r.2 alpha))
       | Raise e => Raise e
       end, Heap (Tester 8 3) [4; 7; 4]).
Proof.
  assert (H : ~ NoDup [4; 7; 4]).
  { rewrite NoDup_cons. intros [Hn _]. apply Hn. right. left. }
  split; [exact H|].
  apply (test_gap_distribution_mean (scipy := scipy_nan) (Tester 8 3) [4; 7; 4] H).
Defined.

(** ** The independence test: when it returns *)

(** The independence test returns exactly on the sequences of at least two
    values; on the empty and the one-element sequence it raises
    [ValueError] and leaves the tester and the array as they were. *)
Theorem test_independence_returns_iff :
  forall (t : StatisticalTester) (nums : list Z),
    (is_ok (fst (test_independence (Heap t nums))) = true
     <-> (2 <= length nums)%nat) /\
    ((length nums < 2)%nat ->
     test_independence (Heap t nums) = (Raise ValueError, Heap t nums)).
Proof.
  intros t nums.
  assert (Hshort : (length nums < 2)%nat ->
                   test_independence (Heap t nums) = (Raise ValueError, Heap t nums)).
  { intros Hlen. destruct nums as [|x [|y l]]; [| |simpl in Hlen; lia].
    - reflexivity.
    - rewrite test_independence_eval by discriminate. reflexivity. }
  split; [|exact Hshort]. split.
  - intros Hok. destruct (le_lt_dec 2 (length nums)) as [H|H]; [exact H|].
    rewrite (Hshort H) in Hok. discriminate.
  - intros Hlen. destruct (test_independence_char t nums Hlen)
      as (mx & lags & verdict & E & _).
    rewrite E. reflexivity.
Qed.

(** ** Constant sequences *)

Lemma foldr_add_replicate (n : nat) (x : Z) :
  foldr Z.add 0 (replicate n x) = Z.of_nat n * x.
Proof. induction n as [|n IH]; simpl replicate; simpl foldr; [lia|]. rewrite IH. lia. Qed.

Lemma correlate_at_constant (n k : nat) (c : Z) :
  correlate_at (replicate n c) k = wrap64 (Z.of_nat (n - k) * (c * c)).
Proof.
  unfold correlate_at. rewrite drop_replicate.
  rewrite zip_with_replicate_r by (rewrite length_replicate; lia).
  rewrite fmap_replicate. unfold flip. rewrite foldr_add_replicate. reflexivity.
Qed.

Lemma np_max_all_nan (n : nat) :
  (1 <= n)%nat -> np_max (replicate n NaN) = OK NaN.
Proof.
  intros Hn. destruct n as [|m]; [lia|]. simpl. f_equal.
  clear Hn. induction m as [|m IH]; [reflexivity|]. exact IH.
Qed.

Lemma map_const_seq {A : Type} (f : nat -> A) (a : A) (s n : nat) :
  (forall k, (s <= k < s + n)%nat -> f k = a) -> map f (seq s n) = replicate n a.
Proof.
  revert s. induction n as [|n IH]; intros s H; [reflexivity|].
  simpl. rewrite H by lia. f_equal. apply IH. intros k Hk. apply H. lia.
Qed.

(** On a sequence of zeros (at least two) the independence test divides by
    the lag-0 value zero: every coefficient is nan, the maximum reported is
    nan, no lag is significant and the verdict is independent. *)
Theorem test_independence_zeros :
  forall (t : StatisticalTester) (n : nat),
    (2 <= n)%nat ->
    test_independence (Heap t (replicate n 0))
    = (OK (IndependenceResult NaN [] true), Heap t (replicate n 0)).
Proof.
  intros t n Hn.
  assert (Hacf : forall k, acf_at (replicate n 0) k = NaN).
  { intros k. unfold acf_at. rewrite !correlate_at_constant.
    rewrite !Z.mul_0_r. change (of_Z (wrap64 0)) with (Fin 0).
    apply fdiv_zero_zero. }
  rewrite test_independence_eval by (destruct n; [lia | discriminate]).
  cbn [numbers]. rewrite length_replicate.
  set (m := (10 `min` (n - 1))%nat).
  assert (Hm : (1 <= m)%nat) by (unfold m; lia).
  rewrite (map_const_seq (acf_at (replicate n 0)) NaN) by (intros; apply Hacf).
  assert (Hf : map fabs (replicate m NaN) = replicate m NaN).
  { clear. induction m as [|m IH]; [reflexivity|]. simpl. rewrite IH. reflexivity. }
  rewrite Hf, np_max_all_nan by exact Hm.
  rewrite filter_none.
  2:{ intros k _. unfold exceeds. rewrite Hacf. reflexivity. }
  assert (He : existsb (fun v => fgtb (fabs v) (ci_of n)) (replicate m NaN) = false).
  { clear. induction m as [|m IH]; [reflexivity|]. simpl. exact IH. }
  rewrite He. reflexivity.
Qed.

Lemma foldl_fmax_dominated (a : R) (xs : list float) :
  Forall (fun y => exists v, y = Fin v /\ (v <= a)%R) xs ->
  foldl fmax (Fin a) xs = Fin a.
Proof.
  induction 1 as [|y xs (v & -> & Hv) _ IH]; [reflexivity|].
  cbn [foldl]. replace (fmax (Fin a) (Fin v)) with (Fin a); [exact IH|].
  unfold fmax, fgtb. destruct (Rlt_dec a v); [lra | reflexivity].
Qed.

(** [(n - 1) / n] exceeds the band [1.96 / sqrt(n)] from [n = 6] on. *)
Lemma lag1_exceeds_band (n : nat) :
  (6 <= n)%nat -> (196 / 100 / sqrt (INR n) < (INR n - 1) / INR n)%R.
Proof.
  intros Hn.
  assert (H6 : (6 <= INR n)%R).
  { replace 6%R with (INR 6) by (simpl; lra). apply le_INR. exact Hn. }
  set (x := INR n) in *.
  assert (Hs : (0 < sqrt x)%R) by (apply sqrt_lt_R0; lra).
  assert (Hsq : (sqrt x * sqrt x = x)%R) by (apply sqrt_sqrt; lra).
  set (s := sqrt x) in *.
  assert (Hs2 : (244 / 100 <= s)%R).
  { destruct (Rle_lt_dec (244 / 100) s) as [H|H]; [exact H|]. nra. }
  apply (Rmult_lt_reg_r (s * x)); [nra|].
  replace (196 / 100 / s * (s * x))%R with (196 / 100 * x)%R by (field; lra).
  replace ((x - 1) / x * (s * x))%R with ((x - 1) * s)%R by (field; lra).
  nra.
Qed.

(** On a constant non-zero sequence of at least six values (whose sum of
    squares fits [int64]) the independence test reports the maximal
    coefficient [(n - 1) / n], lag 1 as significant and the verdict not
    independent. *)
Theorem test_independence_constant :
  forall (t : StatisticalTester) (c : Z) (n : nat),
    c <> 0 -> (6 <= n)%nat -> Z.of_nat n * (c * c) < 9223372036854775808 ->
    exists lags,
      test_independence (Heap t (replicate n c))
      = (OK (IndependenceResult (Fin ((INR n - 1) / INR n)) (1%nat :: lags) false),
         Heap t (replicate n c)).
Proof.
  intros t c n Hc Hn Hfit.
  assert (Hcc : 0 < c * c) by nia.
  assert (Hacf : forall k, (k <= n)%nat ->
                           acf_at (replicate n c) k = Fin ((INR n - INR k) / INR n)).
  { intros k Hk. unfold acf_at. rewrite !correlate_at_constant.
    rewrite !wrap64_small by nia. unfold of_Z.
    rewrite fdiv_Fin by (apply not_0_IZR; nia). f_equal.
    rewrite Nat.sub_0_r, !mult_IZR, <- !INR_IZR_INZ, minus_INR by exact Hk.
    field. repeat split; first [apply not_0_INR; lia | apply not_0_IZR; lia]. }
  rewrite test_independence_eval by (destruct n; [lia | discriminate]).
  cbn [numbers]. rewrite length_replicate.
  set (m := (10 `min` (n - 1))%nat).
  assert (Hm : (1 <= m <= n - 1)%nat) by (unfold m; lia).
  assert (Hn0 : (0 < INR n)%R) by (apply lt_0_INR; lia).
  assert (Hseq : seq 1 m = 1%nat :: seq 2 (m - 1)).
  { destruct m as [|m']; [lia|]. simpl. rewrite Nat.sub_0_r. reflexivity. }
  (* the maximum is the coefficient of lag 1 *)
  assert (Hmax : np_max (map fabs (map (acf_at (replicate n c)) (seq 1 m)))
                 = OK (Fin ((INR n - 1) / INR n))).
  { rewrite Hseq. cbn [map np_max]. rewrite Hacf by lia. cbn [fabs].
    assert (H1 : Rabs ((INR n - INR 1) / INR n) = ((INR n - 1) / INR n)%R).
    { simpl INR. apply Rabs_pos_eq. apply Rmult_le_pos.
      - assert (1 <= INR n)%R by (replace 1%R with (INR 1) by reflexivity; apply le_INR; lia).
        lra.
      - left. apply Rinv_0_lt_compat. exact Hn0. }
    rewrite H1. f_equal. apply foldl_fmax_dominated.
    apply Forall_forall. intros y Hy.
    apply list_elem_of_In, in_map_iff in Hy. destruct Hy as (z & <- & Hz).
    apply in_map_iff in Hz. destruct Hz as (k & <- & Hk). apply in_seq in Hk.
    rewrite Hacf by lia. cbn [fabs]. eexists. split; [reflexivity|].
    assert (Hk2 : (2 <= INR k <= INR n)%R).
    { split; [replace 2%R with (INR 2) by (simpl; lra) | ]; apply le_INR; lia. }
    rewrite Rabs_pos_eq.
    - apply Rmult_le_compat_r; [left; apply Rinv_0_lt_compat; exact Hn0 | lra].
    - apply Rmult_le_pos; [lra | left; apply Rinv_0_lt_compat; exact Hn0]. }
  rewrite Hmax.
  (* lag 1 is significant *)
  assert (Hex : exceeds (replicate n c) 1 = true).
  { unfold exceeds. rewrite length_replicate, Hacf by lia.
    destruct (ci_of_pos n ltac:(lia)) as (b & -> & _ & ->).
    cbn [fabs]. apply fgtb_Fin. simpl INR.
    rewrite Rabs_pos_eq.
    - apply lag1_exceeds_band. exact Hn.
    - apply Rmult_le_pos; [|left; apply Rinv_0_lt_compat; exact Hn0].
      assert (1 <= INR n)%R by (replace 1%R with (INR 1) by reflexivity; apply le_INR; lia).
      lra. }
  rewrite Hseq, filter_cons.
  destruct (decide (exceeds (replicate n c) 1 = true)) as [_|Hno]; [|contradiction].
  cbn [map existsb]. unfold exceeds in Hex.
  rewrite length_replicate in Hex. rewrite Hex. eexists. reflexivity.
Qed.

Lemma test_independence_constant_witness :
  1 <> 0 /\ (6 <= 6)%nat /\ Z.of_nat 6 * (1 * 1) < 9223372036854775808 /\
  exists lags,
    test_independence (Heap (Tester 2 6) (replicate 6 1))
    = (OK (IndependenceResult (Fin ((INR 6 - 1) / INR 6)) (1%nat :: lags) false),
       Heap (Tester 2 6) (replicate 6 1)).
Proof.
  assert (H1 : 1 <> 0) by lia.
  assert (H2 : (6 <= 6)%nat) by lia.
  assert (H3 : Z.of_nat 6 * (1 * 1) < 9223372036854775808) by (simpl; lia).
  split; [exact H1 | split; [exact H2 | split; [exact H3|]]].
  apply (test_independence_constant (Tester 2 6) 1 6 H1 H2 H3).
Defined.

Lemma test_independence_zeros_witness :
  (2 <= 3)%nat /\
  test_independence (Heap (Tester 2 3) (replicate 3 0))
  = (OK (IndependenceResult NaN [] true), Heap (Tester 2 3) (replicate 3 0)).
Proof.
  assert (H : (2 <= 3)%nat) by lia.
  split; [exact H | apply (test_independence_zeros (Tester 2 3) 3 H)].
Defined.

(** ** The run count *)

Lemma boundaries_bounds (a : Z) (l : list Z) :
  0 <= boundaries (a :: l) <= Z.of_nat (length l).
Proof.
  revert a. induction l as [|b l IH]; intros a.
  - simpl. lia.
  - change (boundaries (a :: b :: l))
      with ((if Z.eq_dec a b then 0 else 1) + boundaries (b :: l)).
    specialize (IH b). cbn [length]. destruct (Z.eq_dec a b); lia.
Qed.

Lemma boundaries_zero (a : Z) (l : list Z) :
  boundaries (a :: l) = 0 <-> l = replicate (length l) a.
Proof.
  revert a. induction l as [|b l IH]; intros a.
  - simpl. tauto.
  - change (boundaries (a :: b :: l))
      with ((if Z.eq_dec a b then 0 else 1) + boundaries (b :: l)).
    pose proof (boundaries_bounds b l) as Hb. cbn [length replicate].
    destruct (Z.eq_dec a b) as [->|Hne].
    + rewrite Z.add_0_l, IH. split; [intros <-; reflexivity|].
      intros [= E]. exact E.
    + split; [lia|]. intros [= E _]. congruence.
Qed.

Lemma boundaries_snoc (l : list Z) (x : Z) :
  boundaries (l ++ [x])
  = boundaries l + match last l with
                   | Some y => if Z.eq_dec y x then 0 else 1
                   | None => 0
                   end.
Proof.
  induction l as [|a l IH]; [reflexivity|].
  destruct l as [|b l'].
  - simpl. destruct (Z.eq_dec a x); lia.
  - change (boundaries ((a :: b :: l') ++ [x]))
      with ((if Z.eq_dec a b then 0 else 1) + boundaries ((b :: l') ++ [x])).
    change (boundaries (a :: b :: l'))
      with ((if Z.eq_dec a b then 0 else 1) + boundaries (b :: l')).
    rewrite IH. change (last (a :: b :: l')) with (last (b :: l')). lia.
Qed.

Lemma last_rev_head (l : list Z) : last (rev l) = head l.
Proof. destruct l as [|a l]; [reflexivity|]. cbn [rev]. apply last_snoc. Qed.

Lemma boundaries_rev (l : list Z) : boundaries (rev l) = boundaries l.
Proof.
  induction l as [|a l IH]; [reflexivity|].
  cbn [rev]. rewrite boundaries_snoc, IH, last_rev_head.
  destruct l as [|b l']; [reflexivity|].
  change (boundaries (a :: b :: l'))
    with ((if Z.eq_dec a b then 0 else 1) + boundaries (b :: l')).
  cbn [head]. destruct (Z.eq_dec b a), (Z.eq_dec a b); congruence || lia.
Qed.

(** The run count does not depend on the direction of reading: the reversed
    sequence has as many runs. *)
Theorem count_runs_rev :
  forall nums : list Z, count_runs (rev nums) = count_runs nums.
Proof.
  intros nums. destruct nums as [|a l]; [reflexivity|].
  rewrite (count_runs_boundaries a l).
  destruct (rev (a :: l)) as [|b l'] eqn:E.
  - apply (f_equal length) in E. rewrite length_rev in E. discriminate.
  - rewrite count_runs_boundaries, <- E, boundaries_rev. reflexivity.
Qed.

Section BatteryRunsOutcome.
Context {scipy : ScipyStats}.

(** The runs test raises [IndexError] on the empty sequence; on every other
    sequence it returns, with a run count between 1 and the length that is
    1 exactly for the constant sequences, and leaves the tester and the
    array as they were. *)
Theorem test_runs_outcome :
  forall (t : StatisticalTester) (nums : list Z),
    (nums = [] -> test_runs (Heap t nums) = (Raise IndexError, Heap t nums)) /\
    (nums <> [] ->
     exists r e z p b,
       test_runs (Heap t nums) = (OK (RunsResult r e z p b), Heap t nums) /\
       1 <= r <= Z.of_nat (length nums) /\
       (r = 1 <-> exists v, nums = replicate (length nums) v)).
Proof.
  intros t nums. split.
  - intros ->. reflexivity.
  - intros Hne. destruct nums as [|a l]; [contradiction|].
    destruct (test_runs_eval (Heap t (a :: l)) a eq_refl)
      as (e & z & p & b & E & _).
    exists (count_runs (a :: l)), e, z, p, b. cbn [numbers] in E.
    split; [exact E|].
    rewrite count_runs_boundaries.
    pose proof (boundaries_bounds a l) as Hb. cbn [length].
    split; [lia|]. split.
    + intros H1. exists a. cbn [replicate]. f_equal.
      apply boundaries_zero. lia.
    + intros (v & Hv). cbn [replicate] in Hv. injection Hv as <- Hl.
      apply boundaries_zero in Hl. lia.
Qed.
End BatteryRunsOutcome.

(** ** Frequencies *)

Lemma Zsum_indicator (x : Z) (k : nat) :
  forall a,
    Zsum (map (fun v => if Z.eq_dec x v then 1 else 0) (seqZ a (Z.of_nat k)))
    = if bool_decide (a <= x < a + Z.of_nat k) then 1 else 0.
Proof.
  induction k as [|k IH]; intros a.
  - simpl. rewrite bool_decide_eq_false_2 by lia. reflexivity.
  - rewrite seqZ_cons by lia. cbn [map Zsum foldr]. fold (Zsum).
    replace (Z.pred (Z.of_nat (Datatypes.S k))) with (Z.of_nat k) by lia.
    change (foldr Z.add 0) with Zsum.
    rewrite IH. destruct (Z.eq_dec x a) as [->|Hne].
    + rewrite bool_decide_eq_false_2 by lia.
      rewrite bool_decide_eq_true_2 by lia. lia.
    + destruct (decide (Z.succ a <= x < Z.succ a + Z.of_nat k)) as [H|H].
      * rewrite !bool_decide_eq_true_2 by lia. lia.
      * rewrite !bool_decide_eq_false_2 by lia. lia.
Qed.

Lemma Zsum_map_add {A : Type} (f g : A -> Z) (l : list A) :
  Zsum (map (fun v => f v + g v) l) = Zsum (map f l) + Zsum (map g l).
Proof.
  induction l as [|x l IH]; [reflexivity|].
  cbn [map Zsum foldr]. change (foldr Z.add 0) with Zsum. rewrite IH. lia.
Qed.

(** Every element is counted in exactly one bin. *)
Lemma Zsum_count_occ (nums : list Z) (L : nat) :
  Forall (fun x => 0 <= x < Z.of_nat L) nums ->
  Zsum (map (fun v => Z.of_nat (count_occ Z.eq_dec nums v)) (seqZ 0 (Z.of_nat L)))
  = Z.of_nat (length nums).
Proof.
  induction 1 as [|x l Hx _ IH].
  - simpl. induction (seqZ 0 (Z.of_nat L)) as [|v vs IHv]; [reflexivity|].
    cbn [map Zsum foldr]. change (foldr Z.add 0) with Zsum. rewrite IHv. lia.
  - rewrite (map_ext _ (fun v => (if Z.eq_dec x v then 1 else 0)
                                 + Z.of_nat (count_occ Z.eq_dec l v))).
    + rewrite Zsum_map_add, IH, Zsum_indicator.
      rewrite bool_decide_eq_true_2 by lia. cbn [length]. lia.
    + intros v. cbn [count_occ]. destruct (Z.eq_dec x v); lia.
Qed.

Lemma bins_needed_spec (x : list Z) :
  Forall (fun v => 0 <= v) x ->
  0 <= bins_needed x /\ Forall (fun v => v < bins_needed x) x /\
  (forall N, bins_needed x <= N <-> 0 <= N /\ Forall (fun v => v < N) x).
Proof.
  induction 1 as [|v l Hv _ (H0 & Hall & Hiff)].
  - simpl. repeat split; try lia; constructor.
  - cbn [bins_needed foldr]. fold (bins_needed l). split; [lia|]. split.
    + constructor; [lia|]. eapply Forall_impl; [exact Hall|].
      intros w Hw. cbv beta in *. lia.
    + intros N. rewrite Forall_cons. specialize (Hiff N). split.
      * intros HN. split; [lia|]. split; [lia|]. apply Hiff. lia.
      * intros (HN0 & HvN & Hl).
        assert (bins_needed l <= N) by (apply Hiff; auto). lia.
Qed.

(** [np.bincount] on non-negative values: the bins of the declared range,
    more if a value needs them, and every element counted once. *)
Lemma bincount_frequencies (nums : list Z) (N : Z) :
  Forall (fun x => 0 <= x) nums -> 0 <= N ->
  exists observed,
    np_bincount nums N = OK observed /\
    Z.of_nat (length observed) = Z.max N (bins_needed nums) /\
    Zsum observed = Z.of_nat (length nums).
Proof.
  intros Hpos HN. unfold np_bincount.
  assert (Hneg : existsb (fun v => v <? 0) nums = false).
  { induction Hpos as [|x l Hx _ IH]; simpl; [reflexivity|].
    rewrite IH. destruct (Z.ltb_spec x 0); [lia | reflexivity]. }
  rewrite Hneg. destruct (Z.ltb_spec N 0); [lia|]. cbn [orb].
  fold (bins_needed nums).
  destruct (bins_needed_spec nums Hpos) as (H0 & Hall & _).
  set (L := Z.max N (bins_needed nums)).
  eexists. split; [reflexivity|]. split.
  - rewrite length_map, length_seqZ. lia.
  - replace L with (Z.of_nat (Z.to_nat L)) by lia.
    apply Zsum_count_occ. eapply Forall_impl.
    + apply Forall_and. split; [exact Hpos | exact Hall].
    + intros x [Hx1 Hx2]. cbv beta in *. lia.
Qed.

Lemma bincount_negative (nums : list Z) (N x : Z) :
  In x nums -> x < 0 -> np_bincount nums N = Raise ValueError.
Proof.
  intros Hin Hx. unfold np_bincount.
  assert (H : existsb (fun v => v <? 0) nums = true).
  { apply existsb_exists. exists x. split; [exact Hin|].
    destruct (Z.ltb_spec x 0); [reflexivity | lia]. }
  rewrite H. reflexivity.
Qed.

Section BatteryFrequencies.
Context {scipy : ScipyStats}.

(** The uniformity test on non-negative values, for [self.N >= 1]:
    [stats.chisquare] receives the observed frequencies and [self.N]
    expected counts [self.count / self.N]; the frequencies sum to the
    length of the sequence; there are [max(self.N, max + 1)] of them, so the
    two arrays have the same length exactly when every value is below
    [self.N]. *)
Theorem test_uniformity_frequencies :
  forall (t : StatisticalTester) (nums : list Z),
    nums <> [] -> 1 <= self_N t -> Forall (fun x => 0 <= x) nums ->
    exists observed,
      test_uniformity (Heap t nums)
      = (match chisquare observed
                 (replicate (Z.to_nat (self_N t))
                            (Fin (IZR (self_count t) / IZR (self_N t)))) with
         | OK r => OK (UniformityResult r.1 r.2 (fgtb r.2 alpha))
         | Raise e => Raise e
         end, Heap t nums) /\
      Zsum observed = Z.of_nat (length nums) /\
      Z.of_nat (length observed) = Z.max (self_N t) (bins_needed nums) /\
      (Z.of_nat (length observed) = self_N t <-> Forall (fun x => x < self_N t) nums).
Proof.
  intros t nums _ HN Hpos.
  destruct (bincount_frequencies nums (self_N t) Hpos ltac:(lia))
    as (observed & Hb & Hlen & Hsum).
  exists observed. split; [|split; [exact Hsum | split; [exact Hlen|]]].
  - rewrite (test_uniformity_eval (Heap t nums) observed Hb) by (cbn; lia).
    cbn [self self_N self_count]. unfold of_Z. cbn [fmul].
    rewrite fdiv_Fin by (apply not_0_IZR; lia).
    replace (1 * IZR (self_count t) / IZR (self_N t))%R
      with (IZR (self_count t) / IZR (self_N t))%R by (unfold Rdiv; ring).
    reflexivity.
  - rewrite Hlen. destruct (bins_needed_spec nums Hpos) as (_ & _ & Hiff).
    specialize (Hiff (self_N t)). split.
    + intros Hmax. apply Hiff. lia.
    + intros Hall. assert (bins_needed nums <= self_N t) by (apply Hiff; split; [lia | exact Hall]).
      lia.
Qed.

(** A negative value anywhere in the sequence makes the uniformity test, the
    entropy test and the whole battery raise [ValueError], the tester and
    the array left as they were. *)
Theorem negative_value_rejected :
  forall (t : StatisticalTester) (nums : list Z) (x : Z),
    In x nums -> x < 0 ->
    test_uniformity (Heap t nums) = (Raise ValueError, Heap t nums) /\
    test_entropy (Heap t nums) = (Raise ValueError, Heap t nums) /\
    run_all_tests (Heap t nums) = (Raise ValueError, Heap t nums).
Proof.
  intros t nums x Hin Hx.
  pose proof (bincount_negative nums (self_N t) x Hin Hx) as Hb.
  assert (Hu : test_uniformity (Heap t nums) = (Raise ValueError, Heap t nums)).
  { unfold test_uniformity, bind, get_numbers, get_N, lift. cbn [fst snd numbers self].
    rewrite Hb. reflexivity. }
  split; [exact Hu|]. split.
  - unfold test_entropy, bind, get_numbers, get_N, lift. cbn [fst snd numbers self].
    rewrite Hb. reflexivity.
  - unfold run_all_tests. cbn [run_tests]. unfold bind at 1. rewrite Hu. reflexivity.
Qed.
End BatteryFrequencies.

Lemma test_uniformity_frequencies_witness :
  [0; 5; 1] <> [] /\ 1 <= self_N (Tester 3 3) /\
  Forall (fun x => 0 <= x) [0; 5; 1] /\
  exists observed,
    test_uniformity (scipy := scipy_nan) (Heap (Tester 3 3) [0; 5; 1])
    = (match chisquare (ScipyStats := scipy_nan) observed
               (replicate (Z.to_nat (self_N (Tester 3 3)))
                          (Fin (IZR (self_count (Tester 3 3)) / IZR (self_N (Tester 3 3))))) with
       | OK r => OK (UniformityResult r.1 r.2 (fgtb r.2 alpha))
       | Raise e => Raise e
       end, Heap (Tester 3 3) [0; 5; 1]) /\
    Zsum observed = Z.of_nat (length [0; 5; 1]) /\
    Z.of_nat (length observed) = Z.max (self_N (Tester 3 3)) (bins_needed [0; 5; 1]) /\
    (Z.of_nat (length observed) = self_N (Tester 3 3)
     <-> Forall (fun x => x < self_N (Tester 3 3)) [0; 5; 1]).
Proof.
  assert (H0 : [0; 5; 1] <> []) by discriminate.
  assert (H1 : 1 <= self_N (Tester 3 3)) by (simpl; lia).
  assert (H2 : Forall (fun x => 0 <= x) [0; 5; 1]) by (repeat constructor; lia).
  split; [exact H0 | split; [exact H1 | split; [exact H2|]]].
  apply (test_uniformity_frequencies (scipy := scipy_nan) (Tester 3 3) [0; 5; 1] H0 H1 H2).
Defined.

Lemma negative_value_rejected_witness :
  In (-1) [2; -1; 0] /\ -1 < 0 /\
  test_uniformity (scipy := scipy_nan) (Heap (Tester 3 3) [2; -1; 0])
  = (Raise ValueError, Heap (Tester 3 3) [2; -1; 0]) /\
  test_entropy (Heap (Tester 3 3) [2; -1; 0])
  = (Raise ValueError, Heap (Tester 3 3) [2; -1; 0]) /\
  run_all_tests (scipy := scipy_nan) (Heap (Tester 3 3) [2; -1; 0])
  = (Raise ValueError, Heap (Tester 3 3) [2; -1; 0]).
Proof.
  assert (H1 : In (-1) [2; -1; 0]) by (simpl; tauto).
  assert (H2 : -1 < 0) by lia.
  split; [exact H1 | split; [exact H2|]].
  apply (negative_value_rejected (scipy := scipy_nan) (Tester 3 3) [2; -1; 0] (-1) H1 H2).
Defined.

(** ** Entropy of a perfectly uniform sequence *)

Lemma count_occ_period (N : nat) (v : Z) :
  count_occ Z.eq_dec (period N) v = if bool_decide (0 <= v < Z.of_nat N) then 1%nat else 0%nat.
Proof.
  unfold period. induction N as [|N IH].
  - simpl. rewrite bool_decide_eq_false_2 by lia. reflexivity.
  - rewrite seq_S, map_app, count_occ_app, IH. cbn [map count_occ Nat.add].
    destruct (Z.eq_dec (Z.of_nat N) v) as [<-|Hne].
    + rewrite bool_decide_eq_false_2 by lia.
      rewrite bool_decide_eq_true_2 by lia. reflexivity.
    + destruct (decide (0 <= v < Z.of_nat N)) as [H|H].
      * rewrite !bool_decide_eq_true_2 by lia. reflexivity.
      * rewrite !bool_decide_eq_false_2 by lia. reflexivity.
Qed.

Lemma count_occ_periodic (N k : nat) (v : Z) :
  count_occ Z.eq_dec (periodic N k) v
  = if bool_decide (0 <= v < Z.of_nat N) then k else 0%nat.
Proof.
  unfold periodic. induction k as [|k IH].
  - simpl. destruct (bool_decide _); reflexivity.
  - cbn [replicate concat]. rewrite count_occ_app, IH, count_occ_period.
    destruct (bool_decide _); reflexivity.
Qed.

Lemma periodic_length (N k : nat) : length (periodic N k) = (k * N)%nat.
Proof.
  unfold periodic. induction k as [|k IH]; [reflexivity|].
  cbn [replicate concat]. rewrite length_app, IH, period_length. lia.
Qed.

Lemma periodic_in_range (N k : nat) :
  Forall (fun x => 0 <= x < Z.of_nat N) (periodic N k).
Proof.
  unfold periodic. induction k as [|k IH]; [constructor|].
  cbn [replicate concat]. apply Forall_app. split; [|exact IH].
  unfold period. apply Forall_forall. intros x Hx.
  apply list_elem_of_In, in_map_iff in Hx. destruct Hx as (i & <- & Hi).
  apply in_seq in Hi. lia.
Qed.

Lemma bincount_periodic (N k : nat) :
  np_bincount (periodic N k) (Z.of_nat N) = OK (replicate N (Z.of_nat k)).
Proof.
  rewrite bincount_in_range by (apply periodic_in_range || lia).
  f_equal. unfold seqZ. rewrite Nat2Z.id.
  change (@fmap list list_fmap nat Z) with (@map nat Z). rewrite map_map.
  apply (map_const_seq _ (Z.of_nat k) 0 N). intros i Hi. cbv beta.
  rewrite count_occ_periodic, bool_decide_eq_true_2 by lia. reflexivity.
Qed.

Lemma map_replicate {A B : Type} (f : A -> B) (n : nat) (x : A) :
  map f (replicate n x) = replicate n (f x).
Proof. induction n as [|n IH]; [reflexivity|]. cbn [replicate map]. rewrite IH. reflexivity. Qed.

Lemma Rsum_replicate (n : nat) (x : R) : Rsum (replicate n x) = (INR n * x)%R.
Proof.
  induction n as [|n IH]; [simpl; lra|].
  cbn [replicate Rsum foldr]. fold (Rsum (replicate n x)). rewrite IH, S_INR. lra.
Qed.

(** The entropy sum when every bin holds the same share [p > 0]. *)
Lemma entropy_equal_shares (n : nat) (p : R) :
  (0 < p)%R ->
  entropy_of (replicate n (Fin p))
  = Fin (- (INR n * (p * (ln (p + 1 / 10000000000) / ln 2)))).
Proof.
  intros Hp. unfold entropy_of, epsilon.
  assert (Hm : map (fun q => fmul q (flog2 (fadd q (Fin (1 / 10000000000)))))
                   (replicate n (Fin p))
               = map Fin (replicate n (p * (ln (p + 1 / 10000000000) / ln 2))%R)).
  { rewrite !map_replicate. cbn [fadd]. rewrite flog2_Fin by lra. reflexivity. }
  rewrite Hm, np_sum_Fin, Rsum_replicate. reflexivity.
Qed.

Lemma uniform_entropy_bounds (n : R) :
  (2 <= n <= 500000000)%R ->
  (9 / 10 < - (ln (1 / n + 1 / 10000000000) / ln 2) / (ln n / ln 2) < 1)%R.
Proof.
  intros Hn.
  pose proof ln_lt_2 as H2.
  assert (Hln : (ln 2 <= ln n)%R).
  { destruct (Req_dec n 2) as [->|Hne]; [lra|]. left. apply ln_increasing; lra. }
  set (e := (1 / 10000000000)%R).
  assert (He : (0 < n * e <= 5 / 100)%R) by (unfold e; lra).
  assert (Hsplit : ln (1 / n + e) = (ln (1 + n * e) - ln n)%R).
  { replace (1 / n + e)%R with ((1 + n * e) * / n)%R by (field; lra).
    rewrite ln_mult by (try apply Rinv_0_lt_compat; lra).
    rewrite ln_Rinv by lra. lra. }
  assert (Hsmall : (0 < ln (1 + n * e) < n * e)%R).
  { split.
    - rewrite <- ln_1. apply ln_increasing; lra.
    - rewrite <- (ln_exp (n * e)) at 2. apply ln_increasing; [lra|].
      apply exp_ineq1. lra. }
  rewrite Hsplit.
  replace (- ((ln (1 + n * e) - ln n) / ln 2) / (ln n / ln 2))%R
    with (1 - ln (1 + n * e) / ln n)%R by (field; lra).
  assert (Hq : (0 < ln (1 + n * e) / ln n < 1 / 10)%R).
  { split.
    - apply Rdiv_lt_0_compat; lra.
    - apply (Rmult_lt_reg_r (ln n)); [lra|].
      unfold Rdiv at 1. rewrite Rmult_assoc, Rinv_l by lra. lra. }
  lra.
Qed.

(** The entropy test on [k >= 1] periods of [0, 1, ..., N-1], for
    [2 <= N <= 500000000]: the entropy is [-log2(1/N + 1e-10)], the maximum
    is [log2 N], the ratio lies strictly between 0.9 and 1 and the verdict
    is high entropy. *)
Theorem test_entropy_uniform_sequence :
  forall (count : Z) (N k : nat),
    2 <= Z.of_nat N <= 500000000 -> (1 <= k)%nat ->
    exists H r : R,
      test_entropy (Heap (Tester (Z.of_nat N) count) (periodic N k))
      = (OK (EntropyResult (Fin H) (Fin (ln (INR N) / ln 2)) (Fin r) true),
         Heap (Tester (Z.of_nat N) count) (periodic N k)) /\
      H = (- (ln (1 / INR N + 1 / 10000000000) / ln 2))%R /\
      r = (H / (ln (INR N) / ln 2))%R /\
      (9 / 10 < r < 1)%R.
Proof.
  intros count N k HN Hk.
  assert (HNr : (2 <= INR N <= 500000000)%R).
  { rewrite INR_IZR_INZ. split; apply IZR_le; lia. }
  pose proof (uniform_entropy_bounds (INR N) HNr) as Hb.
  pose proof ln_lt_2 as H2.
  assert (HlnN : (0 < ln (INR N))%R).
  { rewrite <- ln_1. apply ln_increasing; lra. }
  rewrite (test_entropy_eval (Heap (Tester (Z.of_nat N) count) (periodic N k)) _
             (bincount_periodic N k)).
  cbn [numbers self self_N]. rewrite periodic_length.
  assert (Hprobs : map (fun c => fdiv (of_Z c) (of_Z (Z.of_nat (k * N))))
                       (replicate N (Z.of_nat k))
                   = replicate N (Fin (1 / INR N))).
  { assert (E : fdiv (of_Z (Z.of_nat k)) (of_Z (Z.of_nat (k * N))) = Fin (1 / INR N)).
    { unfold of_Z. rewrite <- !INR_IZR_INZ, mult_INR.
      assert (Hk0 : (0 < INR k)%R) by (apply lt_0_INR; lia).
      rewrite fdiv_Fin by nra. f_equal. field. lra. }
    rewrite map_replicate, E. reflexivity. }
  rewrite Hprobs, entropy_equal_shares by (apply Rdiv_lt_0_compat; lra).
  unfold of_Z. rewrite <- INR_IZR_INZ, flog2_Fin by lra.
  rewrite fdiv_Fin by (apply Rgt_not_eq, Rdiv_lt_0_compat; lra).
  replace (- (INR N * (1 / INR N * (ln (1 / INR N + 1 / 10000000000) / ln 2))))%R
    with (- (ln (1 / INR N + 1 / 10000000000) / ln 2))%R by (field; lra).
  eexists _, _. split; [|split; [reflexivity | split; [reflexivity | exact Hb]]].
  assert (Hv : fgtb (Fin (- (ln (1 / INR N + 1 / 10000000000) / ln 2)
                          / (ln (INR N) / ln 2))) (Fin (9 / 10)) = true)
    by (apply fgtb_Fin; lra).
  rewrite Hv. reflexivity.
Qed.

Lemma test_entropy_uniform_sequence_witness :
  2 <= Z.of_nat 4 <= 500000000 /\ (1 <= 3)%nat /\
  exists H r : R,
    test_entropy (Heap (Tester (Z.of_nat 4) 12) (periodic 4 3))
    = (OK (EntropyResult (Fin H) (Fin (ln (INR 4) / ln 2)) (Fin r) true),
       Heap (Tester (Z.of_nat 4) 12) (periodic 4 3)) /\
    H = (- (ln (1 / INR 4 + 1 / 10000000000) / ln 2))%R /\
    r = (H / (ln (INR 4) / ln 2))%R /\
    (9 / 10 < r < 1)%R.
Proof.
  assert (H1 : 2 <= Z.of_nat 4 <= 500000000) by (simpl; lia).
  assert (H2 : (1 <= 3)%nat) by lia.
  split; [exact H1 | split; [exact H2|]].
  apply (test_entropy_uniform_sequence 12 4 3 H1 H2).
Defined.

(** ** Entropy with a single value in range *)

(** The entropy test of a tester with [N = 1] on a sequence of zeros: the
    maximal entropy [log2 1] is zero, the ratio of the (negative) entropy to
    it is minus infinity, and the verdict is low entropy. *)
Theorem test_entropy_single_value_range :
  forall (count : Z) (n : nat),
    (1 <= n)%nat ->
    test_entropy (Heap (Tester 1 count) (replicate n 0))
    = (OK (EntropyResult (Fin (- (ln (1 + 1 / 10000000000) / ln 2)))
                         (Fin 0) NInf false),
       Heap (Tester 1 count) (replicate n 0)).
Proof.
  intros count n Hn.
  pose proof log2_smoothing_bounds as HL.
  rewrite (test_entropy_eval (Heap (Tester 1 count) (replicate n 0)) _
             (bincount_constant n 0 1 Hn ltac:(lia))).
  cbn [numbers self self_N]. rewrite length_replicate.
  rewrite (entropy_constant n 0 1 Hn ltac:(lia)).
  assert (Hmax : flog2 (of_Z 1) = Fin 0).
  { unfold of_Z. rewrite flog2_Fin by lra. rewrite ln_1. f_equal. unfold Rdiv. ring. }
  rewrite Hmax.
  assert (Hr : fdiv (Fin (- (ln (1 + 1 / 10000000000) / ln 2))) (Fin 0) = NInf).
  { unfold fdiv. destruct (Req_dec_T 0 0) as [_|H0]; [|contradiction].
    destruct (Req_dec_T (- (ln (1 + 1 / 10000000000) / ln 2)) 0) as [E|_]; [lra|].
    unfold inf_of_sign. destruct (Rlt_dec 0 _); [lra | reflexivity]. }
  rewrite Hr. reflexivity.
Qed.

(** ** The battery as a cascade *)

Section BatteryCascade.
Context {scipy : ScipyStats}.

(** The battery stops at the first test that raises and raises what that
    test raises; when none does, it returns the five records in order.
    Every test is given the tester and the array as the battery received
    them. *)
Theorem run_all_tests_cascade :
  forall h : heap,
    fst (run_all_tests h)
    = match fst (test_uniformity h) with
      | Raise e => Raise e
      | OK r1 =>
          match fst (test_independence h) with
          | Raise e => Raise e
          | OK r2 =>
              match fst (test_gap_distribution h) with
              | Raise e => Raise e
              | OK r3 =>
                  match fst (test_runs h) with
                  | Raise e => Raise e
                  | OK r4 =>
                      match fst (test_entropy h) with
                      | Raise e => Raise e
                      | OK r5 => OK [r1; r2; r3; r4; r5]
                      end
                  end
              end
          end
      end.
Proof.
  intros h. unfold run_all_tests. cbn [run_tests]. unfold bind.
  pose proof (readonly_test_uniformity h) as R1.
  destruct (test_uniformity h) as [[r1|e] h1]; cbn [fst snd] in *; [subst h1 | reflexivity].
  pose proof (readonly_test_independence h) as R2.
  destruct (test_independence h) as [[r2|e] h2]; cbn [fst snd] in *; [subst h2 | reflexivity].
  pose proof (readonly_test_gap_distribution h) as R3.
  destruct (test_gap_distribution h) as [[r3|e] h3]; cbn [fst snd] in *; [subst h3 | reflexivity].
  pose proof (readonly_test_runs h) as R4.
  destruct (test_runs h) as [[r4|e] h4]; cbn [fst snd] in *; [subst h4 | reflexivity].
  destruct (test_entropy h) as [[r5|e] h5]; reflexivity.
Qed.
End BatteryCascade.

Lemma test_entropy_single_value_range_witness :
  (1 <= 4)%nat /\
  test_entropy (Heap (Tester 1 4) (replicate 4 0))
  = (OK (EntropyResult (Fin (- (ln (1 + 1 / 10000000000) / ln 2)))
                       (Fin 0) NInf false),
     Heap (Tester 1 4) (replicate 4 0)).
Proof.
  assert (H : (1 <= 4)%nat) by lia.
  split; [exact H | apply (test_entropy_single_value_range 4 4 H)].
Defined.

(** ** [main.py]: the tables written beside the test results *)

Lemma writerow_rows (path : string) (row : list cell) (rows : list (list cell))
      (fs : files) :
  fs !! path = Some rows ->
  writerow path row fs = (OK tt, <[path := rows ++ [row]]> fs).
Proof. intros H. unfold writerow. rewrite H. reflexivity. Qed.

Lemma for_each_rows (path : string) (counts : list Z) (f : Z -> Z -> Z -> list cell)
      (g : Z -> Z) (l : list Z) :
  (forall i, In i l -> counts !! Z.to_nat i = Some (g i)) ->
  forall (fs : files) (rows : list (list cell)),
    fs !! path = Some rows ->
    for_each l (fun i => c <~ index counts (Z.to_nat i) ;;
                         c' <~ index counts (Z.to_nat i) ;;
                         writerow path (f i c c')) fs
    = (OK tt, <[path := rows ++ map (fun i => f i (g i) (g i)) l]> fs).
Proof.
  induction l as [|i l IH]; intros Hc fs rows Hfs.
  - cbn [for_each map]. unfold ret. rewrite app_nil_r, insert_id by exact Hfs. reflexivity.
  - cbn [for_each]. unfold bind at 1. unfold bind at 1. unfold index at 1.
    rewrite (Hc i) by (left; reflexivity). unfold ret at 1.
    unfold bind at 1. unfold index at 1.
    rewrite (Hc i) by (left; reflexivity). unfold ret at 1.
    rewrite (writerow_rows _ _ rows) by exact Hfs.
    rewrite (IH (fun j Hj => Hc j (or_intror Hj)) _ (rows ++ [f i (g i) (g i)])).
    + rewrite insert_insert_eq. cbn [map]. rewrite <- app_assoc. reflexivity.
    + apply lookup_insert_eq.
Qed.

Lemma bincount_lookup (numbers : list Z) (N : Z) (counts : list Z) (i : Z) :
  np_bincount numbers N = OK counts -> 0 <= i < N ->
  counts !! Z.to_nat i = Some (Z.of_nat (count_occ Z.eq_dec numbers i)).
Proof.
  unfold np_bincount. destruct (_ || _); [discriminate|]. intros [= <-] Hi.
  change (map ?f ?l) with (f <$> l).
  rewrite list_lookup_fmap, lookup_seqZ_lt by lia.
  cbn [fmap option_fmap option_map]. rewrite Z.add_0_l, Z2Nat.id by lia. reflexivity.
Qed.

Lemma Zsum_count_below (numbers : list Z) (N : nat) :
  Forall (fun x => 0 <= x) numbers ->
  Zsum (map (fun i => Z.of_nat (count_occ Z.eq_dec numbers i)) (seqZ 0 (Z.of_nat N)))
  = Z.of_nat (length (filter (fun x => x < Z.of_nat N) numbers)).
Proof.
  induction 1 as [|x l Hx _ IH].
  - simpl. induction (seqZ 0 (Z.of_nat N)) as [|v vs IHv]; [reflexivity|].
    cbn [map Zsum foldr]. change (foldr Z.add 0) with Zsum. rewrite IHv. lia.
  - rewrite (map_ext _ (fun v => (if Z.eq_dec x v then 1 else 0)
                                 + Z.of_nat (count_occ Z.eq_dec l v))).
    + rewrite Zsum_map_add, IH, Zsum_indicator, filter_cons.
      destruct (decide (x < Z.of_nat N)) as [Hlt|Hge].
      * rewrite bool_decide_eq_true_2 by lia. cbn [length]. lia.
      * rewrite bool_decide_eq_false_2 by lia. lia.
    + intros v. cbn [count_occ]. destruct (Z.eq_dec x v); lia.
Qed.

Lemma save_frequency_table_rejects (numbers : list Z) (N : Z) (save_path : string)
      (fs : files) :
  (exists x, In x numbers /\ x < 0) \/ N < 0 ->
  save_frequency_table numbers N save_path fs = (Raise ValueError, fs).
Proof.
  intros Hbad.
  assert (Hb : np_bincount numbers N = Raise ValueError).
  { destruct Hbad as [(x & Hin & Hx)|HN].
    - exact (bincount_negative numbers N x Hin Hx).
    - unfold np_bincount. destruct (Z.ltb_spec N 0); [|lia].
      rewrite orb_true_r. reflexivity. }
  unfold save_frequency_table, bind, lift. rewrite Hb. reflexivity.
Qed.

Lemma save_frequency_table_written (numbers : list Z) (N : Z) (save_path : string)
      (fs : files) :
  Forall (fun x => 0 <= x) numbers -> 0 <= N ->
  save_frequency_table numbers N save_path fs
  = (OK tt, <[save_path := frequency_rows numbers N]> fs).
Proof.
  intros Hpos HN.
  destruct (bincount_frequencies numbers N Hpos HN) as (counts & Hb & _).
  unfold save_frequency_table. unfold bind at 1. unfold lift. rewrite Hb.
  unfold bind at 1. unfold open_w at 1. unfold bind at 1.
  rewrite (writerow_rows _ _ []) by apply lookup_insert_eq.
  rewrite insert_insert_eq.
  assert (Hlk : forall i, In i (seqZ 0 N) ->
                      counts !! Z.to_nat i
                      = Some (Z.of_nat (count_occ Z.eq_dec numbers i))).
  { intros i Hi. apply list_elem_of_In, elem_of_seqZ in Hi.
    apply (bincount_lookup numbers N counts i Hb). lia. }
  rewrite (for_each_rows save_path counts
             (fun i c c' => [IntCell i; IntCell c;
                             FloatCell (fdiv (of_Z c') (of_Z (Z.of_nat (length numbers))))])
             (fun i => Z.of_nat (count_occ Z.eq_dec numbers i))
             (seqZ 0 N) Hlk _
             [[StrCell "Value"; StrCell "Count"; StrCell "Frequency"]])
    by apply lookup_insert_eq.
  rewrite insert_insert_eq. reflexivity.
Qed.

Lemma Zsum_count_range (numbers : list Z) (N : Z) :
  Forall (fun x => 0 <= x) numbers -> 0 <= N ->
  Zsum (map (fun i => Z.of_nat (count_occ Z.eq_dec numbers i)) (seqZ 0 N))
  = Z.of_nat (length (filter (fun x => x < N) numbers)).
Proof.
  intros Hpos HN. replace N with (Z.of_nat (Z.to_nat N)) by lia.
  apply Zsum_count_below. exact Hpos.
Qed.

(** [save_frequency_table] on a non-empty array: a negative value or a
    negative [N] raises [ValueError] before the file is opened, so no file
    is touched; otherwise the file at [save_path] is replaced by the header
    and one row [i, count of i, count of i / len] for each [i] in
    [range(N)], and the counts written sum to the number of values below
    [N]. *)
Theorem save_frequency_table_outcome :
  forall (numbers : list Z) (N : Z) (save_path : string) (fs : files),
    numbers <> [] ->
    ((exists x, In x numbers /\ x < 0) \/ N < 0 ->
     save_frequency_table numbers N save_path fs = (Raise ValueError, fs)) /\
    (Forall (fun x => 0 <= x) numbers -> 0 <= N ->
     save_frequency_table numbers N save_path fs
     = (OK tt, <[save_path := frequency_rows numbers N]> fs) /\
     Zsum (map (fun i => Z.of_nat (count_occ Z.eq_dec numbers i)) (seqZ 0 N))
     = Z.of_nat (length (filter (fun x => x < N) numbers))).
Proof.
  intros numbers N save_path fs _. split.
  - apply save_frequency_table_rejects.
  - intros Hpos HN. split.
    + apply save_frequency_table_written; assumption.
    + apply Zsum_count_range; assumption.
Qed.

(** ** The gap table *)

Lemma keys_of_init (l : list Z) :
  (map (fun i => (i, @nil Z)) l).*1 = l.
Proof. induction l as [|x l IH]; [reflexivity|]. cbn. f_equal. exact IH. Qed.

Lemma gaps_dict_init (N v : Z) :
  (list_to_map (map (fun i => (i, [])) (seqZ 0 N)) : gmap Z (list Z)) !! v
  = if bool_decide (0 <= v < N) then Some [] else None.
Proof.
  destruct (decide (0 <= v < N)) as [H|H].
  - rewrite bool_decide_eq_true_2 by exact H.
    apply elem_of_list_to_map_1.
    + rewrite keys_of_init. apply NoDup_seqZ.
    + apply list_elem_of_In, in_map_iff. exists v. split; [reflexivity|].
      apply list_elem_of_In, elem_of_seqZ. lia.
  - rewrite bool_decide_eq_false_2 by exact H.
    apply not_elem_of_list_to_map_1. rewrite keys_of_init, elem_of_seqZ. lia.
Qed.

Lemma gap_table_loop_spec (N : Z) (rest : list Z) :
  forall (idx : nat) (last_pos : gmap Z nat) (gaps_dict : gmap Z (list Z)),
    (forall v, is_Some (gaps_dict !! v) <-> 0 <= v < N) ->
    match gap_table_loop idx rest last_pos gaps_dict with
    | inr gaps_dict' =>
        (forall v, 0 <= v < N ->
           gaps_dict' !! v
           = Some (default [] (gaps_dict !! v) ++ gaps_from (last_pos !! v) idx v rest)) /\
        (forall v, ~ 0 <= v < N -> gaps_from (last_pos !! v) idx v rest = [])
    | inl key =>
        ~ 0 <= key < N /\ gaps_from (last_pos !! key) idx key rest <> []
    end.
Proof.
  induction rest as [|num rest IH]; intros idx last_pos gaps_dict Hkeys.
  - cbn [gap_table_loop gaps_from]. split.
    + intros v Hv. apply Hkeys in Hv. destruct Hv as [l Hl].
      rewrite Hl. cbn [default from_option Datatypes.id]. rewrite app_nil_r. reflexivity.
    + reflexivity.
  - cbn [gap_table_loop].
    destruct (last_pos !! num) as [j|] eqn:Elp.
    + destruct (gaps_dict !! num) as [l|] eqn:Egd.
      * assert (Hnum : 0 <= num < N) by (apply Hkeys; rewrite Egd; eauto).
        specialize (IH (Datatypes.S idx) (<[num := idx]> last_pos)
                       (<[num := l ++ [Z.of_nat idx - Z.of_nat j]]> gaps_dict)).
        assert (Hkeys' : forall v,
                   is_Some ((<[num := l ++ [Z.of_nat idx - Z.of_nat j]]> gaps_dict) !! v)
                   <-> 0 <= v < N).
        { intros v. destruct (decide (v = num)) as [->|Hne].
          - rewrite lookup_insert_eq. split; [intros _; exact Hnum | eauto].
          - rewrite lookup_insert_ne by congruence. apply Hkeys. }
        specialize (IH Hkeys').
        destruct (gap_table_loop _ rest _ _) as [key|gd'].
        -- destruct IH as [Hkey Hne]. split; [exact Hkey|].
           assert (Hk : key <> num) by (intros ->; contradiction).
           cbn [gaps_from]. destruct (Z.eq_dec num key) as [E|_]; [congruence|].
           rewrite lookup_insert_ne in Hne by congruence. exact Hne.
        -- destruct IH as [Hin Hout]. split.
           ++ intros v Hv. rewrite (Hin v Hv). f_equal. cbn [gaps_from].
              destruct (Z.eq_dec num v) as [<-|Hne].
              ** rewrite !lookup_insert_eq, Elp, Egd.
                 cbn [default from_option Datatypes.id]. rewrite <- app_assoc. reflexivity.
              ** rewrite !lookup_insert_ne by congruence. reflexivity.
           ++ intros v Hv. cbn [gaps_from].
              destruct (Z.eq_dec num v) as [<-|Hne]; [contradiction|].
              specialize (Hout v Hv). rewrite lookup_insert_ne in Hout by congruence.
              exact Hout.
      * split.
        -- intros Hnum. apply Hkeys in Hnum. rewrite Egd in Hnum.
           destruct Hnum as [? ?]. discriminate.
        -- cbn [gaps_from]. destruct (Z.eq_dec num num) as [_|Hne]; [|contradiction].
           rewrite Elp. discriminate.
    + specialize (IH (Datatypes.S idx) (<[num := idx]> last_pos) gaps_dict Hkeys).
      destruct (gap_table_loop _ rest _ _) as [key|gd'].
      * destruct IH as [Hkey Hne]. split; [exact Hkey|].
        cbn [gaps_from]. destruct (Z.eq_dec num key) as [<-|Hnk].
        -- rewrite Elp. rewrite lookup_insert_eq in Hne. exact Hne.
        -- rewrite lookup_insert_ne in Hne by congruence. exact Hne.
      * destruct IH as [Hin Hout]. split.
        -- intros v Hv. rewrite (Hin v Hv). f_equal. cbn [gaps_from].
           destruct (Z.eq_dec num v) as [<-|Hne].
           ++ rewrite lookup_insert_eq, Elp. reflexivity.
           ++ rewrite lookup_insert_ne by congruence. reflexivity.
        -- intros v Hv. cbn [gaps_from].
           destruct (Z.eq_dec num v) as [<-|Hne].
           ++ rewrite Elp. specialize (Hout num Hv).
              rewrite lookup_insert_eq in Hout. exact Hout.
           ++ specialize (Hout v Hv). rewrite lookup_insert_ne in Hout by congruence.
              exact Hout.
Qed.

Lemma gaps_from_length_seen (v : Z) (rest : list Z) :
  forall (j idx : nat),
    length (gaps_from (Some j) idx v rest) = count_occ Z.eq_dec rest v.
Proof.
  induction rest as [|x rest IH]; intros j idx; [reflexivity|].
  cbn [gaps_from count_occ]. destruct (Z.eq_dec x v).
  - rewrite length_app, IH. reflexivity.
  - apply IH.
Qed.

Lemma gaps_from_length_new (v : Z) (rest : list Z) :
  forall idx : nat,
    length (gaps_from None idx v rest) = (count_occ Z.eq_dec rest v - 1)%nat.
Proof.
  induction rest as [|x rest IH]; intros idx; [reflexivity|].
  cbn [gaps_from count_occ]. destruct (Z.eq_dec x v).
  - rewrite length_app, gaps_from_length_seen. simpl. lia.
  - apply IH.
Qed.

Lemma gap_rows_written (path : string) (gaps_dict : gmap Z (list Z))
      (g : Z -> list Z) (values : list Z) :
  (forall i, In i values -> gaps_dict !! i = Some (g i)) ->
  forall (fs : files) (rows : list (list cell)),
    fs !! path = Some rows ->
    gap_rows values gaps_dict path fs
    = (Written,
       <[path := rows ++ map (fun i => [IntCell i;
                                        StrCell (String.concat "," (map pretty (g i)))])
                             values]> fs).
Proof.
  induction values as [|i values IH]; intros Hg fs rows Hfs.
  - cbn [gap_rows map]. rewrite app_nil_r, insert_id by exact Hfs. reflexivity.
  - cbn [gap_rows]. rewrite (Hg i) by (left; reflexivity).
    rewrite (writerow_rows _ _ rows) by exact Hfs. cbn [snd].
    rewrite (IH (fun k Hk => Hg k (or_intror Hk)) _
                (rows ++ [[IntCell i; StrCell (String.concat "," (map pretty (g i)))]]))
      by apply lookup_insert_eq.
    rewrite insert_insert_eq. cbn [map]. rewrite <- app_assoc. reflexivity.
Qed.

Lemma gaps_dict_keys (N : Z) :
  forall v, is_Some ((list_to_map (map (fun i => (i, [])) (seqZ 0 N))
                      : gmap Z (list Z)) !! v) <-> 0 <= v < N.
Proof.
  intros v. rewrite gaps_dict_init. destruct (decide (0 <= v < N)) as [H|H].
  - rewrite bool_decide_eq_true_2 by exact H. split; [intros _; exact H | eauto].
  - rewrite bool_decide_eq_false_2 by exact H. split; [intros [? ?]; discriminate | tauto].
Qed.

Lemma repeated_value (v : Z) (numbers : list Z) :
  gaps_from None 0 v numbers <> [] <-> (2 <= count_occ Z.eq_dec numbers v)%nat.
Proof.
  pose proof (gaps_from_length_new v numbers 0) as Hl. split.
  - intros Hne. destruct (gaps_from None 0 v numbers); [contradiction | simpl in Hl; lia].
  - intros Hc E. rewrite E in Hl. simpl in Hl. lia.
Qed.

Lemma save_gap_table_written (numbers : list Z) (N : Z) (save_path : string)
      (fs : files) :
  (forall v, (2 <= count_occ Z.eq_dec numbers v)%nat -> 0 <= v < N) ->
  save_gap_table numbers N save_path fs
  = (Written, <[save_path := gap_table_rows numbers N]> fs).
Proof.
  intros Hall.
  pose proof (gap_table_loop_spec N numbers 0 ∅
                (list_to_map (map (fun i => (i, [])) (seqZ 0 N)))
                (gaps_dict_keys N)) as Hspec.
  unfold save_gap_table.
  destruct (gap_table_loop 0 numbers ∅ _) as [key|gd'].
  - destruct Hspec as [Hkey Hne]. rewrite lookup_empty in Hne.
    exfalso. apply Hkey, Hall, repeated_value, Hne.
  - destruct Hspec as [Hin _]. unfold open_w. cbn [snd].
    rewrite (writerow_rows _ _ []) by apply lookup_insert_eq. cbn [snd].
    rewrite insert_insert_eq.
    assert (Hlk : forall i, In i (seqZ 0 N) -> gd' !! i = Some (value_gaps i numbers)).
    { intros i Hi. apply list_elem_of_In, elem_of_seqZ in Hi.
      rewrite (Hin i) by lia. rewrite gaps_dict_init, lookup_empty.
      rewrite bool_decide_eq_true_2 by lia. reflexivity. }
    rewrite (gap_rows_written save_path gd' (fun i => value_gaps i numbers) (seqZ 0 N)
               Hlk _ [[StrCell "Value"; StrCell "Gaps"]])
      by apply lookup_insert_eq.
    rewrite insert_insert_eq. reflexivity.
Qed.

(** [save_gap_table]: when every value that occurs twice lies in [range(N)],
    the file at [save_path] is replaced by the header and one row per [i] in
    [range(N)] holding the gaps between consecutive occurrences of [i],
    joined by commas; when a value outside [range(N)] occurs twice, the
    subscript of [gaps_dict] raises [KeyError] for such a value before the
    file is opened. *)
Theorem save_gap_table_outcome :
  forall (numbers : list Z) (N : Z) (save_path : string) (fs : files),
    ((forall v, (2 <= count_occ Z.eq_dec numbers v)%nat -> 0 <= v < N) ->
     save_gap_table numbers N save_path fs
     = (Written, <[save_path := gap_table_rows numbers N]> fs)) /\
    ((exists v, ~ 0 <= v < N /\ (2 <= count_occ Z.eq_dec numbers v)%nat) ->
     exists key,
       ~ 0 <= key < N /\ (2 <= count_occ Z.eq_dec numbers key)%nat /\
       save_gap_table numbers N save_path fs = (KeyError key, fs)).
Proof.
  intros numbers N save_path fs. split.
  - apply save_gap_table_written.
  - intros (v & Hv & Hc).
    pose proof (gap_table_loop_spec N numbers 0 ∅
                  (list_to_map (map (fun i => (i, [])) (seqZ 0 N)))
                  (gaps_dict_keys N)) as Hspec.
    unfold save_gap_table.
    destruct (gap_table_loop 0 numbers ∅ _) as [key|gd'].
    + destruct Hspec as [Hkey Hne]. rewrite lookup_empty in Hne.
      exists key. split; [exact Hkey|]. split; [|reflexivity].
      apply repeated_value, Hne.
    + destruct Hspec as [_ Hout]. exfalso.
      specialize (Hout v Hv). rewrite lookup_empty in Hout.
      apply repeated_value in Hc. contradiction.
Qed.

Lemma save_frequency_table_outcome_witness :
  [2; 0; 2] <> [] /\
  (((exists x, In x [2; 0; 2] /\ x < 0) \/ 3 < 0 ->
    save_frequency_table [2; 0; 2] 3 "simple_frequency.csv" ∅
    = (Raise ValueError, ∅)) /\
   (Forall (fun x => 0 <= x) [2; 0; 2] -> 0 <= 3 ->
    save_frequency_table [2; 0; 2] 3 "simple_frequency.csv" ∅
    = (OK tt, <["simple_frequency.csv" := frequency_rows [2; 0; 2] 3]> ∅) /\
    Zsum (map (fun i => Z.of_nat (count_occ Z.eq_dec [2; 0; 2] i)) (seqZ 0 3))
    = Z.of_nat (length (filter (fun x => x < 3) [2; 0; 2])))).
Proof.
  assert (H : [2; 0; 2] <> []) by discriminate.
  split; [exact H|].
  apply (save_frequency_table_outcome [2; 0; 2] 3 "simple_frequency.csv" ∅ H).
Defined.

(** ** The pooled gaps and the gaps by value *)

Lemma concat_map_app_Permutation {A B : Type} (f g : A -> list B) (l : list A) :
  concat (map (fun v => f v ++ g v) l) ≡ₚ concat (map f l) ++ concat (map g l).
Proof.
  induction l as [|x l IH]; [reflexivity|].
  cbn [map concat]. rewrite IH.
  rewrite <- !app_assoc. apply Permutation_app_head.
  rewrite !app_assoc. apply Permutation_app_tail. apply Permutation_app_comm.
Qed.

Lemma concat_map_single (num : Z) (hp : list Z) (l : list Z) :
  NoDup l -> In num l ->
  concat (map (fun v => if Z.eq_dec num v then hp else []) l) = hp.
Proof.
  induction 1 as [|x l Hx Hnd IH]; intros Hin; [destruct Hin|].
  cbn [map concat]. destruct (Z.eq_dec num x) as [->|Hne].
  - assert (Hrest : concat (map (fun v => if Z.eq_dec x v then hp else []) l) = []).
    { clear -Hx. induction l as [|y l IHl]; [reflexivity|].
      cbn [map concat]. destruct (Z.eq_dec x y) as [->|_].
      - exfalso. apply Hx. left.
      - apply IHl. intros H. apply Hx. right. exact H. }
    rewrite Hrest, app_nil_r. reflexivity.
  - destruct Hin as [->|Hin]; [contradiction|]. apply IH. exact Hin.
Qed.

Lemma gap_loop_pooled (N : Z) (rest : list Z) :
  Forall (fun x => 0 <= x < N) rest ->
  forall (i : nat) (gaps : list Z) (last_pos : gmap Z nat),
    (gap_loop i rest gaps last_pos).1
    ≡ₚ gaps ++ concat (map (fun v => gaps_from (last_pos !! v) i v rest) (seqZ 0 N)).
Proof.
  induction 1 as [|num rest Hnum _ IH]; intros i gaps last_pos.
  - cbn [gap_loop gaps_from fst].
    assert (E : concat (map (fun _ : Z => @nil Z) (seqZ 0 N)) = []).
    { induction (seqZ 0 N) as [|x l IHl]; [reflexivity | exact IHl]. }
    rewrite E, app_nil_r. reflexivity.
  - cbn [gap_loop]. rewrite IH.
    set (hp := match last_pos !! num with
               | Some j => [Z.of_nat i - Z.of_nat j]
               | None => []
               end).
    assert (Hg : (match last_pos !! num with
                  | Some j => gaps ++ [Z.of_nat i - Z.of_nat j]
                  | None => gaps
                  end) = gaps ++ hp).
    { unfold hp. destruct (last_pos !! num); [reflexivity | rewrite app_nil_r; reflexivity]. }
    rewrite Hg, <- app_assoc. apply Permutation_app_head.
    rewrite (map_ext (fun v => gaps_from (last_pos !! v) i v (num :: rest))
                     (fun v => (if Z.eq_dec num v then hp else [])
                               ++ gaps_from (<[num := i]> last_pos !! v)
                                            (Datatypes.S i) v rest)).
    + rewrite concat_map_app_Permutation.
      rewrite (concat_map_single num hp (seqZ 0 N)).
      * reflexivity.
      * apply NoDup_seqZ.
      * apply list_elem_of_In, elem_of_seqZ. lia.
    + intros v. cbn [gaps_from]. destruct (Z.eq_dec num v) as [<-|Hne].
      * rewrite lookup_insert_eq. reflexivity.
      * rewrite lookup_insert_ne by congruence. reflexivity.
Qed.

(** For values in [range(N)], the gaps the gap test pools are, up to order,
    the gaps [save_gap_table] writes row by row. *)
Theorem compute_gaps_pools_value_gaps :
  forall (numbers : list Z) (N : Z),
    Forall (fun x => 0 <= x < N) numbers ->
    compute_gaps numbers
    ≡ₚ concat (map (fun v => value_gaps v numbers) (seqZ 0 N)).
Proof.
  intros numbers N Hin. unfold compute_gaps, value_gaps.
  rewrite (gap_loop_pooled N numbers Hin 0 [] ∅). cbn [app].
  reflexivity.
Qed.

Lemma compute_gaps_pools_value_gaps_witness :
  Forall (fun x => 0 <= x < 3) [1; 2; 1; 1; 2] /\
  compute_gaps [1; 2; 1; 1; 2]
  ≡ₚ concat (map (fun v => value_gaps v [1; 2; 1; 1; 2]) (seqZ 0 3)).
Proof.
  assert (H : Forall (fun x => 0 <= x < 3) [1; 2; 1; 1; 2])
    by (repeat constructor; lia).
  split; [exact H | apply (compute_gaps_pools_value_gaps [1; 2; 1; 1; 2] 3 H)].
Defined.

(** ** [visualization.py] *)

(** ** [generate_all_distributions_bin.py] *)

(** [DistributionVisualizer.generate_all_distributions]: for [N >= 2] and
    [count >= 0] it returns the seven samples in the order of the
    dictionary, each of [count] integers in [[0, N-1]]; for [N = 1] it
    raises [ValueError] whatever [count] is. *)
Theorem generate_all_distributions_outcome :
  forall (self : DistributionVisualizer),
    exact_double (vis_N self) ->
    (2 <= vis_N self -> 0 <= vis_count self ->
     returns (generate_all_distributions self)
             (fun ds => map fst ds = [SimpleModulo; Uniform; Normal; Exponential;
                                      Poisson; ChiSquare; Mixed] /\
                        Forall (fun d => in_range (vis_N self) (vis_count self) d.2) ds)) /\
    (vis_N self = 1 -> raises (generate_all_distributions self) ValueError).
Proof.
  intros [N count] HD. cbn [vis_N vis_count] in *. unfold exact_double in HD. split.
  - intros HN Hc. unfold generate_all_distributions. cbn [vis_N vis_count].
    eapply returns_bind; [apply simple_random_in_range; lia|]. intros a Ha.
    eapply returns_bind; [apply uniform_random_in_range; lia|]. intros b Hb.
    eapply returns_bind; [apply normal_random_in_range; lia|]. intros c Hcc.
    eapply returns_bind; [apply exponential_random_in_range; lia|]. intros d Hd.
    eapply returns_bind; [apply poisson_random_in_range; lia|]. intros e He.
    eapply returns_bind; [apply chi_square_random_in_range; lia|]. intros f Hf.
    eapply returns_bind; [apply mixed_distribution_in_range; lia|]. intros m Hm.
    apply returns_ret. split; [reflexivity|].
    repeat (apply Forall_cons; split; [assumption|]). apply Forall_nil_2.
  - intros ->. unfold generate_all_distributions. cbn [vis_N vis_count]. intros g.
    destruct (Z.le_gt_cases count 0) as [Hle|Hgt].
    + unfold bind at 1. rewrite simple_random_empty by exact Hle.
      destruct (Z.eq_dec count 0) as [->|Hne].
      * reflexivity.
      * unfold bind at 1. unfold uniform_random, np_randint.
        destruct (Z.eqb_spec count 0); [contradiction|].
        cbn [orb Z.ltb Z.leb Z.compare Z.opp Pos.compare Pos.compare_cont].
        rewrite np_draws_negative by lia. reflexivity.
    + revert g.
      change (raises (simple <~ simple_random 1 count ;;
                      uniform <~ uniform_random 1 count ;;
                      normal <~ normal_random 1 count None None ;;
                      exponential <~ exponential_random 1 count None ;;
                      poisson <~ poisson_random 1 count None ;;
                      chi_square <~ chi_square_random 1 count None ;;
                      mixed <~ mixed_distribution 1 count None ;;
                      ret [(SimpleModulo, simple); (Uniform, uniform); (Normal, normal);
                           (Exponential, exponential); (Poisson, poisson);
                           (ChiSquare, chi_square); (Mixed, mixed)]) ValueError).
      eapply raises_bind; [apply simple_random_in_range; lia|]. intros a _.
      eapply raises_bind; [apply uniform_random_in_range; lia|]. intros b _.
      eapply raises_bind; [apply normal_random_in_range; lia|]. intros c _.
      eapply raises_bind; [apply exponential_random_in_range; lia|]. intros d _.
      eapply raises_bind; [apply poisson_random_in_range; lia|]. intros e _.
      intros g. unfold bind. rewrite chi_square_random_N1. reflexivity.
Qed.

Lemma uint8_identity (l : list Z) :
  Forall (fun x => 0 <= x <= 255) l ->
  map astype_uint8 (map (fun x => clipZ x 0 255) l) = l.
Proof.
  induction 1 as [|x l Hx _ IH]; [reflexivity|].
  cbn [map]. rewrite IH. f_equal. unfold astype_uint8, clipZ.
  rewrite Z.max_l, Z.min_l by lia. apply Z.mod_small. lia.
Qed.

(** The script that writes the binary files: for every generator the clip to
    [[0, 255]] and the cast to [uint8] change nothing, so the bytes written
    are the generated values, 131072 of them, each in [[0, 255]]. *)
Theorem bin_bytes_are_generated_values :
  forall (d : distribution) (g : rng),
    exists numbers g',
      generate d N_bin FILE_SIZE g = (OK numbers, g') /\
      bin_bytes d g = (OK numbers, g') /\
      Z.of_nat (length numbers) = 131072 /\
      Forall (fun b => 0 <= b <= 255) numbers.
Proof.
  intros d g.
  destruct (generate_in_range d N_bin FILE_SIZE ltac:(unfold N_bin; lia)
              ltac:(unfold N_bin; lia)
              ltac:(intros; unfold N_bin; lia) ltac:(unfold FILE_SIZE; lia) g)
    as (numbers & g' & E & Hlen & Hall).
  exists numbers, g'. split; [exact E|].
  assert (Hb : Forall (fun b => 0 <= b <= 255) numbers).
  { eapply Forall_impl; [exact Hall|]. intros x Hx. cbv beta in Hx. unfold N_bin in Hx. lia. }
  split; [|split; [exact Hlen | exact Hb]].
  unfold bin_bytes, bind. rewrite E. unfold ret. rewrite uint8_identity by exact Hb.
  reflexivity.
Qed.

Lemma generate_all_distributions_outcome_witness :
  exact_double (vis_N (Visualizer 100 10000)) /\
  ((2 <= vis_N (Visualizer 100 10000) -> 0 <= vis_count (Visualizer 100 10000) ->
    returns (generate_all_distributions (Visualizer 100 10000))
            (fun ds => map fst ds = [SimpleModulo; Uniform; Normal; Exponential;
                                     Poisson; ChiSquare; Mixed] /\
                       Forall (fun d => in_range (vis_N (Visualizer 100 10000))
                                                 (vis_count (Visualizer 100 10000)) d.2) ds)) /\
   (vis_N (Visualizer 100 10000) = 1 ->
    raises (generate_all_distributions (Visualizer 100 10000)) ValueError)).
Proof.
  assert (H : exact_double (vis_N (Visualizer 100 10000)))
    by (unfold exact_double; simpl; lia).
  split; [exact H | apply (generate_all_distributions_outcome (Visualizer 100 10000) H)].
Defined.

(** ** From the generator to the tables and the battery *)

Lemma in_range_bounds (N count : Z) (l : list Z) :
  in_range N count l ->
  Forall (fun x => 0 <= x) l /\ Forall (fun x => x < N) l /\
  Forall (fun x => 0 <= x < N) l.
Proof.
  intros [_ Hall]. repeat split; (eapply Forall_impl; [exact Hall|]);
    intros x Hx; cbv beta in *; lia.
Qed.

Lemma filter_all {A : Type} (P : A -> Prop) `{forall x, Decision (P x)} (l : list A) :
  Forall P l -> filter P l = l.
Proof.
  induction 1 as [|x l Hx _ IH]; [reflexivity|].
  rewrite filter_cons. destruct (decide (P x)); [|contradiction].
  rewrite IH. reflexivity.
Qed.

(** What [main] does with a generated sequence, for [N >= 2] and
    [count >= 1] and every generator: both tables are written without an
    exception, and the counts of the frequency table sum to [count]. *)
Theorem generated_tables_written :
  forall (d : distribution) (N count : Z),
    exact_double N -> 2 <= N -> 1 <= count ->
    returns (generate d N count)
            (fun numbers =>
               forall (save_path : string) (fs : files),
                 save_frequency_table numbers N save_path fs
                 = (OK tt, <[save_path := frequency_rows numbers N]> fs) /\
                 Zsum (map (fun i => Z.of_nat (count_occ Z.eq_dec numbers i)) (seqZ 0 N))
                 = count /\
                 save_gap_table numbers N save_path fs
                 = (Written, <[save_path := gap_table_rows numbers N]> fs)).
Proof.
  intros d N count HD HN Hc. unfold exact_double in HD.
  eapply returns_weaken.
  - apply (generate_in_range d N count); [lia | lia | intros; lia | lia].
  - intros numbers Hr save_path fs. cbv beta.
    destruct (in_range_bounds N count numbers Hr) as (Hpos & Hlt & Hboth).
    destruct Hr as [Hlen _].
    split; [apply save_frequency_table_written; [exact Hpos | lia]|]. split.
    + rewrite Zsum_count_range by (try exact Hpos; lia).
      rewrite (filter_all (fun x => x < N)) by exact Hlt. exact Hlen.
    + apply save_gap_table_written. intros v Hv.
      assert (Hin : In v numbers).
      { apply (count_occ_In Z.eq_dec). lia. }
      rewrite Forall_forall in Hboth. apply Hboth, list_elem_of_In, Hin.
Qed.

Section BatteryOnGenerated.
Context {scipy : ScipyStats}.

(** The battery of a tester declared with the same [N] and [count] on a
    generated sequence, for [N >= 2] and [count >= 2]: the uniformity test
    reaches [stats.chisquare] with [N] observed frequencies summing to
    [count] and [N] expected counts summing to [count], and the
    independence, runs and entropy tests return. *)
Theorem generated_sequence_battery :
  forall (d : distribution) (N count : Z),
    exact_double N -> 2 <= N -> 2 <= count ->
    returns (generate d N count)
            (fun numbers =>
               (exists observed,
                   test_uniformity (Heap (Tester N count) numbers)
                   = (match chisquare observed
                              (replicate (Z.to_nat N) (Fin (IZR count / IZR N))) with
                      | OK r => OK (UniformityResult r.1 r.2 (fgtb r.2 alpha))
                      | Raise e => Raise e
                      end, Heap (Tester N count) numbers) /\
                   Z.of_nat (length observed) = N /\
                   Zsum observed = count /\
                   Rsum (replicate (Z.to_nat N) (IZR count / IZR N)%R) = IZR count) /\
               is_ok (fst (test_independence (Heap (Tester N count) numbers))) = true /\
               is_ok (fst (test_runs (Heap (Tester N count) numbers))) = true /\
               is_ok (fst (test_entropy (Heap (Tester N count) numbers))) = true).
Proof.
  intros d N count HD HN Hc. unfold exact_double in HD.
  eapply returns_weaken.
  - apply (generate_in_range d N count); [lia | lia | intros; lia | lia].
  - intros numbers Hr. cbv beta.
    destruct (in_range_bounds N count numbers Hr) as (Hpos & Hlt & Hboth).
    destruct Hr as [Hlen _].
    destruct (bincount_frequencies numbers N Hpos ltac:(lia))
      as (observed & Hb & Hol & Hsum).
    destruct (bins_needed_spec numbers Hpos) as (_ & _ & Hiff).
    assert (Hbins : bins_needed numbers <= N) by (apply Hiff; split; [lia | exact Hlt]).
    split; [|split; [|split]].
    + exists observed. split; [|split; [lia | split; [lia|]]].
      * rewrite (test_uniformity_eval (Heap (Tester N count) numbers) observed Hb)
          by (cbn; lia).
        cbn [self self_N self_count]. unfold of_Z. cbn [fmul].
        rewrite fdiv_Fin by (apply not_0_IZR; lia).
        replace (1 * IZR count / IZR N)%R with (IZR count / IZR N)%R
          by (unfold Rdiv; ring).
        reflexivity.
      * rewrite Rsum_replicate, INR_IZR_INZ, Z2Nat.id by lia.
        field. apply not_0_IZR. lia.
    + destruct (test_independence_char (Tester N count) numbers ltac:(lia))
        as (mx & lags & verdict & E & _).
      rewrite E. reflexivity.
    + destruct numbers as [|x l]; [simpl in Hlen; lia|].
      destruct (test_runs_eval (Heap (Tester N count) (x :: l)) x eq_refl)
        as (e & z & p & b & E & _).
      rewrite E. reflexivity.
    + rewrite (test_entropy_eval (Heap (Tester N count) numbers) observed Hb).
      reflexivity.
Qed.
End BatteryOnGenerated.

Lemma generated_tables_written_witness :
  exact_double 100 /\ 2 <= 100 /\ 1 <= 10000 /\
  returns (generate Mixed 100 10000)
          (fun numbers =>
             forall (save_path : string) (fs : files),
               save_frequency_table numbers 100 save_path fs
               = (OK tt, <[save_path := frequency_rows numbers 100]> fs) /\
               Zsum (map (fun i => Z.of_nat (count_occ Z.eq_dec numbers i)) (seqZ 0 100))
               = 10000 /\
               save_gap_table numbers 100 save_path fs
               = (Written, <[save_path := gap_table_rows numbers 100]> fs)).
Proof.
  assert (H1 : exact_double 100) by (unfold exact_double; simpl; lia).
  assert (H2 : 2 <= 100) by lia.
  assert (H3 : 1 <= 10000) by lia.
  split; [exact H1 | split; [exact H2 | split; [exact H3|]]].
  apply (generated_tables_written Mixed 100 10000 H1 H2 H3).
Defined.

Lemma generated_sequence_battery_witness :
  exact_double 100 /\ 2 <= 100 /\ 2 <= 10000 /\
  returns (generate Poisson 100 10000)
          (fun numbers =>
             (exists observed,
                 test_uniformity (scipy := scipy_nan) (Heap (Tester 100 10000) numbers)
                 = (match chisquare (ScipyStats := scipy_nan) observed
                            (replicate (Z.to_nat 100) (Fin (IZR 10000 / IZR 100))) with
                    | OK r => OK (UniformityResult r.1 r.2 (fgtb r.2 alpha))
                    | Raise e => Raise e
                    end, Heap (Tester 100 10000) numbers) /\
                 Z.of_nat (length observed) = 100 /\
                 Zsum observed = 10000 /\
                 Rsum (replicate (Z.to_nat 100) (IZR 10000 / IZR 100)%R) = IZR 10000) /\
             is_ok (fst (test_independence (Heap (Tester 100 10000) numbers))) = true /\
             is_ok (fst (test_runs (scipy := scipy_nan) (Heap (Tester 100 10000) numbers))) = true /\
             is_ok (fst (test_entropy (Heap (Tester 100 10000) numbers))) = true).
Proof.
  assert (H1 : exact_double 100) by (unfold exact_double; simpl; lia).
  assert (H2 : 2 <= 100) by lia.
  assert (H3 : 2 <= 10000) by lia.
  split; [exact H1 | split; [exact H2 | split; [exact H3|]]].
  apply (generated_sequence_battery (scipy := scipy_nan) Poisson 100 10000 H1 H2 H3).
Defined.

